(** * The Android low memory killer of the msm7x27 kernel

    A shallow embedding of [drivers/staging/android/lowmemorykiller.c]:
    the threshold table, the free-memory estimate ([tune_lmk_zone_param],
    [tune_lmk_param]), the priority index ([add_2_adj_tree] and the
    [pick_*] cursors) and the shrinker callback [lowmem_shrink].

    The model is sequential.  [task_lock], [rcu_read_lock] and the
    [lmk_lock] spin lock protect against interleavings that a sequential
    model does not have and are left out; [scan_mutex] is kept, as events
    of the trace.  [lowmem_print] only writes to the kernel log and is left
    out as well. *)

From Stdlib Require Import ZArith NArith List Bool Lia Sorted Permutation.
Import ListNotations.
Local Open Scope Z_scope.

(** ** C integers

    The target is a 32-bit ARM: [int], [long] and [unsigned long] are 32
    bits wide.  Values are kept in [Z]; a conversion to a C type is written
    out where the C code performs one. *)

Module CInt.

Definition INT_MIN : Z := - 2 ^ 31.
Definition INT_MAX : Z := 2 ^ 31 - 1.

(** Conversion to [int] (and [long]): two's complement wrap-around. *)
Definition to_int (z : Z) : Z := (z + 2 ^ 31) mod 2 ^ 32 - 2 ^ 31.

(** Conversion to [unsigned long]. *)
Definition to_ulong (z : Z) : Z := z mod 2 ^ 32.

End CInt.
Export CInt.

(** ** Kernel data the driver reads *)

Definition task_ptr := Z.
Definition gfp_t := Z.

Inductive zone_stat_item :=
  | NR_FREE_PAGES | NR_FILE_PAGES | NR_SHMEM
  | NR_ACTIVE_ANON | NR_ACTIVE_FILE | NR_INACTIVE_ANON | NR_INACTIVE_FILE.

(** [struct zone]: the fields the driver looks at. *)
Record zone := mk_zone {
  zone_idx : Z;
  zone_vm_stat : zone_stat_item -> Z;
  lowmem_reserve : Z -> Z;
  low_wmark_pages : Z;
  high_wmark_pages : Z;
  present_pages : Z
}.

Definition zone_page_state (z : zone) (item : zone_stat_item) : Z :=
  zone_vm_stat z item.

(** A zonelist is the sequence of its zonerefs; a zoneref is identified
    with its zone ([zonelist_zone_idx] is the zone's index). *)
Definition zonelist := list zone.
Definition zonelist_zone_idx (z : zone) : Z := zone_idx z.

Record mm_struct := mk_mm { file_rss : Z; anon_rss : Z }.

Record signal_struct := mk_signal { oom_adj : Z }.

(** [struct task_struct].  [flags] are the [PF_*] bits, [ti_flags] the
    [TIF_*] bits of the thread_info.  [thread_group] lists the other
    threads of the group in the order [while_each_thread] reaches them. *)
Record task_struct := mk_task {
  flags : N;
  ti_flags : N;
  mm : option mm_struct;
  signal : signal_struct;
  group_leader : task_ptr;
  thread_group : list task_ptr;
  tgid : Z;
  sigkill_pending : bool
}.

(** ** The priority index: [struct rb_root tasksadj]

    The tree holds the [adj_node] of each registered task; a node is
    represented by the task it is embedded in.  Colours are not kept: the
    driver never looks at them. *)
Inductive rb_node :=
  | rb_nil
  | rb_mk (rb_left : rb_node) (entry : task_ptr) (rb_right : rb_node).

Definition rb_root := rb_node.
Definition RB_ROOT : rb_root := rb_nil.

Fixpoint inorder (t : rb_node) : list task_ptr :=
  match t with
  | rb_nil => []
  | rb_mk l e r => inorder l ++ e :: inorder r
  end.

(** ** What the rest of the kernel provides

    Constants, macros and helpers the driver uses and that are declared
    elsewhere in the kernel tree.  They are parameters of the development. *)
Record kernel := mk_kernel {
  HZ : Z;
  SIGKILL : Z;
  SWAP_CLUSTER_MAX : Z;
  ZONE_NORMAL : Z;
  ZONE_HIGHMEM : Z;
  ZONE_MOVABLE : Z;
  MAX_NR_ZONES : Z;
  CONFIG_HIGHMEM : bool;
  PF_EXITING : N;
  PF_KTHREAD : N;
  PF_KSWAPD : N;
  TIF_MEMDIE : N;
  TIF_MM_RELEASED : N;
  (** [zone_watermark_ok z order mark classzone_idx alloc_flags] *)
  zone_watermark_ok : zone -> Z -> Z -> Z -> Z -> bool;
  gfp_zone : gfp_t -> Z;
  (** the zone [first_zones_zonelist] stores through its last argument *)
  first_zones_zonelist : zonelist -> Z -> zone;
  (** the zones [for_each_zone_zonelist zonelist highidx] runs its body on *)
  for_each_zone_zonelist : zonelist -> Z -> list zone;
  time_before_eq : Z -> Z -> bool;
  same_thread_group : task_struct -> task_struct -> bool;
  fatal_signal_pending : task_struct -> bool;
  get_mm_rss : mm_struct -> Z;
  (** rebalancing after [rb_link_node] *)
  rb_insert_color : rb_root -> rb_root
}.

(** ** Machine state *)
Record state := mk_state {
  (* the driver's own globals *)
  lowmem_adj : list Z;
  lowmem_adj_size : Z;
  lowmem_minfree : list Z;
  lowmem_minfree_size : Z;
  lmk_fast_run : Z;
  lowmem_deathpending_timeout : Z;
  tasksadj : rb_root;
  (* kernel state *)
  tasks : task_ptr -> task_struct;
  current : task_ptr;
  jiffies : Z;
  global_vm_stat : zone_stat_item -> Z;
  node_zonelist : Z -> gfp_t -> zonelist;
  (** whether a signal interrupts the caller while it sleeps on
      [scan_mutex] in [mutex_lock_interruptible] *)
  scan_mutex_wait_interrupted : bool
}.

Definition global_page_state (st : state) (item : zone_stat_item) : Z :=
  global_vm_stat st item.

Definition KSWAPD_ZONE_BALANCE_GAP_RATIO : Z := 100.
Definition OOM_SCORE_ADJ_MAX : Z := 1000.

(** ** The driver *)

Section Driver.

Variable K : kernel.

(** [_ZONE], chosen by [CONFIG_HIGHMEM]. *)
Definition _ZONE : Z :=
  if CONFIG_HIGHMEM K then ZONE_HIGHMEM K else ZONE_NORMAL K.

Definition test_tsk_thread_flag (t : task_struct) (flag : N) : bool :=
  N.testbit (ti_flags t) flag.

Definition set_thread_flag (t : task_struct) (flag : N) : task_struct :=
  mk_task (flags t) (N.setbit (ti_flags t) flag) (mm t) (signal t)
          (group_leader t) (thread_group t) (tgid t) (sigkill_pending t).

(** The threads [do { ... } while_each_thread(p, t)] runs its body on,
    in order: [p] first. *)
Definition each_thread (st : state) (p : task_ptr) : list task_ptr :=
  p :: thread_group (tasks st p).

(** [test_task_flag]: 1 as soon as a thread of the group has the flag. *)
Fixpoint test_task_flag_loop (st : state) (ts : list task_ptr) (flag : N) : bool :=
  match ts with
  | [] => false
  | t :: ts' =>
      if test_tsk_thread_flag (tasks st t) flag then true
      else test_task_flag_loop st ts' flag
  end.

Definition test_task_flag (st : state) (p : task_ptr) (flag : N) : bool :=
  test_task_flag_loop st (each_thread st p) flag.

(** [find_lock_task_mm]: the first thread of the group with a valid
    [->mm], or NULL. *)
Fixpoint find_lock_task_mm_loop (st : state) (ts : list task_ptr) : option task_ptr :=
  match ts with
  | [] => None
  | t :: ts' =>
      match mm (tasks st t) with
      | Some _ => Some t
      | None => find_lock_task_mm_loop st ts'
      end
  end.

Definition find_lock_task_mm (st : state) (p : task_ptr) : option task_ptr :=
  find_lock_task_mm_loop st (each_thread st p).

(** *** The free-memory estimate *)

(** One iteration of the loop of [tune_lmk_zone_param].  [other_free] is
    never NULL at a call site and is passed by value; [other_file] is
    [None] when the caller passes NULL. *)
Definition tune_lmk_zone_step (classzone_idx : Z)
    (acc : Z * option Z) (zone : zone) : Z * option Z :=
  let '(other_free, other_file) := acc in
  let zone_idx := zonelist_zone_idx zone in
  if zone_idx =? ZONE_MOVABLE K then acc
  else if zone_idx >? classzone_idx then
    (to_int (other_free - to_ulong (zone_page_state zone NR_FREE_PAGES)),
     match other_file with
     | Some f =>
         Some (to_int (f - to_ulong (zone_page_state zone NR_FILE_PAGES
                                     - zone_page_state zone NR_SHMEM)))
     | None => None
     end)
  else if zone_idx <? classzone_idx then
    if zone_watermark_ok K zone 0 0 classzone_idx 0 then
      (to_int (other_free - to_ulong (lowmem_reserve zone classzone_idx)),
       other_file)
    else
      (to_int (other_free - to_ulong (zone_page_state zone NR_FREE_PAGES)),
       other_file)
  else acc.

Definition tune_lmk_zone_param (zonelist : zonelist) (classzone_idx : Z)
    (other_free : Z) (other_file : option Z) : Z * option Z :=
  fold_left (tune_lmk_zone_step classzone_idx)
            (for_each_zone_zonelist K zonelist (MAX_NR_ZONES K))
            (other_free, other_file).

Definition current_is_kswapd (st : state) : bool :=
  negb (N.land (flags (tasks st (current st))) (PF_KSWAPD K) =? 0)%N.

(** [tune_lmk_param]: returns the new values of [*other_free] and
    [*other_file]. *)
Definition tune_lmk_param (st : state) (other_free other_file : Z)
    (gfp_mask : gfp_t) : Z * Z :=
  let zonelist := node_zonelist st 0 gfp_mask in
  let high_zoneidx := gfp_zone K gfp_mask in
  let preferred_zone := first_zones_zonelist K zonelist high_zoneidx in
  let classzone_idx := zone_idx preferred_zone in
  let balance_gap :=
    Z.min (low_wmark_pages preferred_zone)
          (to_ulong (present_pages preferred_zone
                     + KSWAPD_ZONE_BALANCE_GAP_RATIO - 1)
           / KSWAPD_ZONE_BALANCE_GAP_RATIO) in
  if current_is_kswapd st
     && zone_watermark_ok K preferred_zone 0
          (to_ulong (high_wmark_pages preferred_zone + SWAP_CLUSTER_MAX K
                     + balance_gap)) 0 0
  then
    let '(other_free, other_file) :=
      if negb (lmk_fast_run st =? 0) then
        match tune_lmk_zone_param zonelist classzone_idx other_free
                                  (Some other_file) with
        | (fr, Some fl) => (fr, fl)
        | (fr, None) => (fr, other_file)
        end
      else
        (fst (tune_lmk_zone_param zonelist classzone_idx other_free None),
         other_file) in
    if zone_watermark_ok K preferred_zone 0 0 _ZONE 0 then
      (to_int (other_free - to_ulong (lowmem_reserve preferred_zone _ZONE)),
       other_file)
    else
      (to_int (other_free
               - to_ulong (zone_page_state preferred_zone NR_FREE_PAGES)),
       other_file)
  else
    match tune_lmk_zone_param zonelist classzone_idx other_free
                              (Some other_file) with
    | (fr, Some fl) => (fr, fl)
    | (fr, None) => (fr, other_file)
    end.

(** *** The threshold table *)

(** Number of elements of the arrays [lowmem_adj] and [lowmem_minfree]. *)
Definition ARRAY_SIZE_lowmem_adj : Z := 6.

(** The [array_size] of [lowmem_shrink] after its two adjustments. *)
Definition lowmem_array_size (st : state) : Z :=
  let array_size := ARRAY_SIZE_lowmem_adj in
  let array_size :=
    if lowmem_adj_size st <? array_size then lowmem_adj_size st
    else array_size in
  let array_size :=
    if lowmem_minfree_size st <? array_size then lowmem_minfree_size st
    else array_size in
  array_size.

(** The body of [for (i = 0; i < array_size; i++)], over the values that
    [i] still has to take; [OOM_SCORE_ADJ_MAX + 1] is the initial value of
    [min_adj]. *)
Fixpoint lowmem_min_adj_loop (st : state) (other_free other_file : Z)
    (rows : list nat) : Z :=
  match rows with
  | [] => OOM_SCORE_ADJ_MAX + 1
  | i :: rows' =>
      if (other_free <? nth i (lowmem_minfree st) 0)
         && (other_file <? nth i (lowmem_minfree st) 0)
      then nth i (lowmem_adj st) 0
      else lowmem_min_adj_loop st other_free other_file rows'
  end.

Definition lowmem_min_adj (st : state) (other_free other_file : Z) : Z :=
  lowmem_min_adj_loop st other_free other_file
    (seq 0 (Z.to_nat (lowmem_array_size st))).

(** *** The priority index *)

(** The descent of [add_2_adj_tree] from [*link] and the [rb_link_node]
    at the NULL link it ends on. *)
Fixpoint adj_tree_link (st : state) (key : Z) (task : task_ptr)
    (link : rb_node) : rb_node :=
  match link with
  | rb_nil => rb_mk rb_nil task rb_nil
  | rb_mk l task_entry r =>
      if key <? oom_adj (signal (tasks st task_entry))
      then rb_mk l task_entry (adj_tree_link st key task r)
      else rb_mk (adj_tree_link st key task l) task_entry r
  end.

Definition set_tasksadj (st : state) (t : rb_root) : state :=
  mk_state (lowmem_adj st) (lowmem_adj_size st) (lowmem_minfree st)
           (lowmem_minfree_size st) (lmk_fast_run st)
           (lowmem_deathpending_timeout st) t (tasks st) (current st)
           (jiffies st) (global_vm_stat st) (node_zonelist st)
           (scan_mutex_wait_interrupted st).

Definition add_2_adj_tree (st : state) (task : task_ptr) : state :=
  let key := oom_adj (signal (tasks st task)) in
  set_tasksadj st
    (rb_insert_color K (adj_tree_link st key task (tasksadj st))).

(** [rb_first], [rb_last] and [rb_next] walk the nodes left to right. *)
Definition pick_first_task (st : state) : option task_ptr :=
  hd_error (inorder (tasksadj st)).

Definition pick_last_task (st : state) : option task_ptr :=
  match inorder (tasksadj st) with
  | [] => None
  | e :: l => Some (last l e)
  end.

Fixpoint rb_next_in (nodes : list task_ptr) (task : task_ptr) : option task_ptr :=
  match nodes with
  | [] => None
  | e :: rest => if e =? task then hd_error rest else rb_next_in rest task
  end.

Definition pick_next_from_adj_tree (st : state) (task : task_ptr) : option task_ptr :=
  rb_next_in (inorder (tasksadj st)) task.

(** The tasks the loop
    [for (tsk = pick_first_task(); tsk != pick_last_task();
          tsk = pick_next_from_adj_tree(tsk))]
    runs its body on, given the nodes from the cursor on: the loop stops
    on the last node without entering its body, and at once on an empty
    tree. *)
Fixpoint adj_tree_walk (nodes : list task_ptr) : list task_ptr :=
  match nodes with
  | [] => []
  | tsk :: rest =>
      match rest with
      | [] => []
      | _ :: _ => tsk :: adj_tree_walk rest
      end
  end.

(** Equality of two task pointers, NULL included. *)
Definition same_task (a b : option task_ptr) : bool :=
  match a, b with
  | Some x, Some y => x =? y
  | None, None => true
  | _, _ => false
  end.

(** The loop header run with the three cursor functions, for at most
    [fuel] iterations: the tasks the body is run on.  ([tsk] cannot be
    NULL while [pick_last_task()] is not: the walk ends there.) *)
Fixpoint cursor_walk (fuel : nat) (st : state) (tsk : option task_ptr)
    : list task_ptr :=
  match fuel with
  | O => []
  | S fuel' =>
      if same_task tsk (pick_last_task st) then []
      else
        match tsk with
        | None => []
        | Some t => t :: cursor_walk fuel' st (pick_next_from_adj_tree st t)
        end
  end.

(** *** The scan *)

Record selection := mk_selection {
  selected : option task_ptr;
  selected_tasksize : Z;
  selected_oom_adj : Z
}.

(** How one run of the loop body ends. *)
Inductive body_exit :=
  | Continue (s : selection)
  | Break (s : selection)
  | Return_0 (tsk : task_ptr).

(** The end of the loop body, from [if (selected)] on: [p] with its
    [tasksize] and [oom_adj] against the selection made so far. *)
Definition select_candidate (s : selection) (p : task_ptr)
    (tasksize oom_adj : Z) : body_exit :=
  match selected s with
  | Some _ =>
      if oom_adj <? selected_oom_adj s then Break s
      else if (oom_adj =? selected_oom_adj s)
              && (tasksize <=? selected_tasksize s)
      then Continue s
      else Continue (mk_selection (Some p) tasksize oom_adj)
  | None => Continue (mk_selection (Some p) tasksize oom_adj)
  end.

Definition scan_body (st : state) (min_adj : Z) (s : selection)
    (tsk : task_ptr) : body_exit :=
  if negb (N.land (flags (tasks st tsk)) (PF_KTHREAD K) =? 0)%N then Continue s
  else if test_task_flag st tsk (TIF_MM_RELEASED K) then Continue s
  else if time_before_eq K (jiffies st) (lowmem_deathpending_timeout st)
          && test_task_flag st tsk (TIF_MEMDIE K)
  then Return_0 tsk
  else
    match find_lock_task_mm st tsk with
    | None => Continue s
    | Some p =>
        let oom_adj := oom_adj (signal (tasks st p)) in
        if oom_adj <? min_adj then Break s
        else if fatal_signal_pending K (tasks st p)
                || (negb (N.land (flags (tasks st p)) (PF_EXITING K) =? 0)%N
                    && test_tsk_thread_flag (tasks st p) (TIF_MEMDIE K))
        then Continue s
        else
          let tasksize :=
            match mm (tasks st p) with
            | Some m => to_int (get_mm_rss K m)
            | None => 0
            end in
          if tasksize <=? 0 then Continue s
          else select_candidate s p tasksize oom_adj
    end.

(** How the loop ends: it falls out (end of the walk or [break]) with the
    selection made so far, or the function returns 0 from inside it. *)
Inductive scan_exit :=
  | Scan_done (s : selection)
  | Scan_return_0 (tsk : task_ptr).

Fixpoint scan_loop (st : state) (min_adj : Z) (s : selection)
    (walk : list task_ptr) : scan_exit :=
  match walk with
  | [] => Scan_done s
  | tsk :: walk' =>
      match scan_body st min_adj s tsk with
      | Continue s' => scan_loop st min_adj s' walk'
      | Break s' => Scan_done s'
      | Return_0 t => Scan_return_0 t
      end
  end.

(** *** [lowmem_shrink] *)

Inductive event :=
  | Ev_mutex_lock
  | Ev_mutex_unlock
  | Ev_send_sig (sig : Z) (p : task_ptr)
  | Ev_set_tsk_thread_flag (p : task_ptr) (flag : N)
  | Ev_msleep_interruptible (msecs : Z).

Record outcome := mk_outcome {
  retval : Z;
  events : list event;
  final : state
}.

Definition set_tsk_thread_flag (st : state) (p : task_ptr) (flag : N) : state :=
  mk_state (lowmem_adj st) (lowmem_adj_size st) (lowmem_minfree st)
           (lowmem_minfree_size st) (lmk_fast_run st)
           (lowmem_deathpending_timeout st) (tasksadj st)
           (fun q => if q =? p then set_thread_flag (tasks st q) flag
                     else tasks st q)
           (current st) (jiffies st) (global_vm_stat st) (node_zonelist st)
           (scan_mutex_wait_interrupted st).

(** SIGKILL becomes pending on a task. *)
Definition set_sigkill_pending (t : task_struct) : task_struct :=
  mk_task (flags t) (ti_flags t) (mm t) (signal t)
          (group_leader t) (thread_group t) (tgid t) true.

(** [send_sig(sig, p, 0)], of the kernel's signal code, as the driver
    sees it: a SIGKILL sent to [p] is from then on pending on [p], which
    is what [fatal_signal_pending(p)] reads in the loop of a later call.
    The driver sends no other signal. *)
Definition send_sig (st : state) (sig : Z) (p : task_ptr) : state :=
  mk_state (lowmem_adj st) (lowmem_adj_size st) (lowmem_minfree st)
           (lowmem_minfree_size st) (lmk_fast_run st)
           (lowmem_deathpending_timeout st) (tasksadj st)
           (fun q => if (sig =? SIGKILL K) && (q =? p)
                     then set_sigkill_pending (tasks st q)
                     else tasks st q)
           (current st) (jiffies st) (global_vm_stat st) (node_zonelist st)
           (scan_mutex_wait_interrupted st).

Definition set_lowmem_deathpending_timeout (st : state) (t : Z) : state :=
  mk_state (lowmem_adj st) (lowmem_adj_size st) (lowmem_minfree st)
           (lowmem_minfree_size st) (lmk_fast_run st) t (tasksadj st)
           (tasks st) (current st) (jiffies st) (global_vm_stat st)
           (node_zonelist st) (scan_mutex_wait_interrupted st).

(** The admission test on [current->group_leader]. *)
Definition current_is_dying (st : state) : bool :=
  let tsk := group_leader (tasks st (current st)) in
  negb (N.land (flags (tasks st tsk)) (PF_EXITING K) =? 0)%N
  && test_task_flag st tsk (TIF_MEMDIE K).

(** [other_free] and [other_file] after [tune_lmk_param]. *)
Definition lowmem_other (st : state) (gfp_mask : gfp_t) : Z * Z :=
  let other_free := to_int (global_page_state st NR_FREE_PAGES) in
  let other_file :=
    to_int (to_ulong (global_page_state st NR_FILE_PAGES
                      - global_page_state st NR_SHMEM)) in
  tune_lmk_param st other_free other_file gfp_mask.

(** The initial value of [rem]. *)
Definition lowmem_rem (st : state) : Z :=
  to_int (to_ulong (global_page_state st NR_ACTIVE_ANON
                    + global_page_state st NR_ACTIVE_FILE
                    + global_page_state st NR_INACTIVE_ANON
                    + global_page_state st NR_INACTIVE_FILE)).

Definition lowmem_shrink (st : state) (nr_to_scan : Z) (gfp_mask : gfp_t)
    : outcome :=
  if current_is_dying st then
    mk_outcome 0 [Ev_set_tsk_thread_flag (current st) (TIF_MEMDIE K)]
               (set_tsk_thread_flag st (current st) (TIF_MEMDIE K))
  else if (0 <? nr_to_scan) && scan_mutex_wait_interrupted st then
    mk_outcome 0 [] st
  else
    let locked := if 0 <? nr_to_scan then [Ev_mutex_lock] else [] in
    let '(other_free, other_file) := lowmem_other st gfp_mask in
    let min_adj := lowmem_min_adj st other_free other_file in
    let rem := lowmem_rem st in
    if (nr_to_scan <=? 0) || (min_adj =? OOM_SCORE_ADJ_MAX + 1) then
      mk_outcome rem
        (locked ++ (if 0 <? nr_to_scan then [Ev_mutex_unlock] else []))
        st
    else
      let selected_oom_adj := min_adj in
      match scan_loop st min_adj (mk_selection None 0 selected_oom_adj)
                      (adj_tree_walk (inorder (tasksadj st))) with
      | Scan_return_0 tsk =>
          if negb (same_thread_group K (tasks st (current st)) (tasks st tsk))
          then
            mk_outcome 0
              (locked ++ [Ev_msleep_interruptible 20; Ev_mutex_unlock]) st
          else
            mk_outcome 0
              (locked ++ [Ev_set_tsk_thread_flag (current st) (TIF_MEMDIE K);
                          Ev_mutex_unlock])
              (set_tsk_thread_flag st (current st) (TIF_MEMDIE K))
      | Scan_done s =>
          match selected s with
          | Some sel =>
              mk_outcome (to_int (rem - selected_tasksize s))
                (locked ++ [Ev_send_sig (SIGKILL K) sel;
                            Ev_set_tsk_thread_flag sel (TIF_MEMDIE K);
                            Ev_msleep_interruptible 20;
                            Ev_mutex_unlock])
                (set_tsk_thread_flag
                   (send_sig
                      (set_lowmem_deathpending_timeout st
                         (to_ulong (jiffies st + HZ K)))
                      (SIGKILL K) sel)
                   sel (TIF_MEMDIE K))
          | None => mk_outcome rem (locked ++ [Ev_mutex_unlock]) st
          end
      end.

End Driver.

(** ** Vocabulary of the statements *)

Section Views.

Variable K : kernel.

(** [candidate st tsk p adj size]: the loop body, run on [tsk], gets past
    every [continue] and the [return 0] that precede the selection, with
    [p] the thread whose mm is charged, [adj] its [oom_adj] and [size] its
    [tasksize]. *)
Definition candidate (st : state) (tsk p : task_ptr) (adj size : Z) : Prop :=
  N.land (flags (tasks st tsk)) (PF_KTHREAD K) = 0%N
  /\ test_task_flag st tsk (TIF_MM_RELEASED K) = false
  /\ (time_before_eq K (jiffies st) (lowmem_deathpending_timeout st)
      && test_task_flag st tsk (TIF_MEMDIE K)) = false
  /\ find_lock_task_mm st tsk = Some p
  /\ oom_adj (signal (tasks st p)) = adj
  /\ (fatal_signal_pending K (tasks st p)
      || (negb (N.land (flags (tasks st p)) (PF_EXITING K) =? 0)%N
          && test_tsk_thread_flag (tasks st p) (TIF_MEMDIE K))) = false
  /\ (exists m, mm (tasks st p) = Some m /\ to_int (get_mm_rss K m) = size)
  /\ 0 < size.

(** The selection after the loop body ran on every task of [walk] without
    leaving the loop; [None] if it left the loop on one of them. *)
Fixpoint scan_through (st : state) (min_adj : Z) (s : selection)
    (walk : list task_ptr) : option selection :=
  match walk with
  | [] => Some s
  | tsk :: walk' =>
      match scan_body K st min_adj s tsk with
      | Continue s' => scan_through st min_adj s' walk'
      | _ => None
      end
  end.

Definition no_kill (evs : list event) : Prop :=
  forall sig p, ~ In (Ev_send_sig sig p) evs.

Definition adj_of (st : state) (p : task_ptr) : Z :=
  oom_adj (signal (tasks st p)).

(** Left-to-right order of the index: never increasing in [oom_adj]. *)
Definition adj_descending (st : state) (nodes : list task_ptr) : Prop :=
  StronglySorted (fun a b => adj_of st b <= adj_of st a) nodes.

(** Where [add_2_adj_tree] puts a task in the left-to-right order: behind
    the entries whose [oom_adj] is above its key, in front of the others. *)
Fixpoint adj_insert (st : state) (key : Z) (task : task_ptr)
    (nodes : list task_ptr) : list task_ptr :=
  match nodes with
  | [] => [task]
  | e :: rest =>
      if key <? adj_of st e then e :: adj_insert st key task rest
      else task :: e :: rest
  end.

(** Registering tasks one after the other. *)
Definition register_all (st : state) (l : list task_ptr) : state :=
  fold_left (add_2_adj_tree K) l st.

(** What one zone takes off [other_free] and off [other_file] in
    [tune_lmk_zone_param]. *)
Definition zone_free_share (classzone_idx : Z) (z : zone) : Z :=
  if zone_idx z =? ZONE_MOVABLE K then 0
  else if zone_idx z >? classzone_idx then zone_page_state z NR_FREE_PAGES
  else if zone_idx z <? classzone_idx then
    if zone_watermark_ok K z 0 0 classzone_idx 0
    then lowmem_reserve z classzone_idx
    else zone_page_state z NR_FREE_PAGES
  else 0.

Definition zone_file_share (classzone_idx : Z) (z : zone) : Z :=
  if zone_idx z =? ZONE_MOVABLE K then 0
  else if zone_idx z >? classzone_idx
  then zone_page_state z NR_FILE_PAGES - zone_page_state z NR_SHMEM
  else 0.

Definition sum_Z (l : list Z) : Z := fold_right Z.add 0 l.

(** The preferred zone of a request and the test that guards the kswapd
    branch of [tune_lmk_param]. *)
Definition preferred_zone_of (st : state) (gfp_mask : gfp_t) : zone :=
  first_zones_zonelist K (node_zonelist st 0 gfp_mask) (gfp_zone K gfp_mask).

Definition kswapd_balanced (st : state) (gfp_mask : gfp_t) : bool :=
  let preferred_zone := preferred_zone_of st gfp_mask in
  let balance_gap :=
    Z.min (low_wmark_pages preferred_zone)
          (to_ulong (present_pages preferred_zone
                     + KSWAPD_ZONE_BALANCE_GAP_RATIO - 1)
           / KSWAPD_ZONE_BALANCE_GAP_RATIO) in
  current_is_kswapd K st
  && zone_watermark_ok K preferred_zone 0
       (to_ulong (high_wmark_pages preferred_zone + SWAP_CLUSTER_MAX K
                  + balance_gap)) 0 0.

(** What the kswapd branch takes off [other_free] for the preferred zone
    itself. *)
Definition preferred_zone_share (z : zone) : Z :=
  if zone_watermark_ok K z 0 0 (_ZONE K) 0
  then lowmem_reserve z (_ZONE K)
  else zone_page_state z NR_FREE_PAGES.

(** The floor in force for a call. *)
Definition lowmem_floor (st : state) (gfp_mask : gfp_t) : Z :=
  lowmem_min_adj st (fst (lowmem_other K st gfp_mask))
                    (snd (lowmem_other K st gfp_mask)).

(** What follows the loop, by the way the loop ended. *)
Definition after_scan (st : state) (x : scan_exit) : outcome :=
  match x with
  | Scan_return_0 tsk =>
      if negb (same_thread_group K (tasks st (current st)) (tasks st tsk))
      then mk_outcome 0
             [Ev_mutex_lock; Ev_msleep_interruptible 20; Ev_mutex_unlock] st
      else mk_outcome 0
             [Ev_mutex_lock;
              Ev_set_tsk_thread_flag (current st) (TIF_MEMDIE K);
              Ev_mutex_unlock]
             (set_tsk_thread_flag st (current st) (TIF_MEMDIE K))
  | Scan_done s =>
      match selected s with
      | Some sel =>
          mk_outcome (to_int (lowmem_rem st - selected_tasksize s))
            [Ev_mutex_lock; Ev_send_sig (SIGKILL K) sel;
             Ev_set_tsk_thread_flag sel (TIF_MEMDIE K);
             Ev_msleep_interruptible 20; Ev_mutex_unlock]
            (set_tsk_thread_flag
               (send_sig K
                  (set_lowmem_deathpending_timeout st
                     (to_ulong (jiffies st + HZ K)))
                  (SIGKILL K) sel)
               sel (TIF_MEMDIE K))
      | None =>
          mk_outcome (lowmem_rem st) [Ev_mutex_lock; Ev_mutex_unlock] st
      end
  end.

(** The left-to-right order after registering the tasks of [l], starting
    from the order [nodes]. *)
Definition insert_all (st : state) (l nodes : list task_ptr) : list task_ptr :=
  fold_left (fun nodes p => adj_insert st (adj_of st p) p nodes) l nodes.

End Views.

(** ** A concrete kernel and concrete states

    The values of a 32-bit ARM kernel of the 2.6.35 line with
    [CONFIG_HIGHMEM], used to run the definitions on examples. *)

Definition example_zone_watermark_ok (z : zone) (order mark classzone_idx
    alloc_flags : Z) : bool :=
  negb (zone_page_state z NR_FREE_PAGES
        <=? mark + lowmem_reserve z classzone_idx).

Definition empty_zone : zone :=
  mk_zone 0 (fun _ => 0) (fun _ => 0) 0 0 0.

Definition example_kernel : kernel :=
  mk_kernel
    100 9 32
    0 1 2 3 true
    4%N 2097152%N 262144%N
    18%N 21%N
    example_zone_watermark_ok
    (fun gfp_mask => if Z.testbit gfp_mask 1 then 1 else 0)
    (fun zl high => hd empty_zone (filter (fun z => zone_idx z <=? high) zl))
    (fun zl high => filter (fun z => zone_idx z <=? high) zl)
    (fun a b => 0 <=? to_int (b - a))
    (fun a b => tgid a =? tgid b)
    sigkill_pending
    (fun m => file_rss m + anon_rss m)
    (fun t => t).

(** A single-threaded user process. *)
Definition user_task (self : task_ptr) (adj rss : Z) : task_struct :=
  mk_task 0 0 (Some (mk_mm 0 rss)) (mk_signal adj) self [] self false.

Definition vm_stat_of (free file shmem lru : Z) (item : zone_stat_item) : Z :=
  match item with
  | NR_FREE_PAGES => free
  | NR_FILE_PAGES => file
  | NR_SHMEM => shmem
  | _ => lru
  end.

Definition normal_zone : zone :=
  mk_zone 0 (vm_stat_of 3000 3500 500 1000) (fun _ => 0) 600 800 50000.

Definition highmem_zone : zone :=
  mk_zone 1 (vm_stat_of 100 700 200 0) (fun _ => 0) 10 20 1000.

Definition movable_zone : zone :=
  mk_zone 2 (vm_stat_of 100 700 200 0) (fun _ => 0) 10 20 1000.

(** Candidates A, B and C: task pointers 1, 2 and 3.  Task 100 is the
    caller, which is not registered. *)
Definition abc_tasks (p : task_ptr) : task_struct :=
  if p =? 1 then user_task 1 6 200
  else if p =? 2 then user_task 2 6 500
  else if p =? 3 then user_task 3 12 10
  else user_task p 0 50.

(** The module's initial tables, 3000 free and 3000 file-minus-shmem
    pages, one zone: the threshold row of 4096 pages, floor 6. *)
Definition abc_boot : state :=
  mk_state [0; 1; 6; 12; 15; 0] 4 [1536; 2048; 4096; 16384; 0; 0] 4 1
           0 RB_ROOT abc_tasks 100 5000
           (vm_stat_of 3000 3500 500 1000)
           (fun _ _ => [normal_zone])
           false.

Definition abc_state : state := register_all example_kernel abc_boot [1; 2; 3].


Definition with_tasks (st : state) (ts : task_ptr -> task_struct) : state :=
  mk_state (lowmem_adj st) (lowmem_adj_size st) (lowmem_minfree st)
           (lowmem_minfree_size st) (lmk_fast_run st)
           (lowmem_deathpending_timeout st) (tasksadj st) ts (current st)
           (jiffies st) (global_vm_stat st) (node_zonelist st)
           (scan_mutex_wait_interrupted st).

Definition with_interrupt (st : state) (b : bool) : state :=
  mk_state (lowmem_adj st) (lowmem_adj_size st) (lowmem_minfree st)
           (lowmem_minfree_size st) (lmk_fast_run st)
           (lowmem_deathpending_timeout st) (tasksadj st) (tasks st)
           (current st) (jiffies st) (global_vm_stat st) (node_zonelist st)
           b.

Definition with_jiffies (st : state) (j : Z) : state :=
  mk_state (lowmem_adj st) (lowmem_adj_size st) (lowmem_minfree st)
           (lowmem_minfree_size st) (lmk_fast_run st)
           (lowmem_deathpending_timeout st) (tasksadj st) (tasks st)
           (current st) j (global_vm_stat st) (node_zonelist st)
           (scan_mutex_wait_interrupted st).

(** The caller is exiting ([PF_EXITING]) and carries [TIF_MEMDIE]. *)
Definition dying_caller_tasks (p : task_ptr) : task_struct :=
  if p =? 100
  then mk_task 4 262144 (Some (mk_mm 0 50)) (mk_signal 0) 100 [] 100 true
  else abc_tasks p.

Definition dying_caller_state : state := with_tasks abc_state dying_caller_tasks.

Definition interrupted_state : state := with_interrupt abc_state true.

(** The caller is kswapd; the zonelist has a highmem zone above the
    normal zone, which is the preferred zone of [gfp_mask = 0] and is well
    above its high watermark. *)
Definition kswapd_tasks (p : task_ptr) : task_struct :=
  if p =? 100
  then mk_task 2359296 0 None (mk_signal 0) 100 [] 100 false
  else abc_tasks p.

Definition kswapd_state (fast_run : Z) : state :=
  mk_state [0; 1; 6; 12; 15; 0] 4 [1536; 2048; 4096; 16384; 0; 0] 4 fast_run
           0 RB_ROOT kswapd_tasks 100 5000
           (vm_stat_of 3100 4200 700 1000)
           (fun _ _ => [highmem_zone; normal_zone])
           false.

(** Three tasks of oom_adj 12 and 0; task 5 is the largest of the tier
    of 12. *)
Definition grace_tasks (p : task_ptr) : task_struct :=
  if p =? 5 then user_task 5 12 300
  else if p =? 6 then user_task 6 12 100
  else user_task p 0 50.

Definition grace_state : state :=
  register_all example_kernel (with_tasks abc_boot grace_tasks) [7; 6; 5].

(** Ten jiffies after a first call killed its victim. *)
Definition after_first_kill : state :=
  with_jiffies (final (lowmem_shrink example_kernel grace_state 1 0)) 5010.

(** Two hundred jiffies after it: the deadline of the kill has passed. *)
Definition after_deadline : state :=
  with_jiffies (final (lowmem_shrink example_kernel grace_state 1 0)) 5200.

(** A task that has dropped its mm: [TIF_MM_RELEASED] is set. *)
Definition release_mm (t : task_struct) : task_struct :=
  mk_task (flags t) (N.setbit (ti_flags t) 21) None (signal t)
          (group_leader t) (thread_group t) (tgid t) (sigkill_pending t).

(** The same, once the victim has dropped its mm. *)
Definition after_mm_release : state :=
  with_tasks after_first_kill
    (fun p => if p =? 5 then release_mm (tasks after_first_kill 5)
              else tasks after_first_kill p).

(** As [after_first_kill], with task 5 a kernel thread that carries
    [TIF_MEMDIE]. *)
Definition marked_kthread_state : state :=
  with_tasks after_first_kill
    (fun p => if p =? 5
              then mk_task 2097152 262144 None (mk_signal 12) 5 [] 5 false
              else tasks after_first_kill p).

(** Three tasks of oom_adj 6; tasks 2 and 4 have the same size. *)
Definition tie_tasks (p : task_ptr) : task_struct :=
  if p =? 1 then user_task 1 6 200
  else if p =? 2 then user_task 2 6 500
  else if p =? 4 then user_task 4 6 500
  else user_task p 0 50.

Definition tie_state : state := with_tasks abc_boot tie_tasks.

(** A normal zone whose reserve for higher class zones exceeds its free
    pages: [zone_watermark_ok] fails on it. *)
Definition reserved_normal_zone : zone :=
  mk_zone 0 (vm_stat_of 3000 3500 500 1000) (fun _ => 4000) 600 800 50000.

(** ** Unregistering a task

    [rb_erase] is the kernel's; like [rb_insert_color] it is a parameter. *)

Section Removal.

Variable rb_erase : task_ptr -> rb_root -> rb_root.

Definition delete_from_adj_tree (st : state) (task : task_ptr) : state :=
  set_tasksadj st (rb_erase task (tasksadj st)).

End Removal.

(** A tree with a given left-to-right order, and an [rb_erase] that
    rebuilds the tree without the erased node, to run examples. *)
Fixpoint tree_of_list (nodes : list task_ptr) : rb_node :=
  match nodes with
  | [] => rb_nil
  | e :: rest => rb_mk rb_nil e (tree_of_list rest)
  end.

Definition example_rb_erase (task : task_ptr) (t : rb_root) : rb_root :=
  tree_of_list (remove Z.eq_dec task (inorder t)).

(** A zone with sane counters: no negative page count, no more shmem
    pages than file pages. *)
Definition zone_counters_sane (z : zone) : Prop :=
  0 <= zone_page_state z NR_FREE_PAGES
  /\ zone_page_state z NR_SHMEM <= zone_page_state z NR_FILE_PAGES
  /\ forall i, 0 <= lowmem_reserve z i.

(** As [abc_state], with 20000 free pages: above every row of the
    table. *)
Definition roomy_state : state :=
  mk_state (lowmem_adj abc_state) (lowmem_adj_size abc_state)
           (lowmem_minfree abc_state) (lowmem_minfree_size abc_state)
           (lmk_fast_run abc_state) (lowmem_deathpending_timeout abc_state)
           (tasksadj abc_state) (tasks abc_state) (current abc_state)
           (jiffies abc_state) (vm_stat_of 20000 3500 500 1000)
           (node_zonelist abc_state) (scan_mutex_wait_interrupted abc_state).

(** [st] with other values of the two size parameters. *)
Definition with_sizes (st : state) (adj_size minfree_size : Z) : state :=
  mk_state (lowmem_adj st) adj_size (lowmem_minfree st) minfree_size
           (lmk_fast_run st) (lowmem_deathpending_timeout st)
           (tasksadj st) (tasks st) (current st) (jiffies st)
           (global_vm_stat st) (node_zonelist st)
           (scan_mutex_wait_interrupted st).

(** Five floors [0; 1; 6; 12; 15] over four levels
    [1536; 2048; 4096; 16384]. *)
Definition five_floors_state : state := with_sizes abc_boot 5 4.

(** Only the first two floors are set. *)
Definition two_floors_state : state := with_sizes abc_boot 2 4.

(** Only the first two levels are set. *)
Definition two_levels_state : state := with_sizes abc_boot 4 2.

(** The tasksizes of A, B and C. *)
Definition abc_size (t : task_ptr) : Z :=
  if t =? 1 then 200 else if t =? 2 then 500 else 10.

(** * Properties *)

(** ** C integers *)

Lemma to_int_range z : INT_MIN <= to_int z <= INT_MAX.
Proof.
  unfold to_int, INT_MIN, INT_MAX.
  pose proof (Z.mod_pos_bound (z + 2 ^ 31) (2 ^ 32) ltac:(lia)). lia.
Qed.

Lemma to_int_small z : INT_MIN <= z <= INT_MAX -> to_int z = z.
Proof.
  unfold to_int, INT_MIN, INT_MAX. intros H.
  rewrite Z.mod_small; lia.
Qed.

(** [x -= y] on an [int] that already went through a conversion: only
    the mathematical difference matters. *)
Lemma to_int_sub_l a b : to_int (to_int a - b) = to_int (a - b).
Proof.
  unfold to_int.
  replace ((a + 2 ^ 31) mod 2 ^ 32 - 2 ^ 31 - b + 2 ^ 31)
    with ((a + 2 ^ 31) mod 2 ^ 32 + (- b)) by ring.
  rewrite Zplus_mod_idemp_l. f_equal. f_equal. ring.
Qed.

(** An [unsigned long] operand contributes modulo [2^32] only. *)
Lemma to_int_sub_ulong a b : to_int (a - to_ulong b) = to_int (a - b).
Proof.
  unfold to_int, to_ulong.
  replace (a - b mod 2 ^ 32 + 2 ^ 31) with ((a + 2 ^ 31) - b mod 2 ^ 32) by ring.
  rewrite Zminus_mod_idemp_r. f_equal. f_equal. ring.
Qed.

Lemma to_int_idem a : to_int (to_int a) = to_int a.
Proof. apply to_int_small, to_int_range. Qed.

Lemma to_int_ulong a : to_int (to_ulong a) = to_int a.
Proof.
  unfold to_int, to_ulong. rewrite Zplus_mod_idemp_l. reflexivity.
Qed.

Section Properties.

Variable K : kernel.

(** ** Thread groups *)

Lemma test_task_flag_loop_true st ts flag :
  test_task_flag_loop st ts flag = true <->
  exists t, In t ts /\ test_tsk_thread_flag (tasks st t) flag = true.
Proof.
  induction ts as [| t ts IH]; simpl.
  - split; [discriminate | intros (t & [] & _)].
  - destruct (test_tsk_thread_flag (tasks st t) flag) eqn:E.
    + split; [intros _; exists t; auto | reflexivity].
    + rewrite IH. split.
      * intros (u & Hu & Ht). exists u; auto.
      * intros (u & [-> | Hu] & Ht); [congruence | exists u; auto].
Qed.

Lemma find_lock_task_mm_loop_has_mm st ts p :
  find_lock_task_mm_loop st ts = Some p ->
  In p ts /\ mm (tasks st p) <> None.
Proof.
  induction ts as [| t ts IH]; simpl; [discriminate |].
  destruct (mm (tasks st t)) eqn:E.
  - intros [= <-]. split; [auto | congruence].
  - intros H. destruct (IH H). auto.
Qed.

Lemma set_thread_flag_test t flag :
  test_tsk_thread_flag (set_thread_flag t flag) flag = true.
Proof. unfold test_tsk_thread_flag, set_thread_flag; simpl. apply N.setbit_eq. Qed.

Lemma set_tsk_thread_flag_marks st p flag :
  test_tsk_thread_flag (tasks (set_tsk_thread_flag st p flag) p) flag = true.
Proof.
  unfold set_tsk_thread_flag; simpl. rewrite Z.eqb_refl.
  apply set_thread_flag_test.
Qed.

(** ** The paths through [lowmem_shrink] *)

Lemma lowmem_shrink_dying st nr_to_scan gfp_mask :
  current_is_dying K st = true ->
  lowmem_shrink K st nr_to_scan gfp_mask =
  mk_outcome 0 [Ev_set_tsk_thread_flag (current st) (TIF_MEMDIE K)]
             (set_tsk_thread_flag st (current st) (TIF_MEMDIE K)).
Proof. intros H. unfold lowmem_shrink. rewrite H. reflexivity. Qed.

Lemma lowmem_shrink_interrupted st nr_to_scan gfp_mask :
  current_is_dying K st = false ->
  0 < nr_to_scan ->
  scan_mutex_wait_interrupted st = true ->
  lowmem_shrink K st nr_to_scan gfp_mask = mk_outcome 0 [] st.
Proof.
  intros Hd Hn Hi. unfold lowmem_shrink. rewrite Hd, Hi.
  apply Z.ltb_lt in Hn. rewrite Hn. reflexivity.
Qed.

Lemma lowmem_shrink_report st nr_to_scan gfp_mask :
  current_is_dying K st = false ->
  nr_to_scan <= 0 ->
  lowmem_shrink K st nr_to_scan gfp_mask = mk_outcome (lowmem_rem st) [] st.
Proof.
  intros Hd Hn. unfold lowmem_shrink. rewrite Hd.
  assert (H0 : (0 <? nr_to_scan) = false) by (apply Z.ltb_ge; lia).
  assert (H1 : (nr_to_scan <=? 0) = true) by (apply Z.leb_le; lia).
  rewrite H0, H1. simpl.
  destruct (lowmem_other K st gfp_mask). reflexivity.
Qed.

Lemma lowmem_shrink_no_floor st nr_to_scan gfp_mask :
  current_is_dying K st = false ->
  0 < nr_to_scan ->
  scan_mutex_wait_interrupted st = false ->
  lowmem_floor K st gfp_mask = OOM_SCORE_ADJ_MAX + 1 ->
  lowmem_shrink K st nr_to_scan gfp_mask =
  mk_outcome (lowmem_rem st) [Ev_mutex_lock; Ev_mutex_unlock] st.
Proof.
  intros Hd Hn Hi Hf. unfold lowmem_shrink, lowmem_floor in *.
  rewrite Hd, Hi. apply Z.ltb_lt in Hn. rewrite Hn. simpl.
  destruct (lowmem_other K st gfp_mask) as [fr fl]. simpl in Hf.
  rewrite Hf, Z.eqb_refl, orb_true_r. reflexivity.
Qed.

Lemma lowmem_shrink_scan st nr_to_scan gfp_mask :
  current_is_dying K st = false ->
  0 < nr_to_scan ->
  scan_mutex_wait_interrupted st = false ->
  lowmem_floor K st gfp_mask <> OOM_SCORE_ADJ_MAX + 1 ->
  lowmem_shrink K st nr_to_scan gfp_mask =
  after_scan K st
    (scan_loop K st (lowmem_floor K st gfp_mask)
       (mk_selection None 0 (lowmem_floor K st gfp_mask))
       (adj_tree_walk (inorder (tasksadj st)))).
Proof.
  intros Hd Hn Hi Hf. unfold lowmem_shrink, lowmem_floor in *.
  rewrite Hd, Hi.
  assert (H1 : (nr_to_scan <=? 0) = false) by (apply Z.leb_gt; lia).
  apply Z.ltb_lt in Hn. rewrite Hn, H1. simpl.
  destruct (lowmem_other K st gfp_mask) as [fr fl]. simpl in *.
  apply Z.eqb_neq in Hf. rewrite Hf.
  destruct (scan_loop _ _ _ _ _) as [s | tsk]; simpl.
  - destruct (selected s); reflexivity.
  - destruct (negb _); reflexivity.
Qed.

(** ** Entry and exit of [lowmem_shrink] *)

(** C9.  When the group leader of the caller is exiting and a thread of
    its group carries [TIF_MEMDIE], [lowmem_shrink] sets [TIF_MEMDIE] on
    the caller and returns 0; it does nothing else: [scan_mutex] is not
    taken, nothing is scanned, nobody is signalled. *)
Theorem lowmem_shrink_admission_guard st nr_to_scan gfp_mask :
  N.land (flags (tasks st (group_leader (tasks st (current st)))))
         (PF_EXITING K) <> 0%N ->
  (exists t,
      In t (each_thread st (group_leader (tasks st (current st))))
      /\ test_tsk_thread_flag (tasks st t) (TIF_MEMDIE K) = true) ->
  retval (lowmem_shrink K st nr_to_scan gfp_mask) = 0
  /\ events (lowmem_shrink K st nr_to_scan gfp_mask)
     = [Ev_set_tsk_thread_flag (current st) (TIF_MEMDIE K)]
  /\ final (lowmem_shrink K st nr_to_scan gfp_mask)
     = set_tsk_thread_flag st (current st) (TIF_MEMDIE K)
  /\ test_tsk_thread_flag
       (tasks (final (lowmem_shrink K st nr_to_scan gfp_mask)) (current st))
       (TIF_MEMDIE K) = true.
Proof.
  intros Hexit Hmark.
  assert (Hd : current_is_dying K st = true).
  { unfold current_is_dying, test_task_flag.
    apply andb_true_iff. split.
    - apply negb_true_iff, N.eqb_neq, Hexit.
    - apply test_task_flag_loop_true, Hmark. }
  rewrite (lowmem_shrink_dying _ _ _ Hd). simpl.
  repeat split. apply set_tsk_thread_flag_marks.
Qed.

(** C8.  A call with [nr_to_scan > 0] whose wait for [scan_mutex] is
    interrupted returns 0, signals nobody and does not hold the mutex;
    past the admission test it has no effect at all. *)
Theorem lowmem_shrink_lock_interrupted st nr_to_scan gfp_mask :
  0 < nr_to_scan ->
  scan_mutex_wait_interrupted st = true ->
  retval (lowmem_shrink K st nr_to_scan gfp_mask) = 0
  /\ no_kill (events (lowmem_shrink K st nr_to_scan gfp_mask))
  /\ ~ In Ev_mutex_lock (events (lowmem_shrink K st nr_to_scan gfp_mask))
  /\ (current_is_dying K st = false ->
      lowmem_shrink K st nr_to_scan gfp_mask = mk_outcome 0 [] st).
Proof.
  intros Hn Hi.
  destruct (current_is_dying K st) eqn:Hd.
  - rewrite (lowmem_shrink_dying _ _ _ Hd). simpl.
    repeat split; try discriminate.
    + intros sig p [H | []]. discriminate.
    + intros [H | []]. discriminate.
  - rewrite (lowmem_shrink_interrupted _ _ _ Hd Hn Hi). simpl.
    repeat split; auto. intros sig p [].
Qed.

Lemma after_scan_events st x :
  exists mid,
    events (after_scan K st x) = Ev_mutex_lock :: mid ++ [Ev_mutex_unlock]
    /\ ~ In Ev_mutex_lock mid /\ ~ In Ev_mutex_unlock mid.
Proof.
  destruct x as [s | tsk]; simpl.
  - destruct (selected s) as [sel |]; simpl.
    + exists [Ev_send_sig (SIGKILL K) sel;
              Ev_set_tsk_thread_flag sel (TIF_MEMDIE K);
              Ev_msleep_interruptible 20].
      split; [reflexivity |].
      split; simpl; intros H; decompose [or] H; discriminate || contradiction.
    + exists []. split; [reflexivity |]. split; simpl; tauto.
  - destruct (negb _); simpl.
    + exists [Ev_msleep_interruptible 20].
      split; [reflexivity |].
      split; simpl; intros H; decompose [or] H; discriminate || contradiction.
    + exists [Ev_set_tsk_thread_flag (current st) (TIF_MEMDIE K)].
      split; [reflexivity |].
      split; simpl; intros H; decompose [or] H; discriminate || contradiction.
Qed.

(** C10.  A call of [lowmem_shrink] that takes [scan_mutex] was made with
    [nr_to_scan > 0], takes it once and releases it once, as the last
    thing it does, whichever way it returns. *)
Theorem scan_mutex_released_once st nr_to_scan gfp_mask :
  In Ev_mutex_lock (events (lowmem_shrink K st nr_to_scan gfp_mask)) ->
  0 < nr_to_scan
  /\ exists mid,
       events (lowmem_shrink K st nr_to_scan gfp_mask)
       = Ev_mutex_lock :: mid ++ [Ev_mutex_unlock]
       /\ ~ In Ev_mutex_lock mid /\ ~ In Ev_mutex_unlock mid.
Proof.
  destruct (current_is_dying K st) eqn:Hd.
  { rewrite (lowmem_shrink_dying _ _ _ Hd). simpl.
    intros [H | []]. discriminate. }
  destruct (Z_lt_le_dec 0 nr_to_scan) as [Hn | Hn].
  2:{ rewrite (lowmem_shrink_report _ _ _ Hd Hn). simpl. tauto. }
  destruct (scan_mutex_wait_interrupted st) eqn:Hi.
  { rewrite (lowmem_shrink_interrupted _ _ _ Hd Hn Hi). simpl. tauto. }
  intros _. split; [exact Hn |].
  destruct (Z.eq_dec (lowmem_floor K st gfp_mask) (OOM_SCORE_ADJ_MAX + 1))
    as [Hf | Hf].
  - rewrite (lowmem_shrink_no_floor _ _ _ Hd Hn Hi Hf). simpl.
    exists []. split; [reflexivity |]. split; simpl; tauto.
  - rewrite (lowmem_shrink_scan _ _ _ Hd Hn Hi Hf).
    apply after_scan_events.
Qed.

(** C5 (amended).  With [nr_to_scan <= 0], and the caller not stopped by
    the admission test, [lowmem_shrink] has no effect (nobody is
    signalled, whatever the thresholds say) and returns the sum of the
    four LRU counters, converted to [int]: the sum itself when it fits. *)
Theorem lowmem_shrink_report_only st nr_to_scan gfp_mask :
  nr_to_scan <= 0 ->
  current_is_dying K st = false ->
  no_kill (events (lowmem_shrink K st nr_to_scan gfp_mask))
  /\ events (lowmem_shrink K st nr_to_scan gfp_mask) = []
  /\ final (lowmem_shrink K st nr_to_scan gfp_mask) = st
  /\ retval (lowmem_shrink K st nr_to_scan gfp_mask)
     = to_int (global_page_state st NR_ACTIVE_ANON
               + global_page_state st NR_ACTIVE_FILE
               + global_page_state st NR_INACTIVE_ANON
               + global_page_state st NR_INACTIVE_FILE)
  /\ (0 <= global_page_state st NR_ACTIVE_ANON
           + global_page_state st NR_ACTIVE_FILE
           + global_page_state st NR_INACTIVE_ANON
           + global_page_state st NR_INACTIVE_FILE <= INT_MAX ->
      retval (lowmem_shrink K st nr_to_scan gfp_mask)
      = global_page_state st NR_ACTIVE_ANON
        + global_page_state st NR_ACTIVE_FILE
        + global_page_state st NR_INACTIVE_ANON
        + global_page_state st NR_INACTIVE_FILE).
Proof.
  intros Hn Hd. rewrite (lowmem_shrink_report _ _ _ Hd Hn). simpl.
  unfold lowmem_rem. rewrite to_int_ulong.
  repeat split.
  - intros sig p [].
  - intros H. apply to_int_small. unfold INT_MIN, INT_MAX in *. lia.
Qed.

(** ** The threshold table *)

Lemma lowmem_array_size_min st :
  lowmem_array_size st
  = Z.min (Z.min ARRAY_SIZE_lowmem_adj (lowmem_adj_size st))
          (lowmem_minfree_size st).
Proof.
  unfold lowmem_array_size, ARRAY_SIZE_lowmem_adj.
  destruct (Z.ltb_spec (lowmem_adj_size st) 6);
    destruct (Z.ltb_spec (lowmem_minfree_size st) 6);
    destruct (Z.ltb_spec (lowmem_minfree_size st) (lowmem_adj_size st));
    lia.
Qed.

Lemma lowmem_min_adj_loop_first st other_free other_file pre i post :
  (forall j, In j pre ->
     ~ (other_free < nth j (lowmem_minfree st) 0
        /\ other_file < nth j (lowmem_minfree st) 0)) ->
  other_free < nth i (lowmem_minfree st) 0 ->
  other_file < nth i (lowmem_minfree st) 0 ->
  lowmem_min_adj_loop st other_free other_file (pre ++ i :: post)
  = nth i (lowmem_adj st) 0.
Proof.
  intros Hpre Hfree Hfile.
  induction pre as [| j pre IH]; simpl.
  - apply Z.ltb_lt in Hfree, Hfile. rewrite Hfree, Hfile. reflexivity.
  - destruct (Z.ltb_spec other_free (nth j (lowmem_minfree st) 0)) as [H1 | H1];
      destruct (Z.ltb_spec other_file (nth j (lowmem_minfree st) 0)) as [H2 | H2];
      simpl.
    + exfalso. apply (Hpre j); simpl; auto.
    + apply IH. intros k Hk. apply Hpre. simpl; auto.
    + apply IH. intros k Hk. apply Hpre. simpl; auto.
    + apply IH. intros k Hk. apply Hpre. simpl; auto.
Qed.

Lemma lowmem_min_adj_loop_none st other_free other_file rows :
  (forall j, In j rows ->
     ~ (other_free < nth j (lowmem_minfree st) 0
        /\ other_file < nth j (lowmem_minfree st) 0)) ->
  lowmem_min_adj_loop st other_free other_file rows = OOM_SCORE_ADJ_MAX + 1.
Proof.
  induction rows as [| j rows IH]; simpl; intros H; [reflexivity |].
  destruct (Z.ltb_spec other_free (nth j (lowmem_minfree st) 0)) as [H1 | H1];
    destruct (Z.ltb_spec other_file (nth j (lowmem_minfree st) 0)) as [H2 | H2];
    simpl; try (apply IH; intros k Hk; apply H; simpl; auto).
  exfalso. apply (H j); simpl; auto.
Qed.

Lemma seq_split_at i n :
  (i < n)%nat -> seq 0 n = seq 0 i ++ i :: seq (S i) (n - S i).
Proof.
  intros H. replace n with (i + S (n - S i))%nat at 1 by lia.
  rewrite seq_app. reflexivity.
Qed.

(** When no row of the table is crossed, [min_adj] keeps its initial
    value. *)
Lemma lowmem_min_adj_no_row st other_free other_file :
  (forall j, Z.of_nat j < lowmem_array_size st ->
     ~ (other_free < nth j (lowmem_minfree st) 0
        /\ other_file < nth j (lowmem_minfree st) 0)) ->
  lowmem_min_adj st other_free other_file = OOM_SCORE_ADJ_MAX + 1.
Proof.
  intros H. apply lowmem_min_adj_loop_none.
  intros j Hj. apply H. apply in_seq in Hj. lia.
Qed.

(** C2.  The lookup walks the rows [0 .. min(6, lowmem_adj_size,
    lowmem_minfree_size) - 1] upwards, and no row beyond them.  It yields
    [lowmem_adj[i]] for the first of these rows with
    [other_free < lowmem_minfree[i]] and [other_file < lowmem_minfree[i]],
    never the value of a later row; and when none of these rows is
    crossed it yields [OOM_SCORE_ADJ_MAX + 1], whatever the rows from
    [min(6, lowmem_adj_size, lowmem_minfree_size)] on hold. *)
Theorem lowmem_min_adj_first_row st other_free other_file :
  (forall i : nat,
     Z.of_nat i < Z.min (Z.min ARRAY_SIZE_lowmem_adj (lowmem_adj_size st))
                        (lowmem_minfree_size st) ->
     other_free < nth i (lowmem_minfree st) 0 ->
     other_file < nth i (lowmem_minfree st) 0 ->
     (forall j, (j < i)%nat ->
        ~ (other_free < nth j (lowmem_minfree st) 0
           /\ other_file < nth j (lowmem_minfree st) 0)) ->
     lowmem_min_adj st other_free other_file = nth i (lowmem_adj st) 0)
  /\ ((forall j : nat,
        Z.of_nat j < Z.min (Z.min ARRAY_SIZE_lowmem_adj (lowmem_adj_size st))
                           (lowmem_minfree_size st) ->
        ~ (other_free < nth j (lowmem_minfree st) 0
           /\ other_file < nth j (lowmem_minfree st) 0)) ->
      lowmem_min_adj st other_free other_file = OOM_SCORE_ADJ_MAX + 1).
Proof.
  split.
  - intros i Hi Hfree Hfile Hfirst.
    unfold lowmem_min_adj. rewrite lowmem_array_size_min.
    rewrite (seq_split_at i) by lia.
    apply lowmem_min_adj_loop_first; auto.
    intros j Hj. apply Hfirst. apply in_seq in Hj. lia.
  - intros Hnone. apply lowmem_min_adj_no_row.
    intros j Hj. apply Hnone. rewrite <- lowmem_array_size_min. exact Hj.
Qed.

(** ** The scan *)

Lemma scan_body_candidate st min_adj s tsk p adj size :
  candidate K st tsk p adj size ->
  min_adj <= adj ->
  scan_body K st min_adj s tsk = select_candidate s p size adj.
Proof.
  intros (Hk & Hr & Ht & Hp & Ha & Hdie & (m & Hm & Hs) & Hpos) Hfloor.
  unfold scan_body.
  rewrite Hk, Hr, Ht, Hp, Ha, Hdie, Hm, Hs. simpl.
  assert (H1 : (adj <? min_adj) = false) by (apply Z.ltb_ge; lia).
  assert (H2 : (size <=? 0) = false) by (apply Z.leb_gt; lia).
  rewrite H1, H2. reflexivity.
Qed.

Lemma scan_loop_app st min_adj s0 pre rest s :
  scan_through K st min_adj s0 pre = Some s ->
  scan_loop K st min_adj s0 (pre ++ rest) = scan_loop K st min_adj s rest.
Proof.
  revert s0. induction pre as [| t pre IH]; simpl; intros s0 H.
  - congruence.
  - destruct (scan_body K st min_adj s0 t); try discriminate.
    apply IH, H.
Qed.

(** Candidates of one tier, all smaller than [size]: the selection stays
    empty or below [size]. *)
Lemma scan_through_smaller st min_adj adj size
    (cs : list (task_ptr * task_ptr * Z)) s0 :
  min_adj <= adj ->
  Forall (fun c => candidate K st (fst (fst c)) (snd (fst c)) adj (snd c)) cs ->
  Forall (fun c => snd c < size) cs ->
  selected s0 = None
  \/ (selected_oom_adj s0 = adj /\ selected_tasksize s0 < size) ->
  exists s,
    scan_through K st min_adj s0 (map (fun c => fst (fst c)) cs) = Some s
    /\ (selected s = None
        \/ (selected_oom_adj s = adj /\ selected_tasksize s < size)).
Proof.
  intros Hfloor Hc Hsz. revert s0.
  induction Hc as [| [[t p] sz] cs Hcand Hc IH]; intros s0 Hs0; simpl.
  - exists s0. auto.
  - inversion Hsz as [| ? ? Hlt Hsz']; subst. simpl in *.
    rewrite (scan_body_candidate _ _ _ _ _ _ _ Hcand Hfloor).
    unfold select_candidate.
    destruct (selected s0) as [q |] eqn:Hq.
    + destruct Hs0 as [Hs0 | [Ha Hs0]]; [discriminate |].
      rewrite Ha, Z.ltb_irrefl, Z.eqb_refl. simpl.
      destruct (Z.leb_spec sz (selected_tasksize s0)).
      * apply IH; [assumption | right; auto].
      * apply IH; [assumption | right; simpl; auto].
    + apply IH; [assumption | right; simpl; auto].
Qed.

(** Candidates of the tier of the selection, none larger: the selection
    is kept to the end of the loop. *)
Lemma scan_loop_not_larger st min_adj adj
    (cs : list (task_ptr * task_ptr * Z)) s :
  min_adj <= adj ->
  Forall (fun c => candidate K st (fst (fst c)) (snd (fst c)) adj (snd c)) cs ->
  Forall (fun c => snd c <= selected_tasksize s) cs ->
  selected s <> None ->
  selected_oom_adj s = adj ->
  scan_loop K st min_adj s (map (fun c => fst (fst c)) cs) = Scan_done s.
Proof.
  intros Hfloor Hc Hsz Hsel Hadj.
  induction Hc as [| [[t p] sz] cs Hcand Hc IH]; simpl; [reflexivity |].
  inversion Hsz as [| ? ? Hle Hsz']; subst. simpl in *.
  rewrite (scan_body_candidate _ _ _ _ _ _ _ Hcand Hfloor).
  unfold select_candidate.
  destruct (selected s) as [q |]; [| congruence].
  rewrite Z.ltb_irrefl, Z.eqb_refl. simpl.
  apply Z.leb_le in Hle. rewrite Hle. apply IH, Hsz'.
Qed.

(** C3.  Among candidates of one priority at or above the floor:
    - a candidate met while another of that priority is selected replaces
      it when its [tasksize] is larger, and leaves it selected when its
      [tasksize] is equal or smaller;
    - hence a scan over such candidates ends with the first of those of
      largest [tasksize] selected. *)
Theorem scan_prefers_larger_tasksize st min_adj adj :
  min_adj <= adj ->
  (forall s q tsk p size,
     selected s = Some q ->
     selected_oom_adj s = adj ->
     candidate K st tsk p adj size ->
     scan_body K st min_adj s tsk
     = Continue (if size <=? selected_tasksize s then s
                 else mk_selection (Some p) size adj))
  /\ (forall (pre post : list (task_ptr * task_ptr * Z)) tsk p size stale,
        Forall (fun c => candidate K st (fst (fst c)) (snd (fst c)) adj (snd c))
               (pre ++ (tsk, p, size) :: post) ->
        Forall (fun c => snd c < size) pre ->
        Forall (fun c => snd c <= size) post ->
        scan_loop K st min_adj (mk_selection None 0 stale)
                  (map (fun c => fst (fst c)) (pre ++ (tsk, p, size) :: post))
        = Scan_done (mk_selection (Some p) size adj)).
Proof.
  intros Hfloor. split.
  - intros s q tsk p size Hq Ha Hc.
    rewrite (scan_body_candidate _ _ _ _ _ _ _ Hc Hfloor).
    unfold select_candidate. rewrite Hq, Ha, Z.ltb_irrefl, Z.eqb_refl.
    simpl. destruct (size <=? selected_tasksize s); reflexivity.
  - intros pre post tsk p size stale Hc Hpre Hpost.
    apply Forall_app in Hc. destruct Hc as [Hc1 Hc2].
    inversion Hc2 as [| ? ? Hc Hc3]; subst. simpl in Hc.
    destruct (scan_through_smaller st min_adj adj size pre
                (mk_selection None 0 stale) Hfloor Hc1 Hpre)
      as (s & Hs & Hinv); [left; reflexivity |].
    rewrite map_app. rewrite (scan_loop_app _ _ _ _ _ _ Hs). simpl.
    rewrite (scan_body_candidate _ _ _ _ _ _ _ Hc Hfloor).
    assert (Hsel : select_candidate s p size adj
                   = Continue (mk_selection (Some p) size adj)).
    { unfold select_candidate. destruct (selected s) as [q |] eqn:Hq.
      - destruct Hinv as [Hinv | [Ha Hlt]]; [discriminate |].
        rewrite Ha, Z.ltb_irrefl, Z.eqb_refl. simpl.
        assert (H : (size <=? selected_tasksize s) = false)
          by (apply Z.leb_gt; lia).
        rewrite H. reflexivity.
      - reflexivity. }
    rewrite Hsel.
    apply (scan_loop_not_larger st min_adj adj post); simpl; auto.
    discriminate.
Qed.

(** A kill sets the deadline to the time of the kill plus [HZ]. *)
Lemma lowmem_shrink_kill_deadline st nr_to_scan gfp_mask sig p :
  In (Ev_send_sig sig p) (events (lowmem_shrink K st nr_to_scan gfp_mask)) ->
  lowmem_deathpending_timeout (final (lowmem_shrink K st nr_to_scan gfp_mask))
  = to_ulong (jiffies st + HZ K).
Proof.
  destruct (current_is_dying K st) eqn:Hd.
  { rewrite (lowmem_shrink_dying _ _ _ Hd). simpl.
    intros [H | []]. discriminate. }
  destruct (Z_lt_le_dec 0 nr_to_scan) as [Hn | Hn].
  2:{ rewrite (lowmem_shrink_report _ _ _ Hd Hn). simpl. tauto. }
  destruct (scan_mutex_wait_interrupted st) eqn:Hi.
  { rewrite (lowmem_shrink_interrupted _ _ _ Hd Hn Hi). simpl. tauto. }
  destruct (Z.eq_dec (lowmem_floor K st gfp_mask) (OOM_SCORE_ADJ_MAX + 1))
    as [Hf | Hf].
  { rewrite (lowmem_shrink_no_floor _ _ _ Hd Hn Hi Hf). simpl.
    intros H; decompose [or] H; discriminate || contradiction. }
  rewrite (lowmem_shrink_scan _ _ _ Hd Hn Hi Hf).
  destruct (scan_loop _ _ _ _ _) as [s | tsk]; simpl.
  - destruct (selected s); simpl; [reflexivity |].
    intros H; decompose [or] H; discriminate || contradiction.
  - destruct (negb _); simpl;
      intros H; decompose [or] H; discriminate || contradiction.
Qed.

(** C4 (amended).  A kill was issued at time [jiffies st0].  A later call
    made while [time_before_eq jiffies (jiffies st0 + HZ)] holds, whose
    loop reaches a task that is not a kernel thread, has no thread with
    [TIF_MM_RELEASED] and has a thread with [TIF_MEMDIE], signals nobody
    and returns 0; it sets [TIF_MEMDIE] on the caller when the caller is
    in that task's thread group, and sleeps 20 ms otherwise. *)
Theorem lowmem_shrink_throttled st0 nr0 gfp0 sig0 victim
    st nr_to_scan gfp_mask pre tsk post s :
  In (Ev_send_sig sig0 victim) (events (lowmem_shrink K st0 nr0 gfp0)) ->
  lowmem_deathpending_timeout st
  = lowmem_deathpending_timeout (final (lowmem_shrink K st0 nr0 gfp0)) ->
  time_before_eq K (jiffies st) (to_ulong (jiffies st0 + HZ K)) = true ->
  current_is_dying K st = false ->
  0 < nr_to_scan ->
  scan_mutex_wait_interrupted st = false ->
  lowmem_floor K st gfp_mask <> OOM_SCORE_ADJ_MAX + 1 ->
  adj_tree_walk (inorder (tasksadj st)) = pre ++ tsk :: post ->
  scan_through K st (lowmem_floor K st gfp_mask)
               (mk_selection None 0 (lowmem_floor K st gfp_mask)) pre
  = Some s ->
  N.land (flags (tasks st tsk)) (PF_KTHREAD K) = 0%N ->
  test_task_flag st tsk (TIF_MM_RELEASED K) = false ->
  test_task_flag st tsk (TIF_MEMDIE K) = true ->
  retval (lowmem_shrink K st nr_to_scan gfp_mask) = 0
  /\ no_kill (events (lowmem_shrink K st nr_to_scan gfp_mask))
  /\ (same_thread_group K (tasks st (current st)) (tasks st tsk) = true ->
      events (lowmem_shrink K st nr_to_scan gfp_mask)
      = [Ev_mutex_lock; Ev_set_tsk_thread_flag (current st) (TIF_MEMDIE K);
         Ev_mutex_unlock]
      /\ final (lowmem_shrink K st nr_to_scan gfp_mask)
         = set_tsk_thread_flag st (current st) (TIF_MEMDIE K))
  /\ (same_thread_group K (tasks st (current st)) (tasks st tsk) = false ->
      events (lowmem_shrink K st nr_to_scan gfp_mask)
      = [Ev_mutex_lock; Ev_msleep_interruptible 20; Ev_mutex_unlock]
      /\ final (lowmem_shrink K st nr_to_scan gfp_mask) = st).
Proof.
  intros Hkill Hsame Hwin Hd Hn Hi Hf Hwalk Hpre Hk Hr Hm.
  rewrite (lowmem_shrink_kill_deadline _ _ _ _ _ Hkill) in Hsame.
  rewrite (lowmem_shrink_scan _ _ _ Hd Hn Hi Hf).
  rewrite Hwalk, (scan_loop_app _ _ _ _ _ _ Hpre). simpl.
  unfold scan_body. rewrite Hk, Hr, Hsame, Hwin, Hm. simpl.
  destruct (same_thread_group K _ _); simpl.
  - repeat split; try discriminate.
    intros sg p H; simpl in H; decompose [or] H; discriminate || contradiction.
  - repeat split; try discriminate.
    intros sg p H; simpl in H; decompose [or] H; discriminate || contradiction.
Qed.

(** ** The priority index *)

Section Index.

(** Rebalancing rotates and recolours: it keeps the left-to-right order
    of the nodes. *)
Hypothesis rb_insert_color_inorder :
  forall t, inorder (rb_insert_color K t) = inorder t.

Lemma adj_insert_behind st key task pre rest :
  Forall (fun e => key < adj_of st e) pre ->
  adj_insert st key task (pre ++ rest) = pre ++ adj_insert st key task rest.
Proof.
  induction 1 as [| e pre He Hpre IH]; simpl; [reflexivity |].
  apply Z.ltb_lt in He. rewrite He, IH. reflexivity.
Qed.

Lemma adj_insert_in_front st key task pre e rest :
  key >= adj_of st e ->
  adj_insert st key task (pre ++ e :: rest)
  = adj_insert st key task pre ++ e :: rest.
Proof.
  intros He. induction pre as [| x pre IH]; simpl.
  - assert (H : (key <? adj_of st e) = false) by (apply Z.ltb_ge; lia).
    rewrite H. reflexivity.
  - destruct (key <? adj_of st x); simpl; [rewrite IH |]; reflexivity.
Qed.

Lemma adj_descending_app_inv st l1 l2 :
  adj_descending st (l1 ++ l2) ->
  adj_descending st l1 /\ adj_descending st l2
  /\ Forall (fun a => Forall (fun b => adj_of st b <= adj_of st a) l2) l1.
Proof.
  unfold adj_descending. induction l1 as [| a l1 IH]; simpl; intros H.
  - repeat split; [constructor | assumption | constructor].
  - inversion H as [| ? ? Hs Hall]; subst.
    destruct (IH Hs) as (H1 & H2 & H3).
    apply Forall_app in Hall. destruct Hall as [Ha1 Ha2].
    repeat split; [constructor | | constructor]; assumption.
Qed.

Lemma adj_tree_link_inorder st key task t :
  adj_descending st (inorder t) ->
  inorder (adj_tree_link st key task t) = adj_insert st key task (inorder t).
Proof.
  induction t as [| l IHl e r IHr]; simpl; intros Hs; [reflexivity |].
  destruct (adj_descending_app_inv _ _ _ Hs) as (Hl & Her & Hle).
  change (e :: inorder r) with ([e] ++ inorder r) in Her.
  destruct (adj_descending_app_inv _ _ _ Her) as (_ & Hr & _).
  fold (adj_of st e).
  destruct (Z.ltb_spec key (adj_of st e)) as [Hlt | Hge]; simpl.
  - rewrite (IHr Hr).
    rewrite adj_insert_behind.
    + simpl. apply Z.ltb_lt in Hlt. rewrite Hlt. reflexivity.
    + eapply Forall_impl; [| exact Hle]. simpl. intros a Ha.
      inversion Ha; subst. lia.
  - rewrite (IHl Hl). rewrite adj_insert_in_front by lia. reflexivity.
Qed.

Lemma adj_insert_descending st task nodes :
  adj_descending st nodes ->
  adj_descending st (adj_insert st (adj_of st task) task nodes).
Proof.
  unfold adj_descending.
  induction 1 as [| e rest Hs IH Hall]; simpl.
  - constructor; constructor.
  - destruct (Z.ltb_spec (adj_of st task) (adj_of st e)) as [Hlt | Hge].
    + constructor; [assumption |].
      clear IH Hs. induction Hall as [| x rest Hx Hall IH]; simpl.
      * constructor; [lia | constructor].
      * destruct (adj_of st task <? adj_of st x);
          constructor; try assumption; try lia.
        constructor; assumption.
    + constructor; [constructor; assumption |].
      constructor; [lia |].
      eapply Forall_impl; [| exact Hall]. simpl. intros; lia.
Qed.

Lemma add_2_adj_tree_inorder st task :
  adj_descending st (inorder (tasksadj st)) ->
  inorder (tasksadj (add_2_adj_tree K st task))
  = adj_insert st (adj_of st task) task (inorder (tasksadj st)).
Proof.
  intros Hs. unfold add_2_adj_tree; simpl.
  rewrite rb_insert_color_inorder. apply adj_tree_link_inorder, Hs.
Qed.

Lemma register_all_tasks st l : tasks (register_all K st l) = tasks st.
Proof.
  unfold register_all. revert st.
  induction l as [| p l IH]; intros st; simpl; [reflexivity |].
  rewrite IH. reflexivity.
Qed.

Lemma adj_of_ext st st' :
  tasks st' = tasks st -> forall p, adj_of st' p = adj_of st p.
Proof. intros H p. unfold adj_of. rewrite H. reflexivity. Qed.

Lemma adj_insert_ext st st' key task nodes :
  tasks st' = tasks st ->
  adj_insert st' key task nodes = adj_insert st key task nodes.
Proof.
  intros H. induction nodes as [| e rest IH]; simpl; [reflexivity |].
  rewrite (adj_of_ext _ _ H), IH. reflexivity.
Qed.

Lemma insert_all_ext st st' l nodes :
  tasks st' = tasks st -> insert_all st' l nodes = insert_all st l nodes.
Proof.
  intros H. revert nodes. unfold insert_all.
  induction l as [| p l IH]; intros nodes; simpl; [reflexivity |].
  rewrite IH, (adj_of_ext _ _ H), (adj_insert_ext _ _ _ _ _ H). reflexivity.
Qed.

Lemma adj_descending_ext st st' nodes :
  tasks st' = tasks st -> adj_descending st nodes -> adj_descending st' nodes.
Proof.
  intros H. unfold adj_descending.
  induction 1 as [| e rest Hs IH Hall]; constructor; [assumption |].
  eapply Forall_impl; [| exact Hall]. simpl. intros a Ha.
  rewrite !(adj_of_ext _ _ H). exact Ha.
Qed.

(** The index after any sequence of registrations: each task sits behind
    the tasks of larger [oom_adj] and in front of the others, and the
    left-to-right order never increases in [oom_adj]. *)
Lemma register_all_inorder st l :
  adj_descending st (inorder (tasksadj st)) ->
  inorder (tasksadj (register_all K st l))
  = insert_all st l (inorder (tasksadj st))
  /\ adj_descending st (inorder (tasksadj (register_all K st l))).
Proof.
  revert st. induction l as [| p l IH]; intros st Hs; simpl.
  - split; [reflexivity | assumption].
  - assert (Ht : tasks (add_2_adj_tree K st p) = tasks st) by reflexivity.
    assert (Hs1 : adj_descending (add_2_adj_tree K st p)
                    (inorder (tasksadj (add_2_adj_tree K st p)))).
    { apply (adj_descending_ext st); [exact Ht |].
      rewrite add_2_adj_tree_inorder by assumption.
      apply adj_insert_descending, Hs. }
    destruct (IH _ Hs1) as [H1 H2]. unfold register_all in *. split.
    + rewrite H1, (insert_all_ext _ _ _ _ Ht).
      rewrite add_2_adj_tree_inorder by assumption. reflexivity.
    + apply (adj_descending_ext (add_2_adj_tree K st p)); [auto | exact H2].
Qed.

Lemma Permutation_three (A : Type) (x y z a b c : A) :
  Permutation [x; y; z] [a; b; c] ->
  [x; y; z] = [a; b; c] \/ [x; y; z] = [a; c; b]
  \/ [x; y; z] = [b; a; c] \/ [x; y; z] = [b; c; a]
  \/ [x; y; z] = [c; a; b] \/ [x; y; z] = [c; b; a].
Proof.
  intros H.
  assert (Hx : In x [a; b; c]) by (eapply Permutation_in; [exact H | simpl; auto]).
  simpl in Hx. destruct Hx as [<- | [<- | [<- | []]]].
  - apply Permutation_cons_inv in H.
    apply Permutation_length_2 in H. destruct H as [[-> ->] | [-> ->]]; auto.
  - apply (Permutation_cons_app_inv [a] [c]) in H. simpl in H.
    apply Permutation_length_2 in H. destruct H as [[-> ->] | [-> ->]]; auto 6.
  - apply (Permutation_cons_app_inv [a; b] []) in H. simpl in H.
    apply Permutation_length_2 in H. destruct H as [[-> ->] | [-> ->]]; auto 7.
Qed.

(** C1 (amended).  Candidates [a] (oom_adj 6, tasksize 200), [b] (6, 500)
    and [c] (12, 10) are registered, in any order, in an empty index, and
    the floor is 6.  Then the index runs from [c] down to the two tasks of
    oom_adj 6, never increasing in oom_adj, and a scan selects and kills
    [c]: it stops on the first task of oom_adj 6, and neither [a] nor [b]
    is signalled. *)
Theorem scan_three_candidates st0 order a b c nr_to_scan gfp_mask :
  tasksadj st0 = RB_ROOT ->
  Permutation order [a; b; c] ->
  candidate K (register_all K st0 order) a a 6 200 ->
  candidate K (register_all K st0 order) b b 6 500 ->
  candidate K (register_all K st0 order) c c 12 10 ->
  current_is_dying K (register_all K st0 order) = false ->
  0 < nr_to_scan ->
  scan_mutex_wait_interrupted (register_all K st0 order) = false ->
  lowmem_floor K (register_all K st0 order) gfp_mask = 6 ->
  adj_descending (register_all K st0 order)
                 (inorder (tasksadj (register_all K st0 order)))
  /\ (inorder (tasksadj (register_all K st0 order)) = [c; a; b]
      \/ inorder (tasksadj (register_all K st0 order)) = [c; b; a])
  /\ events (lowmem_shrink K (register_all K st0 order) nr_to_scan gfp_mask)
     = [Ev_mutex_lock; Ev_send_sig (SIGKILL K) c;
        Ev_set_tsk_thread_flag c (TIF_MEMDIE K);
        Ev_msleep_interruptible 20; Ev_mutex_unlock]
  /\ retval (lowmem_shrink K (register_all K st0 order) nr_to_scan gfp_mask)
     = to_int (lowmem_rem (register_all K st0 order) - 10).
Proof.
  intros Hempty Hperm Ha Hb Hc Hd Hn Hi Hf.
  set (st := register_all K st0 order) in *.
  assert (Ht : tasks st = tasks st0) by apply register_all_tasks.
  assert (Hs0 : adj_descending st0 (inorder (tasksadj st0))).
  { rewrite Hempty. constructor. }
  destruct (register_all_inorder st0 order Hs0) as [Hin Hdesc].
  fold st in Hin, Hdesc.
  assert (Haa : adj_of st0 a = 6).
  { rewrite <- (adj_of_ext _ _ Ht). unfold adj_of. apply Ha. }
  assert (Hab : adj_of st0 b = 6).
  { rewrite <- (adj_of_ext _ _ Ht). unfold adj_of. apply Hb. }
  assert (Hac : adj_of st0 c = 12).
  { rewrite <- (adj_of_ext _ _ Ht). unfold adj_of. apply Hc. }
  assert (Horder : inorder (tasksadj st) = [c; a; b]
                   \/ inorder (tasksadj st) = [c; b; a]).
  { rewrite Hin, Hempty.
    assert (Hlen : length order = 3%nat)
      by (rewrite (Permutation_length Hperm); reflexivity).
    destruct order as [| x [| y [| z [| ? ?]]]]; try discriminate.
    destruct (Permutation_three _ _ _ _ _ _ _ Hperm)
      as [E | [E | [E | [E | [E | E]]]]];
      injection E as -> -> ->; unfold insert_all; simpl;
      rewrite ?Haa, ?Hab, ?Hac; simpl; rewrite ?Haa, ?Hab, ?Hac; simpl; auto. }
  split; [apply (adj_descending_ext st0); assumption |].
  split; [exact Horder |].
  assert (Hne : lowmem_floor K st gfp_mask <> OOM_SCORE_ADJ_MAX + 1).
  { rewrite Hf. unfold OOM_SCORE_ADJ_MAX. lia. }
  rewrite (lowmem_shrink_scan _ _ _ Hd Hn Hi Hne). rewrite Hf.
  assert (Hscan : scan_loop K st 6 (mk_selection None 0 6)
                    (adj_tree_walk (inorder (tasksadj st)))
                  = Scan_done (mk_selection (Some c) 10 12)).
  { destruct Horder as [-> | ->]; simpl.
    - rewrite (scan_body_candidate _ _ _ _ _ _ _ Hc) by lia. simpl.
      rewrite (scan_body_candidate _ _ _ _ _ _ _ Ha) by lia. reflexivity.
    - rewrite (scan_body_candidate _ _ _ _ _ _ _ Hc) by lia. simpl.
      rewrite (scan_body_candidate _ _ _ _ _ _ _ Hb) by lia. reflexivity. }
  rewrite Hscan. simpl. split; reflexivity.
Qed.

(** ** The cursors *)

Lemma rb_next_in_app pre t rest :
  ~ In t pre -> rb_next_in (pre ++ t :: rest) t = hd_error rest.
Proof.
  induction pre as [| e pre IH]; simpl; intros H.
  - rewrite Z.eqb_refl. reflexivity.
  - destruct (Z.eqb_spec e t) as [-> | Hne]; [tauto |].
    apply IH. tauto.
Qed.

Lemma last_nonempty_in (l : list task_ptr) d : l <> [] -> In (last l d) l.
Proof.
  induction l as [| e l IH]; [congruence |]. intros _.
  destruct l as [| e' l']; [left; reflexivity |].
  right. apply IH. discriminate.
Qed.

Lemma last_nonempty_default (l : list task_ptr) d d' :
  l <> [] -> last l d = last l d'.
Proof.
  induction l as [| e l IH]; [congruence |]. intros _.
  destruct l as [| e' l']; [reflexivity |].
  apply IH. discriminate.
Qed.

Lemma last_app_cons (pre : list task_ptr) t rest d :
  last (pre ++ t :: rest) d = last rest t.
Proof.
  induction pre as [| x pre IH].
  - destruct rest as [| r rs]; [reflexivity |].
    apply (last_nonempty_default (r :: rs)). discriminate.
  - rewrite <- IH. cbn [app last].
    destruct (pre ++ t :: rest) eqn:E; [destruct pre; discriminate |].
    reflexivity.
Qed.

(** The list view of the loop header agrees with the cursor functions:
    a task is linked in the tree through its one [adj_node], so no task
    occurs twice. *)
Lemma cursor_walk_adj_tree_walk st :
  NoDup (inorder (tasksadj st)) ->
  cursor_walk (length (inorder (tasksadj st))) st (pick_first_task st)
  = adj_tree_walk (inorder (tasksadj st)).
Proof.
  intros Hnd. unfold pick_first_task.
  assert (G : forall l pre,
             inorder (tasksadj st) = pre ++ l ->
             cursor_walk (length l) st (hd_error l) = adj_tree_walk l).
  { induction l as [| t rest IH]; intros pre Hl; [reflexivity |].
    cbn [length cursor_walk hd_error].
    unfold pick_last_task, pick_next_from_adj_tree.
    assert (Hlast : match inorder (tasksadj st) with
                    | [] => None
                    | e :: l0 => Some (last l0 e)
                    end = Some (last rest t)).
    { rewrite Hl. destruct pre as [| x pre]; cbn [app].
      - reflexivity.
      - rewrite last_app_cons. reflexivity. }
    rewrite Hlast. rewrite Hl in Hnd |- *.
    apply NoDup_remove_2 in Hnd.
    rewrite rb_next_in_app by (intros H; apply Hnd, in_or_app; auto).
    destruct rest as [| t' rest'].
    - simpl. rewrite Z.eqb_refl. reflexivity.
    - assert (Hne : (t =? last (t' :: rest') t) = false).
      { apply Z.eqb_neq. intros Heq.
        apply Hnd, in_or_app. right. rewrite Heq.
        apply last_nonempty_in. discriminate. }
      cbn [same_task]. rewrite Hne.
      cbn [adj_tree_walk]. f_equal.
      apply (IH (pre ++ [t])). rewrite <- app_assoc. exact Hl. }
  apply (G _ []). reflexivity.
Qed.

End Index.

(** ** The free-memory estimate *)

Lemma tune_lmk_zone_step_shares classzone_idx fr (fl : option Z) z :
  tune_lmk_zone_step K classzone_idx
    (to_int fr, option_map to_int fl) z
  = (to_int (fr - zone_free_share K classzone_idx z),
     option_map (fun f => to_int (f - zone_file_share K classzone_idx z)) fl).
Proof.
  unfold tune_lmk_zone_step, zone_free_share, zone_file_share,
    zonelist_zone_idx.
  destruct (zone_idx z =? ZONE_MOVABLE K).
  { rewrite Z.sub_0_r. destruct fl; simpl; [rewrite Z.sub_0_r |]; reflexivity. }
  destruct (zone_idx z >? classzone_idx).
  { rewrite to_int_sub_ulong, to_int_sub_l.
    destruct fl; simpl; [rewrite to_int_sub_ulong, to_int_sub_l |];
      reflexivity. }
  destruct (zone_idx z <? classzone_idx).
  { destruct (zone_watermark_ok K z 0 0 classzone_idx 0);
      rewrite to_int_sub_ulong, to_int_sub_l;
      destruct fl; simpl; rewrite ?Z.sub_0_r; reflexivity. }
  rewrite Z.sub_0_r. destruct fl; simpl; [rewrite Z.sub_0_r |]; reflexivity.
Qed.

Lemma tune_lmk_zone_fold_shares classzone_idx zones fr (fl : option Z) :
  fold_left (tune_lmk_zone_step K classzone_idx) zones
    (to_int fr, option_map to_int fl)
  = (to_int (fr - sum_Z (map (zone_free_share K classzone_idx) zones)),
     option_map
       (fun f => to_int (f - sum_Z (map (zone_file_share K classzone_idx)
                                        zones))) fl).
Proof.
  revert fr fl. induction zones as [| z zones IH]; intros fr fl.
  - simpl. rewrite Z.sub_0_r.
    destruct fl; simpl; [rewrite Z.sub_0_r |]; reflexivity.
  - cbn [fold_left map]. unfold sum_Z. cbn [fold_right]. fold sum_Z.
    fold (sum_Z (map (zone_free_share K classzone_idx) zones)).
    fold (sum_Z (map (zone_file_share K classzone_idx) zones)).
    rewrite tune_lmk_zone_step_shares.
    replace (option_map
               (fun f => to_int (f - zone_file_share K classzone_idx z)) fl)
      with (option_map to_int
              (option_map (fun f => f - zone_file_share K classzone_idx z) fl))
      by (destruct fl; reflexivity).
    rewrite IH. f_equal.
    + f_equal. ring.
    + destruct fl; simpl; [| reflexivity]. f_equal. f_equal. ring.
Qed.

Lemma zone_param_closed_form zonelist classzone_idx other_free other_file :
  INT_MIN <= other_free <= INT_MAX ->
  (forall f, other_file = Some f -> INT_MIN <= f <= INT_MAX) ->
  tune_lmk_zone_param K zonelist classzone_idx other_free other_file
  = (to_int (other_free
             - sum_Z (map (zone_free_share K classzone_idx)
                          (for_each_zone_zonelist K zonelist (MAX_NR_ZONES K)))),
     option_map
       (fun f =>
          to_int (f - sum_Z (map (zone_file_share K classzone_idx)
                                 (for_each_zone_zonelist K zonelist
                                    (MAX_NR_ZONES K)))))
       other_file).
Proof.
  intros Hfree Hfile.
  unfold tune_lmk_zone_param.
  rewrite <- (to_int_small other_free Hfree) at 1.
  replace other_file with (option_map to_int other_file) at 1.
  - apply tune_lmk_zone_fold_shares.
  - destruct other_file as [f |]; simpl; [| reflexivity].
    rewrite to_int_small; auto.
Qed.

(** C6 (amended).  [tune_lmk_zone_param] takes off [other_free], for each
    zone of the zonelist other than [ZONE_MOVABLE]: the free pages of a
    zone above the class zone; for a zone below it, its
    [lowmem_reserve[classzone_idx]] when [zone_watermark_ok] holds and its
    free pages otherwise.  Where the caller passes [other_file], it takes
    off it the file pages minus the shmem pages of each such zone above
    the class zone.  [ZONE_MOVABLE] zones and the class zone contribute
    nothing.  The results are [int]s with no clamping: when the exact
    difference fits in an [int] it is the result, negative or not. *)
Theorem tune_lmk_zone_param_shares zonelist classzone_idx other_free other_file :
  INT_MIN <= other_free <= INT_MAX ->
  (forall f, other_file = Some f -> INT_MIN <= f <= INT_MAX) ->
  tune_lmk_zone_param K zonelist classzone_idx other_free other_file
  = (to_int (other_free
             - sum_Z (map (zone_free_share K classzone_idx)
                          (for_each_zone_zonelist K zonelist (MAX_NR_ZONES K)))),
     option_map
       (fun f =>
          to_int (f - sum_Z (map (zone_file_share K classzone_idx)
                                 (for_each_zone_zonelist K zonelist
                                    (MAX_NR_ZONES K)))))
       other_file)
  /\ (INT_MIN <= other_free
                 - sum_Z (map (zone_free_share K classzone_idx)
                              (for_each_zone_zonelist K zonelist
                                 (MAX_NR_ZONES K))) <= INT_MAX ->
      fst (tune_lmk_zone_param K zonelist classzone_idx other_free other_file)
      = other_free
        - sum_Z (map (zone_free_share K classzone_idx)
                     (for_each_zone_zonelist K zonelist (MAX_NR_ZONES K)))).
Proof.
  intros Hfree Hfile.
  pose proof (zone_param_closed_form zonelist classzone_idx
                other_free other_file Hfree Hfile) as E.
  split; [exact E |].
  intros Hfit. rewrite E. simpl. apply to_int_small, Hfit.
Qed.

(** C7 (amended).  When the caller is kswapd and the preferred zone
    passes [zone_watermark_ok] at its high watermark plus
    [SWAP_CLUSTER_MAX] plus the balance gap, [lmk_fast_run] decides: set,
    the zones' file pages are taken off [other_file]; clear, [other_file]
    is left as it is.  Either way the preferred zone's own share is taken
    off [other_free] on top of the zones' shares.  In every other case the
    zones' shares are taken off both, and nothing more. *)
Theorem tune_lmk_param_fast_run st other_free other_file gfp_mask :
  INT_MIN <= other_free <= INT_MAX ->
  INT_MIN <= other_file <= INT_MAX ->
  (kswapd_balanced K st gfp_mask = true -> lmk_fast_run st <> 0 ->
   tune_lmk_param K st other_free other_file gfp_mask
   = (to_int (other_free
              - sum_Z (map (zone_free_share K
                              (zone_idx (preferred_zone_of K st gfp_mask)))
                           (for_each_zone_zonelist K
                              (node_zonelist st 0 gfp_mask) (MAX_NR_ZONES K)))
              - preferred_zone_share K (preferred_zone_of K st gfp_mask)),
      to_int (other_file
              - sum_Z (map (zone_file_share K
                              (zone_idx (preferred_zone_of K st gfp_mask)))
                           (for_each_zone_zonelist K
                              (node_zonelist st 0 gfp_mask)
                              (MAX_NR_ZONES K))))))
  /\ (kswapd_balanced K st gfp_mask = true -> lmk_fast_run st = 0 ->
      tune_lmk_param K st other_free other_file gfp_mask
      = (to_int (other_free
                 - sum_Z (map (zone_free_share K
                                 (zone_idx (preferred_zone_of K st gfp_mask)))
                              (for_each_zone_zonelist K
                                 (node_zonelist st 0 gfp_mask)
                                 (MAX_NR_ZONES K)))
                 - preferred_zone_share K (preferred_zone_of K st gfp_mask)),
         other_file))
  /\ (kswapd_balanced K st gfp_mask = false ->
      tune_lmk_param K st other_free other_file gfp_mask
      = (to_int (other_free
                 - sum_Z (map (zone_free_share K
                                 (zone_idx (preferred_zone_of K st gfp_mask)))
                              (for_each_zone_zonelist K
                                 (node_zonelist st 0 gfp_mask)
                                 (MAX_NR_ZONES K)))),
         to_int (other_file
                 - sum_Z (map (zone_file_share K
                                 (zone_idx (preferred_zone_of K st gfp_mask)))
                              (for_each_zone_zonelist K
                                 (node_zonelist st 0 gfp_mask)
                                 (MAX_NR_ZONES K)))))).
Proof.
  intros Hfree Hfile.
  assert (Hsome : forall f, Some other_file = Some f -> INT_MIN <= f <= INT_MAX)
    by (intros f [= <-]; exact Hfile).
  assert (Hnone : forall f, @None Z = Some f -> INT_MIN <= f <= INT_MAX)
    by discriminate.
  pose proof ((zone_param_closed_form
                       (node_zonelist st 0 gfp_mask)
                       (zone_idx (preferred_zone_of K st gfp_mask))
                       other_free (Some other_file) Hfree Hsome)) as Efull.
  pose proof ((zone_param_closed_form
                       (node_zonelist st 0 gfp_mask)
                       (zone_idx (preferred_zone_of K st gfp_mask))
                       other_free None Hfree Hnone)) as Efree.
  unfold kswapd_balanced, preferred_zone_of in *.
  unfold tune_lmk_param, preferred_zone_share.
  repeat split.
  - intros Hb Hfast. rewrite Hb. apply Z.eqb_neq in Hfast. rewrite Hfast. simpl.
    rewrite Efull. simpl.
    destruct (zone_watermark_ok K _ 0 0 (_ZONE K) 0);
      rewrite to_int_sub_ulong, to_int_sub_l; reflexivity.
  - intros Hb Hfast. rewrite Hb, Hfast. simpl.
    rewrite Efree. simpl.
    destruct (zone_watermark_ok K _ 0 0 (_ZONE K) 0);
      rewrite to_int_sub_ulong, to_int_sub_l; reflexivity.
  - intros Hb. rewrite Hb. rewrite Efull. reflexivity.
Qed.

End Properties.

(** * Further properties of the driver *)

Section Further.

Variable K : kernel.

(** ** Thread groups *)

Lemma test_task_flag_loop_false st ts flag :
  test_task_flag_loop st ts flag = false <->
  forall t, In t ts -> test_tsk_thread_flag (tasks st t) flag = false.
Proof.
  induction ts as [| t ts IH]; simpl.
  - split; [intros _ t [] | reflexivity].
  - destruct (test_tsk_thread_flag (tasks st t) flag) eqn:E.
    + split; [discriminate |]. intros H. rewrite <- E. apply H. auto.
    + rewrite IH. split.
      * intros H u [<- | Hu]; auto.
      * intros H u Hu. apply H. auto.
Qed.

(** X1.  [test_task_flag p flag] is 1 exactly when some thread of the
    group of [p], [p] included, has the flag, and 0 exactly when none
    has. *)
Theorem test_task_flag_iff st p flag :
  (test_task_flag st p flag = true <->
   exists t, In t (each_thread st p)
             /\ test_tsk_thread_flag (tasks st t) flag = true)
  /\ (test_task_flag st p flag = false <->
      forall t, In t (each_thread st p) ->
                test_tsk_thread_flag (tasks st t) flag = false).
Proof.
  unfold test_task_flag. split.
  - apply test_task_flag_loop_true.
  - apply test_task_flag_loop_false.
Qed.

Lemma each_thread_set_flag st t flag p :
  each_thread (set_tsk_thread_flag st t flag) p = each_thread st p.
Proof.
  unfold each_thread, set_tsk_thread_flag; simpl.
  destruct (p =? t); reflexivity.
Qed.

Lemma tasks_set_flag_other st t flag q :
  q <> t -> tasks (set_tsk_thread_flag st t flag) q = tasks st q.
Proof.
  intros H. unfold set_tsk_thread_flag; simpl.
  apply Z.eqb_neq in H. rewrite H. reflexivity.
Qed.

Lemma tasks_set_flag_same st t flag :
  tasks (set_tsk_thread_flag st t flag) t = set_thread_flag (tasks st t) flag.
Proof. unfold set_tsk_thread_flag; simpl. rewrite Z.eqb_refl. reflexivity. Qed.

Lemma test_flag_set_other_flag st t flag flag' q :
  flag' <> flag ->
  test_tsk_thread_flag (tasks (set_tsk_thread_flag st t flag) q) flag'
  = test_tsk_thread_flag (tasks st q) flag'.
Proof.
  intros H. destruct (Z.eq_dec q t) as [-> | Hq].
  - rewrite tasks_set_flag_same. unfold test_tsk_thread_flag, set_thread_flag.
    simpl. apply N.setbit_neq. congruence.
  - rewrite tasks_set_flag_other by assumption. reflexivity.
Qed.

Lemma test_task_flag_loop_set_other_flag st t flag flag' ts :
  flag' <> flag ->
  test_task_flag_loop (set_tsk_thread_flag st t flag) ts flag'
  = test_task_flag_loop st ts flag'.
Proof.
  intros H. induction ts as [| u ts IH]; [reflexivity |].
  cbn [test_task_flag_loop].
  rewrite test_flag_set_other_flag by assumption. rewrite IH. reflexivity.
Qed.

Lemma test_task_flag_loop_set_absent st t flag ts :
  ~ In t ts ->
  test_task_flag_loop (set_tsk_thread_flag st t flag) ts flag
  = test_task_flag_loop st ts flag.
Proof.
  induction ts as [| u ts IH]; [reflexivity |]. intros H.
  cbn [test_task_flag_loop].
  rewrite tasks_set_flag_other by (intros ->; apply H; left; reflexivity).
  rewrite IH by (intros Hin; apply H; right; exact Hin). reflexivity.
Qed.

Lemma find_lock_task_mm_loop_set_flag st t flag ts :
  find_lock_task_mm_loop (set_tsk_thread_flag st t flag) ts
  = find_lock_task_mm_loop st ts.
Proof.
  induction ts as [| u ts IH]; [reflexivity |].
  cbn [find_lock_task_mm_loop]. rewrite IH.
  unfold set_tsk_thread_flag; simpl.
  destruct (u =? t); reflexivity.
Qed.

(** X2.  After [set_tsk_thread_flag t flag], [test_task_flag] finds the
    flag on every task whose thread group holds [t]; for the other tasks,
    and for every other flag, [test_task_flag] answers as before, and
    [find_lock_task_mm] is not affected. *)
Theorem set_tsk_thread_flag_seen_by_group st t flag p :
  (In t (each_thread st p) ->
   test_task_flag (set_tsk_thread_flag st t flag) p flag = true)
  /\ (~ In t (each_thread st p) ->
      test_task_flag (set_tsk_thread_flag st t flag) p flag
      = test_task_flag st p flag)
  /\ (forall flag', flag' <> flag ->
      test_task_flag (set_tsk_thread_flag st t flag) p flag'
      = test_task_flag st p flag')
  /\ find_lock_task_mm (set_tsk_thread_flag st t flag) p
     = find_lock_task_mm st p.
Proof.
  unfold test_task_flag, find_lock_task_mm.
  rewrite each_thread_set_flag. repeat split.
  - intros Hin. apply test_task_flag_loop_true. exists t. split; [exact Hin |].
    apply set_tsk_thread_flag_marks.
  - apply test_task_flag_loop_set_absent.
  - intros flag' H. apply test_task_flag_loop_set_other_flag, H.
  - apply find_lock_task_mm_loop_set_flag.
Qed.

Lemma find_lock_task_mm_loop_some st ts q :
  find_lock_task_mm_loop st ts = Some q <->
  exists pre post,
    ts = pre ++ q :: post
    /\ Forall (fun t => mm (tasks st t) = None) pre
    /\ mm (tasks st q) <> None.
Proof.
  induction ts as [| t ts IH]; simpl.
  - split; [discriminate |]. intros (pre & post & H & _). destruct pre; discriminate.
  - destruct (mm (tasks st t)) eqn:E.
    + split.
      * intros [= <-]. exists [], ts. repeat split; [constructor | congruence].
      * intros (pre & post & H & Hpre & Hq).
        destruct pre as [| x pre]; simpl in H.
        -- injection H as -> _. reflexivity.
        -- injection H as -> _. inversion Hpre; subst. congruence.
    + rewrite IH. split.
      * intros (pre & post & -> & Hpre & Hq).
        exists (t :: pre), post. repeat split; [constructor | ]; assumption.
      * intros (pre & post & H & Hpre & Hq).
        destruct pre as [| x pre]; simpl in H.
        -- injection H as -> _. congruence.
        -- injection H as -> ->. inversion Hpre; subst.
           exists pre, post. repeat split; assumption.
Qed.

Lemma find_lock_task_mm_loop_none st ts :
  find_lock_task_mm_loop st ts = None <->
  Forall (fun t => mm (tasks st t) = None) ts.
Proof.
  induction ts as [| t ts IH]; simpl.
  - split; [constructor | reflexivity].
  - destruct (mm (tasks st t)) eqn:E.
    + split; [discriminate |]. intros H. inversion H; subst. congruence.
    + rewrite IH. split.
      * intros H. constructor; assumption.
      * intros H. inversion H; assumption.
Qed.

(** X3.  [find_lock_task_mm p] returns the first thread with an mm in the
    order of [while_each_thread], starting with [p] itself, and NULL
    exactly when no thread of the group has one. *)
Theorem find_lock_task_mm_first st p :
  (forall q,
     find_lock_task_mm st p = Some q <->
     exists pre post,
       each_thread st p = pre ++ q :: post
       /\ Forall (fun t => mm (tasks st t) = None) pre
       /\ mm (tasks st q) <> None)
  /\ (find_lock_task_mm st p = None <->
      Forall (fun t => mm (tasks st t) = None) (each_thread st p)).
Proof.
  unfold find_lock_task_mm. split.
  - intros q. apply find_lock_task_mm_loop_some.
  - apply find_lock_task_mm_loop_none.
Qed.

(** ** The priority index, continued *)

Section FurtherIndex.

Hypothesis rb_insert_color_inorder :
  forall t, inorder (rb_insert_color K t) = inorder t.

Lemma adj_insert_split st task nodes :
  adj_descending st nodes ->
  exists pre post,
    nodes = pre ++ post
    /\ adj_insert st (adj_of st task) task nodes = pre ++ task :: post
    /\ Forall (fun e => adj_of st task < adj_of st e) pre
    /\ Forall (fun e => adj_of st e <= adj_of st task) post.
Proof.
  unfold adj_descending.
  induction 1 as [| e rest Hs IH Hall]; simpl.
  - exists [], []. repeat split; constructor.
  - destruct (Z.ltb_spec (adj_of st task) (adj_of st e)) as [Hlt | Hge].
    + destruct IH as (pre & post & -> & -> & Hpre & Hpost).
      exists (e :: pre), post. repeat split; [constructor |]; assumption.
    + exists [], (e :: rest). repeat split; [constructor |].
      constructor; [lia |].
      eapply Forall_impl; [| exact Hall]. simpl. intros; lia.
Qed.

(** X4.  [add_2_adj_tree] puts the task behind every registered task of
    larger [oom_adj] and in front of every registered task of equal or
    smaller [oom_adj]; the tasks already registered keep their order. *)
Theorem add_2_adj_tree_position st task :
  adj_descending st (inorder (tasksadj st)) ->
  exists pre post,
    inorder (tasksadj st) = pre ++ post
    /\ inorder (tasksadj (add_2_adj_tree K st task)) = pre ++ task :: post
    /\ Forall (fun e => adj_of st task < adj_of st e) pre
    /\ Forall (fun e => adj_of st e <= adj_of st task) post.
Proof.
  intros Hs.
  rewrite (add_2_adj_tree_inorder K rb_insert_color_inorder st task Hs).
  apply adj_insert_split, Hs.
Qed.

Lemma adj_insert_perm st key task nodes :
  Permutation (adj_insert st key task nodes) (task :: nodes).
Proof.
  induction nodes as [| e rest IH]; simpl; [apply Permutation_refl |].
  destruct (key <? adj_of st e); [| apply Permutation_refl].
  eapply Permutation_trans; [apply perm_skip, IH | apply perm_swap].
Qed.

Lemma insert_all_perm st l nodes :
  Permutation (insert_all st l nodes) (l ++ nodes).
Proof.
  unfold insert_all. revert nodes.
  induction l as [| p l IH]; intros nodes; simpl; [apply Permutation_refl |].
  eapply Permutation_trans; [apply IH |].
  eapply Permutation_trans;
    [apply Permutation_app_head, adj_insert_perm | ].
  apply Permutation_sym, Permutation_middle.
Qed.

(** X5.  Whatever tasks are registered in an empty index, and in whatever
    order, the index holds exactly these tasks, each once if each was
    registered once, and runs left to right without ever increasing in
    [oom_adj]. *)
Theorem register_all_descending_permutation st l :
  tasksadj st = RB_ROOT ->
  adj_descending st (inorder (tasksadj (register_all K st l)))
  /\ Permutation (inorder (tasksadj (register_all K st l))) l
  /\ (NoDup l -> NoDup (inorder (tasksadj (register_all K st l)))).
Proof.
  intros Hempty.
  assert (Hs0 : adj_descending st (inorder (tasksadj st))).
  { rewrite Hempty. constructor. }
  destruct (register_all_inorder K rb_insert_color_inorder st l Hs0)
    as [Hin Hdesc].
  assert (Hperm : Permutation (inorder (tasksadj (register_all K st l))) l).
  { rewrite Hin, Hempty. simpl.
    rewrite <- (app_nil_r l) at 2. apply insert_all_perm. }
  repeat split; [exact Hdesc | exact Hperm |].
  intros Hnd. eapply Permutation_NoDup; [apply Permutation_sym, Hperm | exact Hnd].
Qed.

Lemma adj_descending_head st e nodes :
  adj_descending st (e :: nodes) ->
  forall x, In x (e :: nodes) -> adj_of st x <= adj_of st e.
Proof.
  intros H x [<- | Hx]; [lia |].
  inversion H as [| ? ? _ Hall]; subst.
  rewrite Forall_forall in Hall. apply Hall, Hx.
Qed.

Lemma adj_descending_last st nodes e :
  adj_descending st (e :: nodes) ->
  forall x, In x (e :: nodes) -> adj_of st (last nodes e) <= adj_of st x.
Proof.
  revert e. induction nodes as [| e' nodes IH]; intros e H x Hx.
  - destruct Hx as [<- | []]. simpl. lia.
  - inversion H as [| ? ? Hs Hall]; subst.
    change (last (e' :: nodes) e) with
      (match nodes with [] => e' | _ :: _ => last nodes e end).
    assert (E : match nodes with [] => e' | _ :: _ => last nodes e end
                = last nodes e').
    { destruct nodes as [| y ys]; [reflexivity |].
      apply (last_nonempty_default (y :: ys)). discriminate. }
    rewrite E. destruct Hx as [<- | Hx].
    + apply Z.le_trans with (adj_of st e').
      * apply (IH e' Hs). left. reflexivity.
      * inversion Hall; subst. assumption.
    + apply (IH e' Hs), Hx.
Qed.

(** X6.  In an index built by registrations, [pick_first_task] is a
    registered task of largest [oom_adj], [pick_last_task] a registered
    task of smallest [oom_adj], and both are NULL exactly when nothing
    was registered. *)
Theorem pick_first_last_extremes st l :
  tasksadj st = RB_ROOT ->
  (forall f, pick_first_task (register_all K st l) = Some f ->
     In f l /\ forall t, In t l -> adj_of st t <= adj_of st f)
  /\ (forall z, pick_last_task (register_all K st l) = Some z ->
        In z l /\ forall t, In t l -> adj_of st z <= adj_of st t)
  /\ (pick_first_task (register_all K st l) = None <-> l = [])
  /\ (pick_last_task (register_all K st l) = None <-> l = []).
Proof.
  intros Hempty.
  assert (Hs0 : adj_descending st (inorder (tasksadj st))).
  { rewrite Hempty. constructor. }
  destruct (register_all_inorder K rb_insert_color_inorder st l Hs0)
    as [Hin Hdesc].
  assert (Hperm : Permutation (inorder (tasksadj (register_all K st l))) l).
  { rewrite Hin, Hempty. simpl.
    rewrite <- (app_nil_r l) at 2. apply insert_all_perm. }
  unfold pick_first_task, pick_last_task.
  destruct (inorder (tasksadj (register_all K st l))) as [| e nodes] eqn:E.
  - apply Permutation_nil in Hperm. subst l.
    repeat split; try discriminate; intros; reflexivity.
  - assert (Hne : l <> []).
    { intros ->. apply Permutation_sym, Permutation_nil in Hperm. discriminate. }
    assert (Hmem : forall x, In x (e :: nodes) <-> In x l).
    { intros x. split; intros Hx.
      - eapply Permutation_in; [exact Hperm | exact Hx].
      - eapply Permutation_in; [apply Permutation_sym, Hperm | exact Hx]. }
    repeat split; try discriminate; try (intros; contradiction).
    + injection H as <-. apply Hmem. left. reflexivity.
    + injection H as <-. intros t Ht.
      apply (adj_descending_head st e nodes Hdesc), Hmem, Ht.
    + injection H as <-. apply Hmem.
      destruct nodes as [| y ys]; [left; reflexivity |].
      right. apply (last_nonempty_in (y :: ys)). discriminate.
    + injection H as <-. intros t Ht.
      apply (adj_descending_last st nodes e Hdesc), Hmem, Ht.
Qed.

(** ** The loop header *)

Lemma adj_tree_walk_removelast nodes : adj_tree_walk nodes = removelast nodes.
Proof.
  induction nodes as [| e rest IH]; [reflexivity |].
  cbn [adj_tree_walk removelast]. destruct rest; [reflexivity |].
  rewrite IH. reflexivity.
Qed.

Lemma cursor_walk_enough_fuel st :
  NoDup (inorder (tasksadj st)) ->
  forall l pre fuel,
    inorder (tasksadj st) = pre ++ l ->
    (length l <= fuel)%nat ->
    cursor_walk fuel st (hd_error l) = adj_tree_walk l.
Proof.
  intros Hnd. induction l as [| t rest IH]; intros pre fuel Hl Hfuel.
  - destruct fuel as [| fuel]; [reflexivity |].
    cbn [cursor_walk hd_error adj_tree_walk].
    destruct (same_task None (pick_last_task st)); reflexivity.
  - destruct fuel as [| fuel]; [simpl in Hfuel; lia |].
    cbn [cursor_walk hd_error].
    unfold pick_last_task, pick_next_from_adj_tree.
    assert (Hlast : match inorder (tasksadj st) with
                    | [] => None
                    | e :: l0 => Some (last l0 e)
                    end = Some (last rest t)).
    { rewrite Hl. destruct pre as [| x pre]; cbn [app].
      - reflexivity.
      - rewrite last_app_cons. reflexivity. }
    rewrite Hlast.
    assert (Hnd' : ~ In t (pre ++ rest)).
    { rewrite Hl in Hnd. apply NoDup_remove_2 in Hnd. exact Hnd. }
    rewrite Hl at 1.
    rewrite rb_next_in_app by (intros H; apply Hnd', in_or_app; auto).
    destruct rest as [| t' rest'].
    + simpl. rewrite Z.eqb_refl. reflexivity.
    + assert (Hne : (t =? last (t' :: rest') t) = false).
      { apply Z.eqb_neq. intros Heq.
        apply Hnd', in_or_app. right. rewrite Heq.
        apply last_nonempty_in. discriminate. }
      cbn [same_task]. rewrite Hne.
      cbn [adj_tree_walk]. f_equal.
      apply (IH (pre ++ [t])).
      * rewrite <- app_assoc. exact Hl.
      * simpl in *. lia.
Qed.

(** X7.  Run with [pick_first_task], [pick_last_task] and
    [pick_next_from_adj_tree], the loop of [lowmem_shrink] enters its body
    on every node of the index but the last, from left to right, and on
    none when the index holds one node or is empty; as many iterations as
    there are nodes are enough for it to end. *)
Theorem loop_header_skips_last st fuel :
  NoDup (inorder (tasksadj st)) ->
  (length (inorder (tasksadj st)) <= fuel)%nat ->
  cursor_walk fuel st (pick_first_task st)
  = removelast (inorder (tasksadj st)).
Proof.
  intros Hnd Hfuel. unfold pick_first_task.
  rewrite <- adj_tree_walk_removelast.
  apply (cursor_walk_enough_fuel st Hnd _ []); [reflexivity | exact Hfuel].
Qed.

(** ** Unregistering *)

Section FurtherRemoval.

Variable rb_erase : task_ptr -> rb_root -> rb_root.

(** Erasing a node of the tree takes it out of the left-to-right order
    and leaves the other nodes in their order. *)
Hypothesis rb_erase_inorder :
  forall task t,
    NoDup (inorder t) -> In task (inorder t) ->
    inorder (rb_erase task t) = remove Z.eq_dec task (inorder t).

Lemma remove_absent (x : task_ptr) l : ~ In x l -> remove Z.eq_dec x l = l.
Proof.
  induction l as [| e l IH]; simpl; intros H; [reflexivity |].
  destruct (Z.eq_dec x e) as [-> | Hne]; [exfalso; apply H; auto |].
  rewrite IH; [reflexivity |]. intros Hin. apply H. auto.
Qed.

Lemma remove_middle (x : task_ptr) pre post :
  ~ In x pre -> ~ In x post ->
  remove Z.eq_dec x (pre ++ x :: post) = pre ++ post.
Proof.
  intros H1 H2. rewrite remove_app. simpl.
  destruct (Z.eq_dec x x); [| congruence].
  rewrite !remove_absent by assumption. reflexivity.
Qed.

Lemma adj_descending_remove st x nodes :
  adj_descending st nodes -> adj_descending st (remove Z.eq_dec x nodes).
Proof.
  unfold adj_descending.
  induction 1 as [| e rest Hs IH Hall]; simpl; [constructor |].
  destruct (Z.eq_dec x e); [exact IH |].
  constructor; [exact IH |].
  rewrite Forall_forall in *. intros y Hy.
  apply Hall. apply in_remove in Hy. tauto.
Qed.

(** X8.  Registering a task that is not in the index and unregistering
    it again leaves the left-to-right order of the index as it was. *)
Theorem delete_after_add_restores st task :
  adj_descending st (inorder (tasksadj st)) ->
  NoDup (inorder (tasksadj st)) ->
  ~ In task (inorder (tasksadj st)) ->
  inorder (tasksadj (delete_from_adj_tree rb_erase
                       (add_2_adj_tree K st task) task))
  = inorder (tasksadj st).
Proof.
  intros Hs Hnd Hnew.
  destruct (adj_insert_split st task _ Hs) as (pre & post & Hold & Hnew' & _).
  pose proof (add_2_adj_tree_inorder K rb_insert_color_inorder st task Hs) as Hadd.
  rewrite Hnew' in Hadd.
  rewrite Hold in Hnd, Hnew.
  assert (Hpre : ~ In task pre) by (intros H; apply Hnew, in_or_app; auto).
  assert (Hpost : ~ In task post) by (intros H; apply Hnew, in_or_app; auto).
  unfold delete_from_adj_tree. cbn [tasksadj set_tasksadj].
  rewrite rb_erase_inorder.
  - rewrite Hadd, Hold. apply remove_middle; assumption.
  - rewrite Hadd. apply NoDup_Add with (a := task) (l := pre ++ post).
    + apply Add_app.
    + split; [exact Hnd | exact Hnew].
  - rewrite Hadd. apply in_or_app. right. left. reflexivity.
Qed.

(** X9.  Unregistering a registered task takes this task, and no other,
    out of the index, and the index still runs left to right without
    increasing in [oom_adj], so that the scan can go on breaking on the
    first task below the floor. *)
Theorem delete_keeps_descending st task :
  adj_descending st (inorder (tasksadj st)) ->
  NoDup (inorder (tasksadj st)) ->
  In task (inorder (tasksadj st)) ->
  adj_descending (delete_from_adj_tree rb_erase st task)
                 (inorder (tasksadj (delete_from_adj_tree rb_erase st task)))
  /\ ~ In task (inorder (tasksadj (delete_from_adj_tree rb_erase st task)))
  /\ (forall q, q <> task ->
        (In q (inorder (tasksadj (delete_from_adj_tree rb_erase st task)))
         <-> In q (inorder (tasksadj st))))
  /\ NoDup (inorder (tasksadj (delete_from_adj_tree rb_erase st task))).
Proof.
  intros Hs Hnd Hin.
  assert (E : inorder (tasksadj (delete_from_adj_tree rb_erase st task))
              = remove Z.eq_dec task (inorder (tasksadj st))).
  { unfold delete_from_adj_tree. cbn [tasksadj set_tasksadj].
    apply rb_erase_inorder; assumption. }
  rewrite E. split; [| split; [| split]].
  - apply (adj_descending_ext st); [reflexivity |].
    apply adj_descending_remove, Hs.
  - apply remove_In.
  - intros q Hq. split; intros H.
    + apply in_remove in H. tauto.
    + apply in_in_remove; assumption.
  - clear E Hs Hin. induction Hnd as [| e l Hne Hnd IH]; simpl; [constructor |].
    destruct (Z.eq_dec task e); [exact IH |].
    constructor; [| exact IH].
    intros H. apply in_remove in H. tauto.
Qed.

End FurtherRemoval.

End FurtherIndex.

(** ** The threshold table, continued *)

Lemma lowmem_min_adj_loop_seq st other_free other_file n :
  forall a,
    (lowmem_min_adj_loop st other_free other_file (seq a n)
     = OOM_SCORE_ADJ_MAX + 1
     /\ forall j, (a <= j < a + n)%nat ->
          ~ (other_free < nth j (lowmem_minfree st) 0
             /\ other_file < nth j (lowmem_minfree st) 0))
    \/ exists i,
         (a <= i < a + n)%nat
         /\ other_free < nth i (lowmem_minfree st) 0
         /\ other_file < nth i (lowmem_minfree st) 0
         /\ (forall j, (a <= j < i)%nat ->
               ~ (other_free < nth j (lowmem_minfree st) 0
                  /\ other_file < nth j (lowmem_minfree st) 0))
         /\ lowmem_min_adj_loop st other_free other_file (seq a n)
            = nth i (lowmem_adj st) 0.
Proof.
  induction n as [| n IH]; intros a; simpl.
  - left. split; [reflexivity | intros j Hj; lia].
  - destruct (Z.ltb_spec other_free (nth a (lowmem_minfree st) 0)) as [H1 | H1];
      destruct (Z.ltb_spec other_file (nth a (lowmem_minfree st) 0)) as [H2 | H2];
      simpl.
    1:{ right. exists a. repeat split; try lia; try assumption;
          intros j Hj; lia. }
    all: destruct (IH (S a)) as [[E Hno] | (i & Hi & F1 & F2 & Hfirst & E)];
      [ left; split; [exact E |];
        intros j Hj; destruct (Nat.eq_dec j a) as [-> | Hne];
        [lia | apply Hno; lia]
      | right; exists i; repeat split; try lia; try assumption;
        intros j Hj; destruct (Nat.eq_dec j a) as [-> | Hne];
        [lia | apply Hfirst; lia] ].
Qed.



(** X11.  With [lowmem_adj] ascending over the rows in use and bounded
    by [OOM_SCORE_ADJ_MAX + 1], less memory never raises the floor: if
    both figures go down, [min_adj] stays or goes down. *)
Theorem lowmem_min_adj_monotone st free file free' file' :
  (forall i j, (i <= j)%nat -> Z.of_nat j < lowmem_array_size st ->
     nth i (lowmem_adj st) 0 <= nth j (lowmem_adj st) 0) ->
  (forall i, Z.of_nat i < lowmem_array_size st ->
     nth i (lowmem_adj st) 0 <= OOM_SCORE_ADJ_MAX + 1) ->
  free' <= free ->
  file' <= file ->
  lowmem_min_adj st free' file' <= lowmem_min_adj st free file.
Proof.
  intros Hasc Hmax Hfree Hfile. unfold lowmem_min_adj.
  destruct (lowmem_min_adj_loop_seq st free file
              (Z.to_nat (lowmem_array_size st)) 0%nat)
    as [[E _] | (i & Hi & F1 & F2 & _ & E)];
    destruct (lowmem_min_adj_loop_seq st free' file'
                (Z.to_nat (lowmem_array_size st)) 0%nat)
      as [[E' Hno'] | (i' & Hi' & F1' & F2' & Hfirst' & E')];
    rewrite E, E'.
  - lia.
  - apply Hmax. lia.
  - exfalso. apply (Hno' i); [lia |]. split; lia.
  - apply Hasc; [| lia].
    destruct (le_lt_dec i' i) as [Hle | Hgt]; [exact Hle |].
    exfalso. apply (Hfirst' i); [lia |]. split; lia.
Qed.

(** X12.  When no row in use has both tuned figures under its
    [lowmem_minfree] (as when either table is configured empty),
    [lowmem_shrink] kills nobody; a caller that is not dying finds the
    state as it was, and gets the LRU page count unless its wait for
    [scan_mutex] was interrupted. *)
Theorem no_row_crossed_no_kill st nr_to_scan gfp_mask :
  (forall j, Z.of_nat j < lowmem_array_size st ->
     ~ (fst (lowmem_other K st gfp_mask) < nth j (lowmem_minfree st) 0
        /\ snd (lowmem_other K st gfp_mask) < nth j (lowmem_minfree st) 0)) ->
  no_kill (events (lowmem_shrink K st nr_to_scan gfp_mask))
  /\ (current_is_dying K st = false ->
      final (lowmem_shrink K st nr_to_scan gfp_mask) = st
      /\ (scan_mutex_wait_interrupted st = false ->
          retval (lowmem_shrink K st nr_to_scan gfp_mask) = lowmem_rem st)).
Proof.
  intros Hno.
  assert (Hf : lowmem_floor K st gfp_mask = OOM_SCORE_ADJ_MAX + 1).
  { unfold lowmem_floor. apply lowmem_min_adj_no_row, Hno. }
  destruct (current_is_dying K st) eqn:Hd.
  { rewrite (lowmem_shrink_dying K _ _ _ Hd). simpl. split; [| discriminate].
    intros sig p [H | []]. discriminate. }
  destruct (Z_lt_le_dec 0 nr_to_scan) as [Hn | Hn].
  2:{ rewrite (lowmem_shrink_report K _ _ _ Hd Hn). simpl.
      split; [intros sig p [] | auto]. }
  destruct (scan_mutex_wait_interrupted st) eqn:Hi.
  { rewrite (lowmem_shrink_interrupted K _ _ _ Hd Hn Hi). simpl.
    split; [intros sig p [] |]. intros _. split; [reflexivity | discriminate]. }
  rewrite (lowmem_shrink_no_floor K _ _ _ Hd Hn Hi Hf). simpl.
  split; [| auto].
  intros sig p H. simpl in H. decompose [or] H; discriminate || contradiction.
Qed.

(** ** Who is killed, and what a kill does *)

(** The three ways out of the loop body, with what each one tells. *)
Lemma scan_body_exit st min_adj s tsk :
  match scan_body K st min_adj s tsk with
  | Continue s' | Break s' =>
      s' = s
      \/ exists p size,
           s' = mk_selection (Some p) size (adj_of st p)
           /\ candidate K st tsk p (adj_of st p) size
           /\ min_adj <= adj_of st p
  | Return_0 t =>
      t = tsk
      /\ time_before_eq K (jiffies st) (lowmem_deathpending_timeout st) = true
      /\ test_task_flag st tsk (TIF_MEMDIE K) = true
  end.
Proof.
  unfold scan_body.
  destruct (N.land (flags (tasks st tsk)) (PF_KTHREAD K) =? 0)%N eqn:Hk;
    simpl; [| left; reflexivity].
  destruct (test_task_flag st tsk (TIF_MM_RELEASED K)) eqn:Hr;
    [left; reflexivity |].
  destruct (time_before_eq K (jiffies st) (lowmem_deathpending_timeout st)
            && test_task_flag st tsk (TIF_MEMDIE K)) eqn:Ht.
  { apply andb_true_iff in Ht. tauto. }
  destruct (find_lock_task_mm st tsk) as [p |] eqn:Hp; [| left; reflexivity].
  destruct (Z.ltb_spec (oom_adj (signal (tasks st p))) min_adj) as [Hm | Hm];
    [left; reflexivity |].
  destruct (fatal_signal_pending K (tasks st p)
            || negb (N.land (flags (tasks st p)) (PF_EXITING K) =? 0)%N
               && test_tsk_thread_flag (tasks st p) (TIF_MEMDIE K)) eqn:Hdie;
    [left; reflexivity |].
  destruct (mm (tasks st p)) as [m |] eqn:Hmm; [| left; reflexivity].
  destruct (Z.leb_spec (to_int (get_mm_rss K m)) 0) as [Hsz | Hsz];
    [left; reflexivity |].
  assert (Hcand : candidate K st tsk p (adj_of st p) (to_int (get_mm_rss K m))).
  { unfold candidate, adj_of. apply N.eqb_eq in Hk.
    repeat split; try assumption. exists m. split; [assumption | reflexivity]. }
  unfold select_candidate.
  destruct (selected s) as [q |].
  - destruct (oom_adj (signal (tasks st p)) <? selected_oom_adj s);
      [left; reflexivity |].
    destruct ((oom_adj (signal (tasks st p)) =? selected_oom_adj s)
              && (to_int (get_mm_rss K m) <=? selected_tasksize s));
      [left; reflexivity |].
    right. exists p, (to_int (get_mm_rss K m)).
    split; [reflexivity | split; [exact Hcand | unfold adj_of; lia]].
  - right. exists p, (to_int (get_mm_rss K m)).
    split; [reflexivity | split; [exact Hcand | unfold adj_of; lia]].
Qed.

(** The selection the loop ends with is the one it started with or was
    made on a task of the walk. *)
Lemma scan_loop_selected st min_adj walk :
  forall s s',
    scan_loop K st min_adj s walk = Scan_done s' ->
    s' = s
    \/ exists tsk p size,
         In tsk walk
         /\ s' = mk_selection (Some p) size (adj_of st p)
         /\ candidate K st tsk p (adj_of st p) size
         /\ min_adj <= adj_of st p.
Proof.
  induction walk as [| tsk walk IH]; intros s s' H; simpl in H.
  - left. congruence.
  - pose proof (scan_body_exit st min_adj s tsk) as Hb.
    destruct (scan_body K st min_adj s tsk) as [s1 | s1 | t]; [| | discriminate].
    + destruct (IH _ _ H) as [-> | (t & p & size & Hin & E & Hc & Hm)].
      * destruct Hb as [-> | (p & size & E & Hc & Hm)]; [left; reflexivity |].
        right. exists tsk, p, size. simpl. auto.
      * right. exists t, p, size. simpl. auto.
    + injection H as <-.
      destruct Hb as [-> | (p & size & E & Hc & Hm)]; [left; reflexivity |].
      right. exists tsk, p, size. simpl. auto.
Qed.

(** A call that signals a task went all the way to the end of the loop
    with this task selected. *)
Lemma lowmem_shrink_kill_inv st nr_to_scan gfp_mask sig p :
  In (Ev_send_sig sig p) (events (lowmem_shrink K st nr_to_scan gfp_mask)) ->
  sig = SIGKILL K
  /\ current_is_dying K st = false
  /\ 0 < nr_to_scan
  /\ scan_mutex_wait_interrupted st = false
  /\ lowmem_floor K st gfp_mask <> OOM_SCORE_ADJ_MAX + 1
  /\ exists s,
       scan_loop K st (lowmem_floor K st gfp_mask)
         (mk_selection None 0 (lowmem_floor K st gfp_mask))
         (adj_tree_walk (inorder (tasksadj st))) = Scan_done s
       /\ selected s = Some p
       /\ lowmem_shrink K st nr_to_scan gfp_mask
          = after_scan K st (Scan_done s).
Proof.
  destruct (current_is_dying K st) eqn:Hd.
  { rewrite (lowmem_shrink_dying K _ _ _ Hd). simpl.
    intros [H | []]. discriminate. }
  destruct (Z_lt_le_dec 0 nr_to_scan) as [Hn | Hn].
  2:{ rewrite (lowmem_shrink_report K _ _ _ Hd Hn). simpl. tauto. }
  destruct (scan_mutex_wait_interrupted st) eqn:Hi.
  { rewrite (lowmem_shrink_interrupted K _ _ _ Hd Hn Hi). simpl. tauto. }
  destruct (Z.eq_dec (lowmem_floor K st gfp_mask) (OOM_SCORE_ADJ_MAX + 1))
    as [Hf | Hf].
  { rewrite (lowmem_shrink_no_floor K _ _ _ Hd Hn Hi Hf). simpl.
    intros H; decompose [or] H; discriminate || contradiction. }
  rewrite (lowmem_shrink_scan K _ _ _ Hd Hn Hi Hf).
  destruct (scan_loop _ _ _ _ _) as [s | tsk] eqn:Hscan; simpl.
  - destruct (selected s) as [sel |] eqn:Hsel; simpl.
    + intros [H | [H | [H | [H | [H | []]]]]]; try discriminate.
      injection H as <- <-.
      repeat split; try assumption. exists s. rewrite Hsel. auto.
    + intros H; decompose [or] H; discriminate || contradiction.
  - destruct (negb _); simpl;
      intros H; decompose [or] H; discriminate || contradiction.
Qed.

(** X13.  [lowmem_shrink] only ever sends SIGKILL, and only to a thread
    [p] that the loop found as the mm holder of a walked task (a node of
    the index other than the last) that is not a kernel thread, has no
    thread with [TIF_MM_RELEASED] and was not throttled; [p] has an mm of
    positive rss, no fatal signal pending, is not an exiting task with
    [TIF_MEMDIE], and its [oom_adj] is at or above the floor. *)
Theorem victim_is_candidate st nr_to_scan gfp_mask sig p :
  In (Ev_send_sig sig p) (events (lowmem_shrink K st nr_to_scan gfp_mask)) ->
  sig = SIGKILL K
  /\ exists tsk size,
       In tsk (removelast (inorder (tasksadj st)))
       /\ In p (each_thread st tsk)
       /\ candidate K st tsk p (adj_of st p) size
       /\ lowmem_floor K st gfp_mask <= adj_of st p
       /\ retval (lowmem_shrink K st nr_to_scan gfp_mask)
          = to_int (lowmem_rem st - size).
Proof.
  intros Hkill.
  destruct (lowmem_shrink_kill_inv _ _ _ _ _ Hkill)
    as (Hsig & _ & _ & _ & _ & s & Hscan & Hsel & Hout).
  split; [exact Hsig |].
  destruct (scan_loop_selected _ _ _ _ _ Hscan)
    as [-> | (tsk & q & size & Hin & -> & Hc & Hm)]; [discriminate |].
  simpl in Hsel. injection Hsel as ->.
  exists tsk, size. rewrite <- adj_tree_walk_removelast.
  split; [exact Hin |]. split; [| split; [exact Hc |]; split; [exact Hm |]].
  - destruct Hc as (_ & _ & _ & Hp & _).
    apply (find_lock_task_mm_loop_has_mm st _ _ Hp).
  - rewrite Hout. reflexivity.
Qed.

(** X14.  A call sends at most one signal.  When it sends one, it was
    made with [nr_to_scan > 0], and what it does is: take the mutex, send
    SIGKILL, set [TIF_MEMDIE] on the victim, sleep 20 ms, release the
    mutex; afterwards [test_task_flag] finds [TIF_MEMDIE] on the victim
    and the deadline is the time of the call plus [HZ]. *)
Theorem kill_effects st nr_to_scan gfp_mask sig p :
  In (Ev_send_sig sig p) (events (lowmem_shrink K st nr_to_scan gfp_mask)) ->
  0 < nr_to_scan
  /\ events (lowmem_shrink K st nr_to_scan gfp_mask)
     = [Ev_mutex_lock; Ev_send_sig (SIGKILL K) p;
        Ev_set_tsk_thread_flag p (TIF_MEMDIE K);
        Ev_msleep_interruptible 20; Ev_mutex_unlock]
  /\ test_task_flag (final (lowmem_shrink K st nr_to_scan gfp_mask)) p
       (TIF_MEMDIE K) = true
  /\ lowmem_deathpending_timeout (final (lowmem_shrink K st nr_to_scan gfp_mask))
     = to_ulong (jiffies st + HZ K).
Proof.
  intros Hkill.
  destruct (lowmem_shrink_kill_inv _ _ _ _ _ Hkill)
    as (_ & _ & Hn & _ & _ & s & _ & Hsel & Hout).
  rewrite Hout. simpl. rewrite Hsel. simpl.
  repeat split; try assumption.
  apply test_task_flag_loop_true. exists p. split; [left; reflexivity |].
  apply set_tsk_thread_flag_marks.
Qed.

(** X15.  With an empty index, or an index of one task, [lowmem_shrink]
    kills nobody, however low memory is: the loop stops on the last node
    without looking at it. *)
Theorem short_index_no_kill st nr_to_scan gfp_mask :
  (length (inorder (tasksadj st)) <= 1)%nat ->
  no_kill (events (lowmem_shrink K st nr_to_scan gfp_mask)).
Proof.
  intros Hlen sig p Hkill.
  destruct (lowmem_shrink_kill_inv _ _ _ _ _ Hkill)
    as (_ & _ & _ & _ & _ & s & Hscan & Hsel & _).
  destruct (inorder (tasksadj st)) as [| e [| e' l]];
    simpl in Hscan; try (simpl in Hlen; lia);
    injection Hscan as <-; discriminate.
Qed.

(** X16.  [lowmem_shrink] leaves the index, the tables, the counters and
    the clock alone; and a call that sends no signal changes no task,
    except that it may set [TIF_MEMDIE] on the caller. *)
Theorem lowmem_shrink_frame st nr_to_scan gfp_mask :
  tasksadj (final (lowmem_shrink K st nr_to_scan gfp_mask)) = tasksadj st
  /\ lowmem_adj (final (lowmem_shrink K st nr_to_scan gfp_mask)) = lowmem_adj st
  /\ lowmem_adj_size (final (lowmem_shrink K st nr_to_scan gfp_mask))
     = lowmem_adj_size st
  /\ lowmem_minfree (final (lowmem_shrink K st nr_to_scan gfp_mask))
     = lowmem_minfree st
  /\ lowmem_minfree_size (final (lowmem_shrink K st nr_to_scan gfp_mask))
     = lowmem_minfree_size st
  /\ lmk_fast_run (final (lowmem_shrink K st nr_to_scan gfp_mask))
     = lmk_fast_run st
  /\ global_vm_stat (final (lowmem_shrink K st nr_to_scan gfp_mask))
     = global_vm_stat st
  /\ jiffies (final (lowmem_shrink K st nr_to_scan gfp_mask)) = jiffies st
  /\ current (final (lowmem_shrink K st nr_to_scan gfp_mask)) = current st
  /\ (no_kill (events (lowmem_shrink K st nr_to_scan gfp_mask)) ->
      forall q,
        tasks (final (lowmem_shrink K st nr_to_scan gfp_mask)) q = tasks st q
        \/ (q = current st
            /\ tasks (final (lowmem_shrink K st nr_to_scan gfp_mask)) q
               = set_thread_flag (tasks st q) (TIF_MEMDIE K))).
Proof.
  assert (Hset : forall q,
             tasks (set_tsk_thread_flag st (current st) (TIF_MEMDIE K)) q
             = tasks st q
             \/ (q = current st
                 /\ tasks (set_tsk_thread_flag st (current st) (TIF_MEMDIE K)) q
                    = set_thread_flag (tasks st q) (TIF_MEMDIE K))).
  { intros q. unfold set_tsk_thread_flag; simpl.
    destruct (Z.eqb_spec q (current st)); auto. }
  destruct (current_is_dying K st) eqn:Hd.
  { rewrite (lowmem_shrink_dying K _ _ _ Hd). simpl.
    repeat split. intros _ q. apply Hset. }
  destruct (Z_lt_le_dec 0 nr_to_scan) as [Hn | Hn].
  2:{ rewrite (lowmem_shrink_report K _ _ _ Hd Hn). simpl.
      repeat split. auto. }
  destruct (scan_mutex_wait_interrupted st) eqn:Hi.
  { rewrite (lowmem_shrink_interrupted K _ _ _ Hd Hn Hi). simpl.
    repeat split. auto. }
  destruct (Z.eq_dec (lowmem_floor K st gfp_mask) (OOM_SCORE_ADJ_MAX + 1))
    as [Hf | Hf].
  { rewrite (lowmem_shrink_no_floor K _ _ _ Hd Hn Hi Hf). simpl.
    repeat split. auto. }
  rewrite (lowmem_shrink_scan K _ _ _ Hd Hn Hi Hf).
  destruct (scan_loop _ _ _ _ _) as [s | tsk]; simpl.
  - destruct (selected s) as [sel |]; simpl.
    + repeat split. intros Hno q. exfalso.
      apply (Hno (SIGKILL K) sel). simpl. auto.
    + repeat split. auto.
  - destruct (negb _); simpl.
    + repeat split. auto.
    + repeat split. intros _ q. apply Hset.
Qed.

Lemma scan_loop_after_deadline st min_adj walk :
  time_before_eq K (jiffies st) (lowmem_deathpending_timeout st) = false ->
  forall s, exists s', scan_loop K st min_adj s walk = Scan_done s'.
Proof.
  intros Hwin. induction walk as [| tsk walk IH]; intros s; simpl.
  - exists s. reflexivity.
  - pose proof (scan_body_exit st min_adj s tsk) as Hb.
    destruct (scan_body K st min_adj s tsk) as [s1 | s1 | t].
    + apply IH.
    + exists s1. reflexivity.
    + destruct Hb as (_ & Hw & _). congruence.
Qed.

(** X18.  Once [time_before_eq jiffies lowmem_deathpending_timeout] no
    longer holds, tasks left with [TIF_MEMDIE] do not hold a call back: a
    call that gets the mutex and scans either kills, or returns the LRU
    page count with the state as it was; it never takes the way out that
    returns 0. *)
Theorem no_throttle_after_deadline st nr_to_scan gfp_mask :
  time_before_eq K (jiffies st) (lowmem_deathpending_timeout st) = false ->
  current_is_dying K st = false ->
  scan_mutex_wait_interrupted st = false ->
  (exists p, In (Ev_send_sig (SIGKILL K) p)
                (events (lowmem_shrink K st nr_to_scan gfp_mask)))
  \/ (retval (lowmem_shrink K st nr_to_scan gfp_mask) = lowmem_rem st
      /\ final (lowmem_shrink K st nr_to_scan gfp_mask) = st
      /\ ~ In (Ev_msleep_interruptible 20)
              (events (lowmem_shrink K st nr_to_scan gfp_mask))).
Proof.
  intros Hwin Hd Hi.
  destruct (Z_lt_le_dec 0 nr_to_scan) as [Hn | Hn].
  2:{ right. rewrite (lowmem_shrink_report K _ _ _ Hd Hn). simpl. tauto. }
  destruct (Z.eq_dec (lowmem_floor K st gfp_mask) (OOM_SCORE_ADJ_MAX + 1))
    as [Hf | Hf].
  { right. rewrite (lowmem_shrink_no_floor K _ _ _ Hd Hn Hi Hf). simpl.
    repeat split. intros H; decompose [or] H; discriminate || contradiction. }
  rewrite (lowmem_shrink_scan K _ _ _ Hd Hn Hi Hf).
  destruct (scan_loop_after_deadline st (lowmem_floor K st gfp_mask)
              (adj_tree_walk (inorder (tasksadj st))) Hwin
              (mk_selection None 0 (lowmem_floor K st gfp_mask)))
    as [s' ->].
  simpl. destruct (selected s') as [sel |]; simpl.
  - left. exists sel. auto.
  - right. repeat split.
    intros H; decompose [or] H; discriminate || contradiction.
Qed.

(** ** Where the scan stops *)

Lemma scan_through_app st min_adj l1 l2 :
  forall s0 s1,
    scan_through K st min_adj s0 l1 = Some s1 ->
    scan_through K st min_adj s0 (l1 ++ l2) = scan_through K st min_adj s1 l2.
Proof.
  induction l1 as [| t l1 IH]; simpl; intros s0 s1 H.
  - congruence.
  - destruct (scan_body K st min_adj s0 t); try discriminate.
    apply IH, H.
Qed.

Lemma scan_through_not_larger st min_adj adj
    (cs : list (task_ptr * task_ptr * Z)) s :
  min_adj <= adj ->
  Forall (fun c => candidate K st (fst (fst c)) (snd (fst c)) adj (snd c)) cs ->
  Forall (fun c => snd c <= selected_tasksize s) cs ->
  selected s <> None ->
  selected_oom_adj s = adj ->
  scan_through K st min_adj s (map (fun c => fst (fst c)) cs) = Some s.
Proof.
  intros Hfloor Hc Hsz Hsel Hadj.
  induction Hc as [| [[t p] sz] cs Hcand Hc IH]; simpl; [reflexivity |].
  inversion Hsz as [| ? ? Hle Hsz']; subst. simpl in *.
  rewrite (scan_body_candidate K _ _ _ _ _ _ _ Hcand Hfloor).
  unfold select_candidate.
  destruct (selected s) as [q |]; [| congruence].
  rewrite Z.ltb_irrefl, Z.eqb_refl. simpl.
  apply Z.leb_le in Hle. rewrite Hle. apply IH, Hsz'.
Qed.

Lemma scan_body_below_tier st min_adj s tsk p adj size :
  candidate K st tsk p adj size ->
  selected s <> None ->
  adj < selected_oom_adj s ->
  scan_body K st min_adj s tsk = Break s.
Proof.
  intros Hc Hsel Hlt.
  destruct (Z_lt_le_dec adj min_adj) as [Hm | Hm].
  - destruct Hc as (Hk & Hr & Ht & Hp & Ha & _).
    unfold scan_body. rewrite Hk, Hr, Ht, Hp, Ha. simpl.
    apply Z.ltb_lt in Hm. rewrite Hm. reflexivity.
  - rewrite (scan_body_candidate K _ _ _ _ _ _ _ Hc Hm).
    unfold select_candidate. destruct (selected s); [| congruence].
    apply Z.ltb_lt in Hlt. rewrite Hlt. reflexivity.
Qed.

(** X19.  The scan ends on the first candidate of lower [oom_adj] that
    follows a selection: with the candidates of the top tier in front,
    the first of the largest of them is the victim, and nothing behind
    the first candidate of a lower tier is looked at, whatever it is. *)
Theorem scan_stops_below_tier st min_adj adj
    (pre post : list (task_ptr * task_ptr * Z)) tsk p size
    low p' adj' size' rest stale :
  min_adj <= adj ->
  Forall (fun c => candidate K st (fst (fst c)) (snd (fst c)) adj (snd c))
         (pre ++ (tsk, p, size) :: post) ->
  Forall (fun c => snd c < size) pre ->
  Forall (fun c => snd c <= size) post ->
  candidate K st low p' adj' size' ->
  adj' < adj ->
  scan_loop K st min_adj (mk_selection None 0 stale)
    (map (fun c => fst (fst c)) (pre ++ (tsk, p, size) :: post) ++ low :: rest)
  = Scan_done (mk_selection (Some p) size adj).
Proof.
  intros Hfloor Hc Hpre Hpost Hlow Hlt.
  apply Forall_app in Hc. destruct Hc as [Hc1 Hc2].
  inversion Hc2 as [| ? ? Hcx Hc3]; subst. simpl in Hcx.
  destruct (scan_through_smaller K st min_adj adj size pre
              (mk_selection None 0 stale) Hfloor Hc1 Hpre)
    as (s & Hs & Hinv); [left; reflexivity |].
  assert (Hsel : select_candidate s p size adj
                 = Continue (mk_selection (Some p) size adj)).
  { unfold select_candidate. destruct (selected s) as [q |] eqn:Hq.
    - destruct Hinv as [Hinv | [Ha Hl]]; [discriminate |].
      rewrite Ha, Z.ltb_irrefl, Z.eqb_refl. simpl.
      assert (H : (size <=? selected_tasksize s) = false)
        by (apply Z.leb_gt; lia).
      rewrite H. reflexivity.
    - reflexivity. }
  assert (Htier : scan_through K st min_adj (mk_selection None 0 stale)
                    (map (fun c => fst (fst c)) (pre ++ (tsk, p, size) :: post))
                  = Some (mk_selection (Some p) size adj)).
  { rewrite map_app. rewrite (scan_through_app _ _ _ _ _ _ Hs).
    cbn [map scan_through fst snd].
    rewrite (scan_body_candidate K _ _ _ _ _ _ _ Hcx Hfloor), Hsel.
    apply (scan_through_not_larger st min_adj adj post); simpl; auto.
    discriminate. }
  rewrite (scan_loop_app K _ _ _ _ _ _ Htier).
  cbn [scan_loop].
  rewrite (scan_body_below_tier st min_adj _ low p' adj' size' Hlow);
    simpl; [reflexivity | discriminate | exact Hlt].
Qed.

(** ** A second call inside the window *)

Lemma each_thread_ext a b p :
  (forall q, tasks a q = tasks b q) -> each_thread a p = each_thread b p.
Proof. intros H. unfold each_thread. rewrite H. reflexivity. Qed.

Lemma test_task_flag_loop_ext a b ts flag :
  (forall q, tasks a q = tasks b q) ->
  test_task_flag_loop a ts flag = test_task_flag_loop b ts flag.
Proof.
  intros H. induction ts as [| t ts IH]; [reflexivity |].
  cbn [test_task_flag_loop]. rewrite H, IH. reflexivity.
Qed.

Lemma find_lock_task_mm_loop_ext a b ts :
  (forall q, tasks a q = tasks b q) ->
  find_lock_task_mm_loop a ts = find_lock_task_mm_loop b ts.
Proof.
  intros H. induction ts as [| t ts IH]; [reflexivity |].
  cbn [find_lock_task_mm_loop]. rewrite H, IH. reflexivity.
Qed.

Lemma lowmem_min_adj_loop_ext a b other_free other_file rows :
  lowmem_adj a = lowmem_adj b ->
  lowmem_minfree a = lowmem_minfree b ->
  lowmem_min_adj_loop a other_free other_file rows
  = lowmem_min_adj_loop b other_free other_file rows.
Proof.
  intros H1 H2. induction rows as [| i rows IH]; [reflexivity |].
  cbn [lowmem_min_adj_loop]. rewrite H1, H2, IH. reflexivity.
Qed.

(** The floor depends on the tables, the counters, the zonelists and on
    whether the caller is kswapd, and on nothing else. *)
Lemma lowmem_floor_ext a b gfp_mask :
  lowmem_adj a = lowmem_adj b ->
  lowmem_adj_size a = lowmem_adj_size b ->
  lowmem_minfree a = lowmem_minfree b ->
  lowmem_minfree_size a = lowmem_minfree_size b ->
  lmk_fast_run a = lmk_fast_run b ->
  global_vm_stat a = global_vm_stat b ->
  node_zonelist a = node_zonelist b ->
  flags (tasks a (current a)) = flags (tasks b (current b)) ->
  lowmem_floor K a gfp_mask = lowmem_floor K b gfp_mask.
Proof.
  intros H1 H2 H3 H4 H5 H6 H7 H8.
  assert (Hother : lowmem_other K a gfp_mask = lowmem_other K b gfp_mask).
  { unfold lowmem_other, tune_lmk_param, current_is_kswapd, global_page_state.
    rewrite H5, H6, H7, H8. reflexivity. }
  unfold lowmem_floor. rewrite Hother.
  unfold lowmem_min_adj, lowmem_array_size. rewrite H2, H4.
  apply lowmem_min_adj_loop_ext; assumption.
Qed.

(** What [send_sig] leaves as it was. *)
Lemma each_thread_send_sig st sig p q :
  each_thread (send_sig K st sig p) q = each_thread st q.
Proof.
  unfold each_thread, send_sig; simpl.
  destruct ((sig =? SIGKILL K) && (q =? p)); reflexivity.
Qed.

Lemma tasks_send_sig_other st sig p q :
  q <> p -> tasks (send_sig K st sig p) q = tasks st q.
Proof.
  intros H. unfold send_sig; simpl.
  apply Z.eqb_neq in H. rewrite H, andb_false_r. reflexivity.
Qed.

Lemma test_task_flag_loop_send_sig st sig p ts flag :
  test_task_flag_loop (send_sig K st sig p) ts flag
  = test_task_flag_loop st ts flag.
Proof.
  induction ts as [| u ts IH]; [reflexivity |].
  cbn [test_task_flag_loop]. rewrite IH.
  unfold send_sig; simpl.
  destruct ((sig =? SIGKILL K) && (u =? p)); reflexivity.
Qed.

Lemma find_lock_task_mm_loop_send_sig st sig p ts :
  find_lock_task_mm_loop (send_sig K st sig p) ts
  = find_lock_task_mm_loop st ts.
Proof.
  induction ts as [| u ts IH]; [reflexivity |].
  cbn [find_lock_task_mm_loop]. rewrite IH.
  unfold send_sig; simpl.
  destruct ((sig =? SIGKILL K) && (u =? p)); reflexivity.
Qed.

Section Marked.

Variables (st st2 : state) (victim : task_ptr).

(** [st2] has the tasks a kill of [victim] leaves: SIGKILL pending on
    the victim and [TIF_MEMDIE] set on it. *)
Hypothesis tasks_marked :
  forall q, tasks st2 q
            = tasks (set_tsk_thread_flag
                       (send_sig K st (SIGKILL K) victim)
                       victim (TIF_MEMDIE K)) q.
Hypothesis in_window :
  time_before_eq K (jiffies st2) (lowmem_deathpending_timeout st2) = true.
Hypothesis flags_differ : TIF_MEMDIE K <> TIF_MM_RELEASED K.

Lemma marked_each_thread p : each_thread st2 p = each_thread st p.
Proof.
  rewrite (each_thread_ext _ _ p tasks_marked).
  rewrite each_thread_set_flag. apply each_thread_send_sig.
Qed.

Lemma marked_released p :
  test_task_flag st2 p (TIF_MM_RELEASED K)
  = test_task_flag st p (TIF_MM_RELEASED K).
Proof.
  unfold test_task_flag. rewrite marked_each_thread.
  rewrite (test_task_flag_loop_ext _ _ _ _ tasks_marked).
  rewrite test_task_flag_loop_set_other_flag by congruence.
  apply test_task_flag_loop_send_sig.
Qed.

Lemma marked_memdie_false p :
  test_task_flag st2 p (TIF_MEMDIE K) = false ->
  ~ In victim (each_thread st p).
Proof.
  unfold test_task_flag. rewrite marked_each_thread.
  rewrite (test_task_flag_loop_ext _ _ _ _ tasks_marked).
  intros H Hin.
  assert (Ht : test_task_flag_loop
                 (set_tsk_thread_flag (send_sig K st (SIGKILL K) victim)
                    victim (TIF_MEMDIE K))
                 (each_thread st p) (TIF_MEMDIE K) = true).
  { apply test_task_flag_loop_true. exists victim. split; [exact Hin |].
    apply set_tsk_thread_flag_marks. }
  congruence.
Qed.

Lemma marked_memdie_absent p :
  ~ In victim (each_thread st p) ->
  test_task_flag st2 p (TIF_MEMDIE K) = test_task_flag st p (TIF_MEMDIE K).
Proof.
  intros Habsent. unfold test_task_flag. rewrite marked_each_thread.
  rewrite (test_task_flag_loop_ext _ _ _ _ tasks_marked).
  rewrite test_task_flag_loop_set_absent by exact Habsent.
  apply test_task_flag_loop_send_sig.
Qed.

Lemma marked_find_lock p :
  find_lock_task_mm st2 p = find_lock_task_mm st p.
Proof.
  unfold find_lock_task_mm. rewrite marked_each_thread.
  rewrite (find_lock_task_mm_loop_ext _ _ _ tasks_marked).
  rewrite find_lock_task_mm_loop_set_flag.
  apply find_lock_task_mm_loop_send_sig.
Qed.

Lemma marked_flags q : flags (tasks st2 q) = flags (tasks st q).
Proof.
  rewrite tasks_marked. unfold set_tsk_thread_flag, send_sig; simpl.
  destruct (q =? victim); destruct (SIGKILL K =? SIGKILL K); reflexivity.
Qed.

Lemma marked_other q : q <> victim -> tasks st2 q = tasks st q.
Proof.
  intros H. rewrite tasks_marked.
  rewrite tasks_set_flag_other by exact H.
  apply tasks_send_sig_other, H.
Qed.

(** One run of the loop body after the kill: it returns 0, or it does
    what it did before the kill, and then it does not select the
    victim. *)
Lemma scan_body_marked min_adj s t :
  (forall x, scan_body K st min_adj s t <> Return_0 x) ->
  scan_body K st2 min_adj s t = Return_0 t
  \/ (scan_body K st2 min_adj s t = scan_body K st min_adj s t
      /\ forall s',
           scan_body K st min_adj s t = Continue s'
           \/ scan_body K st min_adj s t = Break s' ->
           selected s' = Some victim -> s' = s).
Proof.
  intros Hnot.
  destruct (N.land (flags (tasks st t)) (PF_KTHREAD K) =? 0)%N eqn:Hk.
  2:{ right. unfold scan_body. rewrite marked_flags, Hk. simpl.
      split; [reflexivity |]. intros s' [[= <-] | [=]] _. reflexivity. }
  destruct (test_task_flag st t (TIF_MM_RELEASED K)) eqn:Hr.
  { right. unfold scan_body. rewrite marked_flags, marked_released, Hk, Hr.
    simpl. split; [reflexivity |]. intros s' [[= <-] | [=]] _. reflexivity. }
  destruct (test_task_flag st2 t (TIF_MEMDIE K)) eqn:Hm2.
  { left. unfold scan_body.
    rewrite marked_flags, marked_released, Hk, Hr, in_window, Hm2.
    reflexivity. }
  right.
  pose proof (marked_memdie_false t Hm2) as Habsent.
  assert (Hm : test_task_flag st t (TIF_MEMDIE K) = false).
  { rewrite <- (marked_memdie_absent t Habsent). exact Hm2. }
  assert (Hsame : scan_body K st2 min_adj s t = scan_body K st min_adj s t).
  { unfold scan_body.
    rewrite marked_flags, marked_released, marked_find_lock, Hk, Hr, Hm2, Hm.
    rewrite !andb_false_r. simpl.
    destruct (find_lock_task_mm st t) as [p |] eqn:Hp; [| reflexivity].
    assert (Hpv : p <> victim).
    { intros ->. apply Habsent.
      apply (find_lock_task_mm_loop_has_mm st _ _ Hp). }
    rewrite (marked_other p Hpv). reflexivity. }
  split; [exact Hsame |].
  intros s' Hs' Hsel.
  pose proof (scan_body_exit st min_adj s t) as Hb.
  destruct Hs' as [E | E]; rewrite E in Hb;
    (destruct Hb as [-> | (p & size & -> & Hc & _)]; [reflexivity |]);
    simpl in Hsel; injection Hsel as ->;
    destruct Hc as (_ & _ & _ & Hp & _);
    exfalso; apply Habsent;
    apply (find_lock_task_mm_loop_has_mm st _ _ Hp).
Qed.

Lemma scan_loop_marked min_adj walk :
  forall s s1,
    scan_loop K st min_adj s walk = Scan_done s1 ->
    (exists t, scan_loop K st2 min_adj s walk = Scan_return_0 t)
    \/ (scan_loop K st2 min_adj s walk = Scan_done s1
        /\ (selected s1 = Some victim -> selected s = Some victim)).
Proof.
  induction walk as [| t walk IH]; intros s s1 H; simpl in *.
  - right. injection H as <-. auto.
  - assert (Hnot : forall x, scan_body K st min_adj s t <> Return_0 x).
    { intros x E. rewrite E in H. discriminate. }
    destruct (scan_body_marked min_adj s t Hnot) as [E2 | [E2 Hsel]].
    + left. exists t. rewrite E2. reflexivity.
    + rewrite E2.
      destruct (scan_body K st min_adj s t) as [s' | s' | x] eqn:E.
      * destruct (IH _ _ H) as [Hret | [Hdone Hv]]; [left; exact Hret |].
        right. split; [exact Hdone |]. intros Hs1.
        rewrite <- (Hsel s' (or_introl eq_refl) (Hv Hs1)). exact (Hv Hs1).
      * right. injection H as <-. split; [reflexivity |]. intros Hs1.
        rewrite <- (Hsel s' (or_intror eq_refl) Hs1). exact Hs1.
      * discriminate.
Qed.

End Marked.

(** X17.  After a call that killed, a further call made with the same
    [gfp_mask] while [time_before_eq jiffies (time of the kill + HZ)]
    holds, on the state the first call left (the victim with SIGKILL
    pending and [TIF_MEMDIE] set; only the clock has moved since), kills
    nobody, and returns 0 if it was made with [nr_to_scan > 0]. *)
Theorem no_second_kill_back_to_back st nr_to_scan gfp_mask sig victim j nr2 :
  In (Ev_send_sig sig victim)
     (events (lowmem_shrink K st nr_to_scan gfp_mask)) ->
  TIF_MEMDIE K <> TIF_MM_RELEASED K ->
  time_before_eq K j (to_ulong (jiffies st + HZ K)) = true ->
  no_kill (events (lowmem_shrink K
                     (with_jiffies
                        (final (lowmem_shrink K st nr_to_scan gfp_mask)) j)
                     nr2 gfp_mask))
  /\ (0 < nr2 ->
      retval (lowmem_shrink K
                (with_jiffies
                   (final (lowmem_shrink K st nr_to_scan gfp_mask)) j)
                nr2 gfp_mask) = 0).
Proof.
  intros Hkill Hflags Hwin.
  destruct (lowmem_shrink_kill_inv _ _ _ _ _ Hkill)
    as (_ & Hd & Hn & Hi & Hf & s & Hscan & Hsel & Hout).
  rewrite Hout. cbn [after_scan]. rewrite Hsel. cbn [final].
  set (st2 := with_jiffies
                (set_tsk_thread_flag
                   (send_sig K
                      (set_lowmem_deathpending_timeout st
                         (to_ulong (jiffies st + HZ K)))
                      (SIGKILL K) victim)
                   victim (TIF_MEMDIE K)) j).
  assert (Hq : forall q,
             tasks st2 q
             = tasks (set_tsk_thread_flag
                        (send_sig K st (SIGKILL K) victim)
                        victim (TIF_MEMDIE K)) q)
    by reflexivity.
  assert (Hw2 : time_before_eq K (jiffies st2) (lowmem_deathpending_timeout st2)
                = true) by exact Hwin.
  assert (Hfloor : lowmem_floor K st2 gfp_mask = lowmem_floor K st gfp_mask).
  { apply lowmem_floor_ext; try reflexivity.
    apply (marked_flags st st2 victim Hq). }
  destruct (current_is_dying K st2) eqn:Hd2.
  { rewrite (lowmem_shrink_dying K _ _ _ Hd2). simpl. split; [| reflexivity].
    intros sg p [H | []]. discriminate. }
  destruct (Z_lt_le_dec 0 nr2) as [Hn2 | Hn2].
  2:{ rewrite (lowmem_shrink_report K _ _ _ Hd2 Hn2). simpl.
      split; [intros sg p [] | lia]. }
  assert (Hi2 : scan_mutex_wait_interrupted st2 = false) by exact Hi.
  assert (Hf2 : lowmem_floor K st2 gfp_mask <> OOM_SCORE_ADJ_MAX + 1)
    by (rewrite Hfloor; exact Hf).
  rewrite (lowmem_shrink_scan K _ _ _ Hd2 Hn2 Hi2 Hf2).
  rewrite Hfloor.
  change (tasksadj st2) with (tasksadj st).
  destruct (scan_loop_marked st st2 victim Hq Hw2 Hflags _ _ _ _ Hscan)
    as [[t Hret] | [_ Hv]].
  - rewrite Hret. simpl.
    destruct (negb _); simpl; (split; [| reflexivity]);
      intros sg p H; simpl in H; decompose [or] H;
      discriminate || contradiction.
  - specialize (Hv Hsel). discriminate.
Qed.

(** X24.  A task that a call has killed is not signalled again by a
    later call made on the state that call left, at whatever time and
    with whatever arguments: SIGKILL is pending on it, and the loop
    passes over a thread with a fatal signal pending. *)
Theorem victim_not_signalled_again
    st nr_to_scan gfp_mask sig victim j nr2 gfp2 sig2 :
  (forall t, sigkill_pending t = true -> fatal_signal_pending K t = true) ->
  In (Ev_send_sig sig victim)
     (events (lowmem_shrink K st nr_to_scan gfp_mask)) ->
  ~ In (Ev_send_sig sig2 victim)
       (events (lowmem_shrink K
                  (with_jiffies
                     (final (lowmem_shrink K st nr_to_scan gfp_mask)) j)
                  nr2 gfp2)).
Proof.
  intros Hpending Hkill Hagain.
  destruct (lowmem_shrink_kill_inv _ _ _ _ _ Hkill)
    as (_ & _ & _ & _ & _ & s & _ & Hsel & Hout).
  destruct (lowmem_shrink_kill_inv _ _ _ _ _ Hagain)
    as (_ & _ & _ & _ & _ & s2 & Hscan2 & Hsel2 & _).
  destruct (scan_loop_selected _ _ _ _ _ Hscan2)
    as [-> | (tsk & q & size & _ & -> & Hc & _)]; [discriminate |].
  simpl in Hsel2. injection Hsel2 as ->.
  destruct Hc as (_ & _ & _ & _ & _ & Hdie & _).
  assert (Hv : fatal_signal_pending K
                 (tasks (with_jiffies
                           (final (lowmem_shrink K st nr_to_scan gfp_mask)) j)
                        victim) = true).
  { apply Hpending. rewrite Hout. cbn [after_scan]. rewrite Hsel.
    unfold with_jiffies, set_tsk_thread_flag, send_sig; simpl.
    rewrite !Z.eqb_refl. reflexivity. }
  rewrite Hv in Hdie. discriminate.
Qed.

(** ** The free-memory estimate, continued *)

Lemma sum_Z_perm l1 l2 : Permutation l1 l2 -> sum_Z l1 = sum_Z l2.
Proof.
  unfold sum_Z. induction 1; simpl; lia.
Qed.

(** X20.  The result of [tune_lmk_zone_param] does not depend on the
    order in which the zonelist presents its zones. *)
Theorem tune_lmk_zone_param_any_order zl1 zl2 classzone_idx other_free other_file :
  INT_MIN <= other_free <= INT_MAX ->
  (forall f, other_file = Some f -> INT_MIN <= f <= INT_MAX) ->
  Permutation (for_each_zone_zonelist K zl1 (MAX_NR_ZONES K))
              (for_each_zone_zonelist K zl2 (MAX_NR_ZONES K)) ->
  tune_lmk_zone_param K zl1 classzone_idx other_free other_file
  = tune_lmk_zone_param K zl2 classzone_idx other_free other_file.
Proof.
  intros Hfree Hfile Hperm.
  rewrite !(zone_param_closed_form K _ _ _ _ Hfree Hfile).
  rewrite (sum_Z_perm _ _ (Permutation_map (zone_free_share K classzone_idx) Hperm)).
  destruct other_file as [f |]; simpl; [| reflexivity].
  rewrite (sum_Z_perm _ _ (Permutation_map (zone_file_share K classzone_idx) Hperm)).
  reflexivity.
Qed.

(** [tune_lmk_param] in one formula. *)
Lemma tune_lmk_param_closed_form st other_free other_file gfp_mask :
  INT_MIN <= other_free <= INT_MAX ->
  INT_MIN <= other_file <= INT_MAX ->
  tune_lmk_param K st other_free other_file gfp_mask
  = (to_int (other_free
             - sum_Z (map (zone_free_share K
                             (zone_idx (preferred_zone_of K st gfp_mask)))
                          (for_each_zone_zonelist K
                             (node_zonelist st 0 gfp_mask) (MAX_NR_ZONES K)))
             - (if kswapd_balanced K st gfp_mask
                then preferred_zone_share K (preferred_zone_of K st gfp_mask)
                else 0)),
     if kswapd_balanced K st gfp_mask && (lmk_fast_run st =? 0)
     then other_file
     else to_int (other_file
                  - sum_Z (map (zone_file_share K
                                  (zone_idx (preferred_zone_of K st gfp_mask)))
                               (for_each_zone_zonelist K
                                  (node_zonelist st 0 gfp_mask)
                                  (MAX_NR_ZONES K))))).
Proof.
  intros Hfree Hfile.
  assert (Hsome : forall f, Some other_file = Some f -> INT_MIN <= f <= INT_MAX)
    by (intros f [= <-]; exact Hfile).
  assert (Hnone : forall f, @None Z = Some f -> INT_MIN <= f <= INT_MAX)
    by discriminate.
  pose proof (zone_param_closed_form K
                (node_zonelist st 0 gfp_mask)
                (zone_idx (preferred_zone_of K st gfp_mask))
                other_free (Some other_file) Hfree Hsome) as Efull.
  pose proof (zone_param_closed_form K
                (node_zonelist st 0 gfp_mask)
                (zone_idx (preferred_zone_of K st gfp_mask))
                other_free None Hfree Hnone) as Efree.
  unfold kswapd_balanced, preferred_zone_of in *.
  unfold tune_lmk_param, preferred_zone_share.
  destruct (current_is_kswapd K st && zone_watermark_ok K _ 0 _ 0 0); simpl.
  - destruct (lmk_fast_run st =? 0); simpl.
    + rewrite Efree. simpl.
      destruct (zone_watermark_ok K _ 0 0 (_ZONE K) 0);
        rewrite to_int_sub_ulong, to_int_sub_l; reflexivity.
    + rewrite Efull. simpl.
      destruct (zone_watermark_ok K _ 0 0 (_ZONE K) 0);
        rewrite to_int_sub_ulong, to_int_sub_l; reflexivity.
  - rewrite Efull. simpl. rewrite Z.sub_0_r. reflexivity.
Qed.

Lemma sum_Z_nonneg l : Forall (fun x => 0 <= x) l -> 0 <= sum_Z l.
Proof. unfold sum_Z. induction 1; simpl; lia. Qed.

Lemma zone_shares_nonneg classzone_idx z :
  zone_counters_sane z ->
  0 <= zone_free_share K classzone_idx z
  /\ 0 <= zone_file_share K classzone_idx z
  /\ 0 <= preferred_zone_share K z.
Proof.
  intros (H1 & H2 & H3).
  unfold zone_free_share, zone_file_share, preferred_zone_share.
  repeat split.
  - destruct (zone_idx z =? ZONE_MOVABLE K); [lia |].
    destruct (zone_idx z >? classzone_idx); [exact H1 |].
    destruct (zone_idx z <? classzone_idx); [| lia].
    destruct (zone_watermark_ok K z 0 0 classzone_idx 0); [apply H3 | exact H1].
  - destruct (zone_idx z =? ZONE_MOVABLE K); [lia |].
    destruct (zone_idx z >? classzone_idx); lia.
  - destruct (zone_watermark_ok K z 0 0 (_ZONE K) 0); [apply H3 | exact H1].
Qed.

(** X21.  Tuning only ever lowers the two figures: with sane zone
    counters, and as long as the subtractions do not leave the range of
    [int], neither [other_free] nor [other_file] comes out of
    [tune_lmk_param] larger than it went in. *)
Theorem tune_lmk_param_only_lowers st other_free other_file gfp_mask :
  INT_MIN <= other_free <= INT_MAX ->
  INT_MIN <= other_file <= INT_MAX ->
  Forall zone_counters_sane
         (for_each_zone_zonelist K (node_zonelist st 0 gfp_mask)
            (MAX_NR_ZONES K)) ->
  zone_counters_sane (preferred_zone_of K st gfp_mask) ->
  INT_MIN <= other_free
             - sum_Z (map (zone_free_share K
                             (zone_idx (preferred_zone_of K st gfp_mask)))
                          (for_each_zone_zonelist K
                             (node_zonelist st 0 gfp_mask) (MAX_NR_ZONES K)))
             - preferred_zone_share K (preferred_zone_of K st gfp_mask) ->
  INT_MIN <= other_file
             - sum_Z (map (zone_file_share K
                             (zone_idx (preferred_zone_of K st gfp_mask)))
                          (for_each_zone_zonelist K
                             (node_zonelist st 0 gfp_mask) (MAX_NR_ZONES K))) ->
  fst (tune_lmk_param K st other_free other_file gfp_mask) <= other_free
  /\ snd (tune_lmk_param K st other_free other_file gfp_mask) <= other_file.
Proof.
  intros Hfree Hfile Hzones Hpref Hlow1 Hlow2.
  rewrite (tune_lmk_param_closed_form _ _ _ _ Hfree Hfile). simpl.
  set (czi := zone_idx (preferred_zone_of K st gfp_mask)) in *.
  set (zones := for_each_zone_zonelist K (node_zonelist st 0 gfp_mask)
                  (MAX_NR_ZONES K)) in *.
  assert (HA : 0 <= sum_Z (map (zone_free_share K czi) zones)).
  { apply sum_Z_nonneg. apply Forall_map.
    eapply Forall_impl; [| exact Hzones]. intros z Hz.
    apply (zone_shares_nonneg czi z Hz). }
  assert (HB : 0 <= sum_Z (map (zone_file_share K czi) zones)).
  { apply sum_Z_nonneg. apply Forall_map.
    eapply Forall_impl; [| exact Hzones]. intros z Hz.
    apply (zone_shares_nonneg czi z Hz). }
  assert (HC : 0 <= preferred_zone_share K (preferred_zone_of K st gfp_mask)).
  { apply (zone_shares_nonneg czi _ Hpref). }
  unfold INT_MIN, INT_MAX in *.
  split.
  - destruct (kswapd_balanced K st gfp_mask);
      rewrite to_int_small; unfold INT_MIN, INT_MAX; lia.
  - destruct (kswapd_balanced K st gfp_mask && (lmk_fast_run st =? 0));
      [lia |].
    rewrite to_int_small; unfold INT_MIN, INT_MAX; lia.
Qed.

(** X22.  On a machine whose zonelist holds zones of the class zone's
    index only (one zone, as without highmem), and for a caller that is
    not kswapd on a balanced zone, [tune_lmk_param] changes neither
    figure. *)
Theorem tune_lmk_param_single_zone st other_free other_file gfp_mask :
  INT_MIN <= other_free <= INT_MAX ->
  INT_MIN <= other_file <= INT_MAX ->
  kswapd_balanced K st gfp_mask = false ->
  Forall (fun z => zone_idx z = zone_idx (preferred_zone_of K st gfp_mask))
         (for_each_zone_zonelist K (node_zonelist st 0 gfp_mask)
            (MAX_NR_ZONES K)) ->
  tune_lmk_param K st other_free other_file gfp_mask
  = (other_free, other_file).
Proof.
  intros Hfree Hfile Hb Hzones.
  rewrite (tune_lmk_param_closed_form _ _ _ _ Hfree Hfile), Hb. simpl.
  set (czi := zone_idx (preferred_zone_of K st gfp_mask)) in *.
  set (zones := for_each_zone_zonelist K (node_zonelist st 0 gfp_mask)
                  (MAX_NR_ZONES K)) in *.
  assert (HA : sum_Z (map (zone_free_share K czi) zones) = 0
               /\ sum_Z (map (zone_file_share K czi) zones) = 0).
  { clearbody zones. induction Hzones as [| z zs Hz _ IH]; [split; reflexivity |].
    unfold sum_Z in *. simpl. destruct IH as [IH1 IH2]. rewrite IH1, IH2.
    unfold zone_free_share, zone_file_share. rewrite Hz.
    destruct (czi =? ZONE_MOVABLE K); [split; reflexivity |].
    assert (H1 : (czi >? czi) = false) by (rewrite Z.gtb_ltb; apply Z.ltb_irrefl).
    rewrite H1, Z.ltb_irrefl. split; reflexivity. }
  destruct HA as [-> ->]. rewrite !Z.sub_0_r.
  rewrite !to_int_small by assumption. reflexivity.
Qed.

(** ** From registration to the victim *)

Section TopTier.

Hypothesis rb_insert_color_inorder :
  forall t, inorder (rb_insert_color K t) = inorder t.

Lemma top_tier_split st nodes :
  forall e,
    adj_descending st (e :: nodes) ->
    exists tier lower,
      e :: nodes = (e :: tier) ++ lower
      /\ Forall (fun t => adj_of st t = adj_of st e) (e :: tier)
      /\ Forall (fun t => adj_of st t < adj_of st e) lower.
Proof.
  induction nodes as [| x rest IH]; intros e Hs.
  - exists [], []. repeat split; repeat constructor.
  - inversion Hs as [| ? ? Hs' Hall]; subst.
    inversion Hall as [| ? ? Hx Hrest]; subst.
    destruct (Z.eq_dec (adj_of st x) (adj_of st e)) as [Heq | Hne].
    + destruct (IH x Hs') as (tier & lower & E & Ht & Hl).
      exists (x :: tier), lower. rewrite E. repeat split.
      * constructor; [reflexivity |].
        eapply Forall_impl; [| exact Ht]. simpl. intros; lia.
      * eapply Forall_impl; [| exact Hl]. simpl. intros; lia.
    + exists [], (x :: rest). repeat split; [repeat constructor |].
      constructor; [lia |].
      inversion Hs' as [| ? ? _ Hbelow]; subst.
      rewrite Forall_forall in *. intros y Hy.
      specialize (Hbelow y Hy). simpl in Hbelow. lia.
Qed.

Lemma first_largest_split (sz : task_ptr -> Z) tier :
  tier <> [] ->
  exists pre x post,
    tier = pre ++ x :: post
    /\ Forall (fun t => sz t < sz x) pre
    /\ Forall (fun t => sz t <= sz x) post.
Proof.
  induction tier as [| e tier IH]; [congruence |]. intros _.
  destruct tier as [| e' tier'].
  - exists [], e, []. repeat split; constructor.
  - destruct IH as (pre & x & post & E & Hpre & Hpost); [discriminate |].
    destruct (Z_lt_le_dec (sz e) (sz x)) as [Hlt | Hge].
    + exists (e :: pre), x, post. rewrite E. repeat split; [| exact Hpost].
      constructor; assumption.
    + exists [], e, (e' :: tier'). repeat split; [constructor |].
      rewrite E. apply Forall_app. split.
      * eapply Forall_impl; [| exact Hpre]. simpl. intros; lia.
      * constructor; [lia |].
        eapply Forall_impl; [| exact Hpost]. simpl. intros; lia.
Qed.

(** The loop over a whole tier of candidates, started with nothing
    selected, gets through it with the first of its largest selected. *)
Lemma scan_through_tier st min_adj adj
    (pre post : list (task_ptr * task_ptr * Z)) tsk p size stale :
  min_adj <= adj ->
  Forall (fun c => candidate K st (fst (fst c)) (snd (fst c)) adj (snd c))
         (pre ++ (tsk, p, size) :: post) ->
  Forall (fun c => snd c < size) pre ->
  Forall (fun c => snd c <= size) post ->
  scan_through K st min_adj (mk_selection None 0 stale)
    (map (fun c => fst (fst c)) (pre ++ (tsk, p, size) :: post))
  = Some (mk_selection (Some p) size adj).
Proof.
  intros Hfloor Hc Hpre Hpost.
  apply Forall_app in Hc. destruct Hc as [Hc1 Hc2].
  inversion Hc2 as [| ? ? Hcx Hc3]; subst. simpl in Hcx.
  destruct (scan_through_smaller K st min_adj adj size pre
              (mk_selection None 0 stale) Hfloor Hc1 Hpre)
    as (s & Hs & Hinv); [left; reflexivity |].
  assert (Hsel : select_candidate s p size adj
                 = Continue (mk_selection (Some p) size adj)).
  { unfold select_candidate. destruct (selected s) as [q |] eqn:Hq.
    - destruct Hinv as [Hinv | [Ha Hl]]; [discriminate |].
      rewrite Ha, Z.ltb_irrefl, Z.eqb_refl. simpl.
      assert (H : (size <=? selected_tasksize s) = false)
        by (apply Z.leb_gt; lia).
      rewrite H. reflexivity.
    - reflexivity. }
  rewrite map_app. rewrite (scan_through_app _ _ _ _ _ _ Hs).
  cbn [map scan_through fst snd].
  rewrite (scan_body_candidate K _ _ _ _ _ _ _ Hcx Hfloor), Hsel.
  apply (scan_through_not_larger st min_adj adj post); simpl; auto.
  discriminate.
Qed.

(** X23.  Tasks are registered in an empty index; each is the holder of
    its own mm and passes the filters of the loop, with [sz] its
    tasksize; some task is at or above the floor and the tasks are not
    all of one [oom_adj].  Then a call that gets the mutex kills one of
    them: a task of the largest [oom_adj], and among those a task of the
    largest tasksize. *)
Theorem lowmem_shrink_kills_largest_of_top_tier
    st0 l (sz : task_ptr -> Z) nr_to_scan gfp_mask :
  tasksadj st0 = RB_ROOT ->
  (forall t, In t l ->
     candidate K (register_all K st0 l) t t
               (adj_of (register_all K st0 l) t) (sz t)) ->
  (exists t, In t l
             /\ lowmem_floor K (register_all K st0 l) gfp_mask
                <= adj_of (register_all K st0 l) t) ->
  (exists t t', In t l /\ In t' l
                /\ adj_of (register_all K st0 l) t
                   < adj_of (register_all K st0 l) t') ->
  lowmem_floor K (register_all K st0 l) gfp_mask <> OOM_SCORE_ADJ_MAX + 1 ->
  current_is_dying K (register_all K st0 l) = false ->
  0 < nr_to_scan ->
  scan_mutex_wait_interrupted (register_all K st0 l) = false ->
  exists victim,
    In victim l
    /\ events (lowmem_shrink K (register_all K st0 l) nr_to_scan gfp_mask)
       = [Ev_mutex_lock; Ev_send_sig (SIGKILL K) victim;
          Ev_set_tsk_thread_flag victim (TIF_MEMDIE K);
          Ev_msleep_interruptible 20; Ev_mutex_unlock]
    /\ retval (lowmem_shrink K (register_all K st0 l) nr_to_scan gfp_mask)
       = to_int (lowmem_rem (register_all K st0 l) - sz victim)
    /\ (forall t, In t l ->
          adj_of (register_all K st0 l) t
          <= adj_of (register_all K st0 l) victim)
    /\ (forall t, In t l ->
          adj_of (register_all K st0 l) t
          = adj_of (register_all K st0 l) victim ->
          sz t <= sz victim).
Proof.
  intros Hempty Hcand (tf & Htf & Hfloor) (tl & th & Htl & Hth & Hlt)
         Hne Hd Hn Hi.
  set (st := register_all K st0 l) in *.
  assert (Ht : tasks st = tasks st0)
    by apply (register_all_tasks K).
  assert (Hs0 : adj_descending st0 (inorder (tasksadj st0))).
  { rewrite Hempty. constructor. }
  destruct (register_all_inorder K rb_insert_color_inorder st0 l Hs0)
    as [Hin Hdesc0].
  fold st in Hin, Hdesc0.
  assert (Hdesc : adj_descending st (inorder (tasksadj st)))
    by (apply (adj_descending_ext st0); assumption).
  assert (Hperm : Permutation (inorder (tasksadj st)) l).
  { rewrite Hin, Hempty. simpl.
    rewrite <- (app_nil_r l) at 2. apply insert_all_perm. }
  assert (Hmem : forall x, In x (inorder (tasksadj st)) <-> In x l).
  { intros x. split; intros Hx.
    - eapply Permutation_in; [exact Hperm | exact Hx].
    - eapply Permutation_in; [apply Permutation_sym, Hperm | exact Hx]. }
  destruct (inorder (tasksadj st)) as [| e nodes] eqn:Enodes.
  { exfalso. apply (proj2 (Hmem tf) Htf). }
  destruct (top_tier_split st nodes e Hdesc) as (tier & lower & E & Htier & Hlower).
  assert (Htop : forall t, In t l -> adj_of st t <= adj_of st e).
  { intros t Hin'. apply (adj_descending_head st e nodes Hdesc), Hmem, Hin'. }
  assert (Hlow_ne : lower <> []).
  { intros ->. rewrite app_nil_r in E.
    assert (Hl1 : In tl (e :: tier)) by (rewrite <- E; apply Hmem, Htl).
    rewrite Forall_forall in Htier. specialize (Htier tl Hl1).
    specialize (Htop th Hth). lia. }
  destruct (first_largest_split sz (e :: tier)) as (pre & x & post & Ex & Hpre & Hpost);
    [discriminate |].
  assert (Hxt : In x (e :: tier)).
  { rewrite Ex. apply in_or_app. right. left. reflexivity. }
  assert (Hxl : In x l).
  { apply Hmem. rewrite E. apply in_or_app. left. exact Hxt. }
  assert (Hxa : adj_of st x = adj_of st e).
  { rewrite Forall_forall in Htier. apply Htier, Hxt. }
  assert (Hm : lowmem_floor K st gfp_mask <= adj_of st e).
  { specialize (Htop tf Htf). lia. }
  (* the tier as triples *)
  set (tr := fun t : task_ptr => (t, t, sz t)).
  assert (Hmap : forall ts, map (fun c : task_ptr * task_ptr * Z => fst (fst c))
                                (map tr ts) = ts).
  { intros ts. rewrite map_map. simpl. apply map_id. }
  assert (Hctier : Forall (fun c => candidate K st (fst (fst c)) (snd (fst c))
                                      (adj_of st e) (snd c))
                          (map tr pre ++ tr x :: map tr post)).
  { change (map tr pre ++ tr x :: map tr post)
      with (map tr pre ++ map tr (x :: post)).
    rewrite <- map_app, <- Ex. apply Forall_map.
    rewrite Forall_forall in *. intros t Hti. simpl.
    rewrite <- (Htier t Hti). apply Hcand. apply Hmem. rewrite E.
    apply in_or_app. left. exact Hti. }
  assert (Hthrough :
            scan_through K st (lowmem_floor K st gfp_mask)
              (mk_selection None 0 (lowmem_floor K st gfp_mask)) (e :: tier)
            = Some (mk_selection (Some x) (sz x) (adj_of st e))).
  { rewrite <- (Hmap (e :: tier)). rewrite Ex, map_app. cbn [map].
    apply (scan_through_tier st _ (adj_of st e) (map tr pre) (map tr post)
             x x (sz x) _ Hm Hctier).
    - apply Forall_map. exact Hpre.
    - apply Forall_map. exact Hpost. }
  assert (Hscan :
            scan_loop K st (lowmem_floor K st gfp_mask)
              (mk_selection None 0 (lowmem_floor K st gfp_mask))
              (adj_tree_walk (e :: nodes))
            = Scan_done (mk_selection (Some x) (sz x) (adj_of st e))).
  { rewrite adj_tree_walk_removelast, E.
    rewrite removelast_app by exact Hlow_ne.
    rewrite (scan_loop_app K _ _ _ _ _ _ Hthrough).
    destruct (removelast lower) as [| low rest] eqn:Erl; [reflexivity |].
    cbn [scan_loop].
    assert (Hlowin : In low lower).
    { destruct (exists_last Hlow_ne) as (body & z & ->).
      rewrite removelast_last in Erl. subst body.
      apply in_or_app. left. left. reflexivity. }
    assert (Hlowl : In low l).
    { apply Hmem. rewrite E. apply in_or_app. right. exact Hlowin. }
    rewrite (scan_body_below_tier st _ _ low low (adj_of st low) (sz low)
               (Hcand low Hlowl)); simpl; [reflexivity | discriminate |].
    rewrite Forall_forall in Hlower. apply Hlower, Hlowin. }
  exists x. split; [exact Hxl |].
  rewrite (lowmem_shrink_scan K _ _ _ Hd Hn Hi Hne).
  rewrite Enodes, Hscan. cbn [after_scan selected selected_tasksize events retval].
  split; [reflexivity |]. split; [reflexivity |]. split.
  - intros t Hti. rewrite Hxa. apply Htop, Hti.
  - intros t Hti Hta.
    assert (Htt : In t (e :: tier)).
    { apply Hmem in Hti. rewrite E in Hti. apply in_app_or in Hti.
      destruct Hti as [Hti | Hti]; [exact Hti |].
      rewrite Forall_forall in Hlower. specialize (Hlower t Hti). lia. }
    rewrite Ex in Htt. apply in_app_or in Htt.
    rewrite Forall_forall in Hpre, Hpost.
    destruct Htt as [Htt | [<- | Htt]];
      [specialize (Hpre t Htt) | | specialize (Hpost t Htt)]; lia.
Qed.

End TopTier.

End Further.

(** * The statements on concrete states *)

(** A single-threaded user process passes every filter of the loop
    body. *)
Ltac candidate_by_computation m :=
  unfold candidate; repeat split;
  try reflexivity; try (exists m; split; reflexivity); try lia.

Lemma example_rb_insert_color_inorder :
  forall t, inorder (rb_insert_color example_kernel t) = inorder t.
Proof. reflexivity. Qed.

(** ** C1 *)

(** On the registry built from A (task 1), B (task 2) and C (task 3)
    with floor 6, the index is walked downwards in oom_adj, from 12 to 6,
    and the task killed is C, not B. *)
Lemma scan_ascending_selects_B_counterexample :
  lowmem_floor example_kernel abc_state 0 = 6
  /\ inorder (tasksadj abc_state) = [3; 2; 1]
  /\ map (adj_of abc_state) (inorder (tasksadj abc_state)) = [12; 6; 6]
  /\ ~ Sorted Z.le (map (adj_of abc_state) (inorder (tasksadj abc_state)))
  /\ events (lowmem_shrink example_kernel abc_state 1 0)
     = [Ev_mutex_lock; Ev_send_sig 9 3; Ev_set_tsk_thread_flag 3 18;
        Ev_msleep_interruptible 20; Ev_mutex_unlock]
  /\ ~ In (Ev_send_sig 9 2) (events (lowmem_shrink example_kernel abc_state 1 0)).
Proof.
  repeat split; try (vm_compute; reflexivity).
  - intros H. vm_compute in H.
    inversion H as [| ? ? _ Hhd]; subst.
    inversion Hhd as [| ? ? Hle]; subst. vm_compute in Hle. apply Hle. reflexivity.
  - vm_compute. intros H; decompose [or] H; discriminate || contradiction.
Qed.

Lemma scan_three_candidates_witness :
  Permutation [2; 3; 1] [1; 2; 3]
  /\ lowmem_floor example_kernel
       (register_all example_kernel abc_boot [2; 3; 1]) 0 = 6
  /\ events (lowmem_shrink example_kernel
               (register_all example_kernel abc_boot [2; 3; 1]) 1 0)
     = [Ev_mutex_lock; Ev_send_sig 9 3; Ev_set_tsk_thread_flag 3 18;
        Ev_msleep_interruptible 20; Ev_mutex_unlock].
Proof.
  assert (Hperm : Permutation [2; 3; 1] [1; 2; 3]).
  { apply Permutation_sym.
    apply (Permutation_cons_app [2; 3] [] 1). apply Permutation_refl. }
  split; [exact Hperm |]. split; [reflexivity |].
  apply (scan_three_candidates example_kernel example_rb_insert_color_inorder
           abc_boot [2; 3; 1] 1 2 3 1 0).
  - reflexivity.
  - exact Hperm.
  - candidate_by_computation (mk_mm 0 200).
  - candidate_by_computation (mk_mm 0 500).
  - candidate_by_computation (mk_mm 0 10).
  - reflexivity.
  - lia.
  - reflexivity.
  - reflexivity.
Defined.

(** ** C2 *)

(** The module's initial tables: 1000 free and 1000 file pages give floor
    0, 5000 and 5000 give floor 12; the same with five floors over the
    four levels, where 20000 and 20000 cross no row.  With two floors, or
    two levels, 3000 and 3000 cross no row: the row of 4096 pages, floor
    6, is not looked at. *)
Lemma lowmem_min_adj_first_row_witness :
  lowmem_min_adj abc_boot 1000 1000 = 0
  /\ lowmem_min_adj abc_boot 5000 5000 = 12
  /\ lowmem_min_adj five_floors_state 1000 1000 = 0
  /\ lowmem_min_adj five_floors_state 5000 5000 = 12
  /\ lowmem_min_adj five_floors_state 20000 20000 = OOM_SCORE_ADJ_MAX + 1
  /\ lowmem_min_adj abc_boot 3000 3000 = 6
  /\ lowmem_min_adj two_floors_state 3000 3000 = OOM_SCORE_ADJ_MAX + 1
  /\ lowmem_min_adj two_levels_state 3000 3000 = OOM_SCORE_ADJ_MAX + 1.
Proof.
  split.
  { apply (proj1 (lowmem_min_adj_first_row abc_boot 1000 1000) 0%nat).
      + vm_compute. reflexivity.
      + simpl. lia.
      + simpl. lia.
      + intros j Hj. lia. }
  split.
  { apply (proj1 (lowmem_min_adj_first_row abc_boot 5000 5000) 3%nat).
      + vm_compute. reflexivity.
      + simpl. lia.
      + simpl. lia.
      + intros j Hj [H1 H2].
        destruct j as [| [| [| j]]]; simpl in H1; lia. }
  split.
  { apply (proj1 (lowmem_min_adj_first_row five_floors_state 1000 1000) 0%nat).
      + vm_compute. reflexivity.
      + simpl. lia.
      + simpl. lia.
      + intros j Hj. lia. }
  split.
  { apply (proj1 (lowmem_min_adj_first_row five_floors_state 5000 5000) 3%nat).
      + vm_compute. reflexivity.
      + simpl. lia.
      + simpl. lia.
      + intros j Hj [H1 H2].
        destruct j as [| [| [| j]]]; simpl in H1; lia. }
  split.
  { apply (proj2 (lowmem_min_adj_first_row five_floors_state 20000 20000)).
      intros j Hj [H1 H2].
      change (Z.of_nat j < 4) in Hj.
      destruct j as [| [| [| [| j]]]]; simpl in H1; lia. }
  split.
  { apply (proj1 (lowmem_min_adj_first_row abc_boot 3000 3000) 2%nat).
      + vm_compute. reflexivity.
      + simpl. lia.
      + simpl. lia.
      + intros j Hj [H1 H2].
        destruct j as [| [| j]]; simpl in H1; lia. }
  split.
  { apply (proj2 (lowmem_min_adj_first_row two_floors_state 3000 3000)).
      intros j Hj [H1 H2].
      change (Z.of_nat j < 2) in Hj.
      destruct j as [| [| j]]; simpl in H1; lia. }
  { apply (proj2 (lowmem_min_adj_first_row two_levels_state 3000 3000)).
      intros j Hj [H1 H2].
      change (Z.of_nat j < 2) in Hj.
      destruct j as [| [| j]]; simpl in H1; lia. }
Defined.

(** ** C3 *)

(** Tasks 1, 2 and 4 have oom_adj 6 and sizes 200, 500 and 500: task 2
    is selected, and task 4, of the same size, does not replace it. *)
Lemma scan_prefers_larger_tasksize_witness :
  scan_body example_kernel tie_state 6 (mk_selection (Some 2) 500 6) 4
  = Continue (mk_selection (Some 2) 500 6)
  /\ scan_body example_kernel tie_state 6 (mk_selection (Some 1) 200 6) 2
     = Continue (mk_selection (Some 2) 500 6)
  /\ scan_loop example_kernel tie_state 6 (mk_selection None 0 6) [1; 2; 4]
     = Scan_done (mk_selection (Some 2) 500 6).
Proof.
  assert (Hfloor : 6 <= 6) by lia.
  pose proof (scan_prefers_larger_tasksize example_kernel tie_state 6 6 Hfloor)
    as [Hstep Hscan].
  split; [| split].
  - apply (Hstep (mk_selection (Some 2) 500 6) 2 4 4 500);
      try reflexivity.
    candidate_by_computation (mk_mm 0 500).
  - apply (Hstep (mk_selection (Some 1) 200 6) 1 2 2 500);
      try reflexivity.
    candidate_by_computation (mk_mm 0 500).
  - apply (Hscan [(1, 1, 200)] [(4, 4, 500)] 2 2 500 6).
    + repeat constructor; simpl.
      * candidate_by_computation (mk_mm 0 200).
      * candidate_by_computation (mk_mm 0 500).
      * candidate_by_computation (mk_mm 0 500).
    + repeat constructor.
    + repeat constructor. simpl. lia.
Defined.

(** ** C4 *)

(** A first call kills task 5 at jiffies 5000; the deadline is 5100.  At
    jiffies 5010 task 5 has dropped its mm and still carries
    [TIF_MEMDIE]: the loop passes over it and the call kills task 6.  It
    does the same when the task that carries [TIF_MEMDIE] is a kernel
    thread. *)
Lemma lowmem_shrink_second_kill_in_window :
  In (Ev_send_sig 9 5) (events (lowmem_shrink example_kernel grace_state 1 0))
  /\ lowmem_deathpending_timeout after_mm_release = 5100
  /\ jiffies after_mm_release = 5010
  /\ time_before_eq example_kernel (jiffies after_mm_release)
       (lowmem_deathpending_timeout after_mm_release) = true
  /\ adj_tree_walk (inorder (tasksadj after_mm_release)) = [5; 6]
  /\ test_task_flag after_mm_release 5 (TIF_MEMDIE example_kernel) = true
  /\ events (lowmem_shrink example_kernel after_mm_release 1 0)
     = [Ev_mutex_lock; Ev_send_sig 9 6; Ev_set_tsk_thread_flag 6 18;
        Ev_msleep_interruptible 20; Ev_mutex_unlock]
  /\ retval (lowmem_shrink example_kernel after_mm_release 1 0) = 3900
  /\ time_before_eq example_kernel (jiffies marked_kthread_state)
       (lowmem_deathpending_timeout marked_kthread_state) = true
  /\ adj_tree_walk (inorder (tasksadj marked_kthread_state)) = [5; 6]
  /\ test_task_flag marked_kthread_state 5 (TIF_MEMDIE example_kernel) = true
  /\ events (lowmem_shrink example_kernel marked_kthread_state 1 0)
     = [Ev_mutex_lock; Ev_send_sig 9 6; Ev_set_tsk_thread_flag 6 18;
        Ev_msleep_interruptible 20; Ev_mutex_unlock].
Proof.
  repeat split; try (vm_compute; reflexivity).
  vm_compute. right. left. reflexivity.
Qed.

(** The same second call made before task 5 has dropped its mm returns 0
    and only sleeps. *)
Lemma lowmem_shrink_throttled_witness :
  In (Ev_send_sig 9 5) (events (lowmem_shrink example_kernel grace_state 1 0))
  /\ time_before_eq example_kernel (jiffies after_first_kill)
       (to_ulong (jiffies grace_state + HZ example_kernel)) = true
  /\ retval (lowmem_shrink example_kernel after_first_kill 1 0) = 0
  /\ events (lowmem_shrink example_kernel after_first_kill 1 0)
     = [Ev_mutex_lock; Ev_msleep_interruptible 20; Ev_mutex_unlock].
Proof.
  assert (Hkill : In (Ev_send_sig 9 5)
                     (events (lowmem_shrink example_kernel grace_state 1 0))).
  { vm_compute. right. left. reflexivity. }
  split; [exact Hkill |]. split; [reflexivity |].
  assert (Hfloor : lowmem_floor example_kernel after_first_kill 0
                   <> OOM_SCORE_ADJ_MAX + 1).
  { vm_compute. discriminate. }
  destruct (lowmem_shrink_throttled example_kernel
              grace_state 1 0 9 5 after_first_kill 1 0 [] 5 [6]
              (mk_selection None 0 6)
              Hkill eq_refl eq_refl eq_refl eq_refl eq_refl Hfloor
              eq_refl eq_refl eq_refl eq_refl eq_refl)
    as (Hret & _ & _ & Hother).
  split; [exact Hret |].
  apply Hother. reflexivity.
Defined.

(** ** C5 *)

(** A caller that is already dying gets 0 from a call with
    [nr_to_scan = 0], while the four LRU counters add up to 4000. *)
Lemma lowmem_shrink_report_dying_caller :
  current_is_dying example_kernel dying_caller_state = true
  /\ global_page_state dying_caller_state NR_ACTIVE_ANON
     + global_page_state dying_caller_state NR_ACTIVE_FILE
     + global_page_state dying_caller_state NR_INACTIVE_ANON
     + global_page_state dying_caller_state NR_INACTIVE_FILE = 4000
  /\ retval (lowmem_shrink example_kernel dying_caller_state 0 0) = 0
  /\ retval (lowmem_shrink example_kernel dying_caller_state 0 0)
     <> global_page_state dying_caller_state NR_ACTIVE_ANON
        + global_page_state dying_caller_state NR_ACTIVE_FILE
        + global_page_state dying_caller_state NR_INACTIVE_ANON
        + global_page_state dying_caller_state NR_INACTIVE_FILE.
Proof.
  repeat split; try (vm_compute; reflexivity).
  vm_compute. discriminate.
Qed.

Lemma lowmem_shrink_report_only_witness :
  lowmem_floor example_kernel abc_state 0 = 6
  /\ events (lowmem_shrink example_kernel abc_state 0 0) = []
  /\ retval (lowmem_shrink example_kernel abc_state 0 0) = 4000.
Proof.
  split; [reflexivity |].
  assert (Hn : 0 <= 0) by lia.
  destruct (lowmem_shrink_report_only example_kernel abc_state 0 0 Hn eq_refl)
    as (_ & Hev & _ & _ & Hret).
  split; [exact Hev |].
  apply Hret. vm_compute. split; discriminate.
Defined.

(** ** C6 *)

(** A [ZONE_MOVABLE] zone above the class zone, with 100 free pages and
    500 file pages that are not shmem, takes nothing off either figure;
    and for kswapd with [lmk_fast_run = 0] the highmem zone, above the
    class zone with 500 such file pages, takes nothing off [other_file]. *)
Lemma tune_lmk_zone_param_skips_zones :
  In movable_zone
     (for_each_zone_zonelist example_kernel [movable_zone; normal_zone]
        (MAX_NR_ZONES example_kernel))
  /\ zone_idx movable_zone > 0
  /\ zone_page_state movable_zone NR_FREE_PAGES = 100
  /\ zone_page_state movable_zone NR_FILE_PAGES
     - zone_page_state movable_zone NR_SHMEM = 500
  /\ tune_lmk_zone_param example_kernel [movable_zone; normal_zone] 0
       3000 (Some 3000) = (3000, Some 3000)
  /\ zone_idx highmem_zone
     > zone_idx (preferred_zone_of example_kernel (kswapd_state 0) 0)
  /\ zone_page_state highmem_zone NR_FILE_PAGES
     - zone_page_state highmem_zone NR_SHMEM = 500
  /\ to_int (to_ulong (global_page_state (kswapd_state 0) NR_FILE_PAGES
                       - global_page_state (kswapd_state 0) NR_SHMEM)) = 3500
  /\ snd (lowmem_other example_kernel (kswapd_state 0) 0) = 3500.
Proof.
  repeat split; try (vm_compute; reflexivity).
  vm_compute. left. reflexivity.
Qed.

Lemma tune_lmk_zone_param_shares_witness :
  tune_lmk_zone_param example_kernel [highmem_zone; normal_zone] 0
    3100 (Some 3500) = (3000, Some 3000)
  /\ tune_lmk_zone_param example_kernel [reserved_normal_zone; highmem_zone] 1
       100 None = (-2900, None).
Proof.
  split.
  - refine (proj1 (tune_lmk_zone_param_shares example_kernel
                     [highmem_zone; normal_zone] 0 3100 (Some 3500) _ _)).
    + vm_compute. split; discriminate.
    + intros f [= <-]. vm_compute. split; discriminate.
  - refine (proj1 (tune_lmk_zone_param_shares example_kernel
                     [reserved_normal_zone; highmem_zone] 1 100 None _ _)).
    + vm_compute. split; discriminate.
    + discriminate.
Defined.

(** ** C7 *)

(** kswapd on a balanced preferred zone: with [lmk_fast_run = 1] the 500
    file pages of the highmem zone are taken off [other_file]; with
    [lmk_fast_run = 0] they are not. *)
Lemma fast_run_subtracts_file_counterexample :
  kswapd_balanced example_kernel (kswapd_state 1) 0 = true
  /\ lmk_fast_run (kswapd_state 1) = 1
  /\ tune_lmk_param example_kernel (kswapd_state 1) 3100 3500 0 = (3000, 3000)
  /\ snd (tune_lmk_param example_kernel (kswapd_state 1) 3100 3500 0) <> 3500
  /\ kswapd_balanced example_kernel (kswapd_state 0) 0 = true
  /\ lmk_fast_run (kswapd_state 0) = 0
  /\ tune_lmk_param example_kernel (kswapd_state 0) 3100 3500 0 = (3000, 3500).
Proof.
  repeat split; try (vm_compute; reflexivity).
  vm_compute. discriminate.
Qed.

Lemma tune_lmk_param_fast_run_witness :
  tune_lmk_param example_kernel (kswapd_state 1) 3100 3500 0 = (3000, 3000)
  /\ tune_lmk_param example_kernel (kswapd_state 0) 3100 3500 0 = (3000, 3500)
  /\ tune_lmk_param example_kernel abc_state 3100 3500 0 = (3100, 3500).
Proof.
  assert (H1 : INT_MIN <= 3100 <= INT_MAX) by (vm_compute; split; discriminate).
  assert (H2 : INT_MIN <= 3500 <= INT_MAX) by (vm_compute; split; discriminate).
  split; [| split].
  - refine (proj1 (tune_lmk_param_fast_run example_kernel (kswapd_state 1)
                     3100 3500 0 H1 H2) eq_refl _).
    discriminate.
  - exact (proj1 (proj2 (tune_lmk_param_fast_run example_kernel
                           (kswapd_state 0) 3100 3500 0 H1 H2))
                 eq_refl eq_refl).
  - exact (proj2 (proj2 (tune_lmk_param_fast_run example_kernel
                           abc_state 3100 3500 0 H1 H2))
                 eq_refl).
Defined.

(** ** C8, C9, C10 *)

Lemma lowmem_shrink_lock_interrupted_witness :
  scan_mutex_wait_interrupted interrupted_state = true
  /\ lowmem_shrink example_kernel interrupted_state 1 0
     = mk_outcome 0 [] interrupted_state.
Proof.
  split; [reflexivity |].
  assert (Hn : 0 < 1) by lia.
  exact (proj2 (proj2 (proj2
           (lowmem_shrink_lock_interrupted example_kernel interrupted_state
              1 0 Hn eq_refl))) eq_refl).
Defined.

Lemma lowmem_shrink_admission_guard_witness :
  retval (lowmem_shrink example_kernel dying_caller_state 1 0) = 0
  /\ events (lowmem_shrink example_kernel dying_caller_state 1 0)
     = [Ev_set_tsk_thread_flag 100 18].
Proof.
  assert (Hexit : N.land (flags (tasks dying_caller_state
                            (group_leader (tasks dying_caller_state
                                             (current dying_caller_state)))))
                         (PF_EXITING example_kernel) <> 0%N).
  { vm_compute. discriminate. }
  assert (Hmark : exists t,
             In t (each_thread dying_caller_state
                     (group_leader (tasks dying_caller_state
                                      (current dying_caller_state))))
             /\ test_tsk_thread_flag (tasks dying_caller_state t)
                  (TIF_MEMDIE example_kernel) = true).
  { exists 100. split; [left; reflexivity | reflexivity]. }
  destruct (lowmem_shrink_admission_guard example_kernel dying_caller_state
              1 0 Hexit Hmark) as (Hret & Hev & _).
  split; [exact Hret | exact Hev].
Defined.

Lemma scan_mutex_released_once_witness :
  exists mid,
    events (lowmem_shrink example_kernel abc_state 1 0)
    = Ev_mutex_lock :: mid ++ [Ev_mutex_unlock]
    /\ ~ In Ev_mutex_lock mid /\ ~ In Ev_mutex_unlock mid.
Proof.
  assert (Hlock : In Ev_mutex_lock
                     (events (lowmem_shrink example_kernel abc_state 1 0))).
  { vm_compute. left. reflexivity. }
  exact (proj2 (scan_mutex_released_once example_kernel abc_state 1 0 Hlock)).
Defined.

(** ** The further properties on concrete states *)

Lemma tree_of_list_inorder nodes : inorder (tree_of_list nodes) = nodes.
Proof.
  induction nodes as [| e rest IH]; simpl; [reflexivity |].
  rewrite IH. reflexivity.
Qed.

Lemma example_rb_erase_inorder task t :
  NoDup (inorder t) -> In task (inorder t) ->
  inorder (example_rb_erase task t) = remove Z.eq_dec task (inorder t).
Proof. intros _ _. apply tree_of_list_inorder. Qed.

Lemma abc_state_descending :
  adj_descending abc_state (inorder (tasksadj abc_state)).
Proof.
  change (inorder (tasksadj abc_state)) with [3; 2; 1].
  unfold adj_descending.
  repeat (constructor; try (vm_compute; discriminate)).
Qed.

Lemma abc_state_nodup : NoDup (inorder (tasksadj abc_state)).
Proof.
  change (inorder (tasksadj abc_state)) with [3; 2; 1].
  repeat constructor; simpl; intros H; decompose [or] H;
    discriminate || contradiction.
Qed.

(** Task 8, of oom_adj 0, goes behind the three registered tasks. *)
Lemma add_2_adj_tree_position_witness :
  exists pre post,
    inorder (tasksadj abc_state) = pre ++ post
    /\ inorder (tasksadj (add_2_adj_tree example_kernel abc_state 8))
       = pre ++ 8 :: post
    /\ Forall (fun e => adj_of abc_state 8 < adj_of abc_state e) pre
    /\ Forall (fun e => adj_of abc_state e <= adj_of abc_state 8) post.
Proof.
  exact (add_2_adj_tree_position example_kernel
           example_rb_insert_color_inorder abc_state 8 abc_state_descending).
Defined.

Lemma register_all_descending_permutation_witness :
  adj_descending abc_boot
    (inorder (tasksadj (register_all example_kernel abc_boot [1; 2; 3])))
  /\ Permutation
       (inorder (tasksadj (register_all example_kernel abc_boot [1; 2; 3])))
       [1; 2; 3].
Proof.
  destruct (register_all_descending_permutation example_kernel
              example_rb_insert_color_inorder abc_boot [1; 2; 3] eq_refl)
    as (H1 & H2 & _).
  split; assumption.
Defined.

(** Of A, B and C, [pick_first_task] is C (oom_adj 12) and
    [pick_last_task] is A (oom_adj 6). *)
Lemma pick_first_last_extremes_witness :
  pick_first_task (register_all example_kernel abc_boot [1; 2; 3]) = Some 3
  /\ pick_last_task (register_all example_kernel abc_boot [1; 2; 3]) = Some 1
  /\ (forall t, In t [1; 2; 3] -> adj_of abc_boot t <= adj_of abc_boot 3)
  /\ (forall t, In t [1; 2; 3] -> adj_of abc_boot 1 <= adj_of abc_boot t).
Proof.
  destruct (pick_first_last_extremes example_kernel
              example_rb_insert_color_inorder abc_boot [1; 2; 3] eq_refl)
    as (Hfirst & Hlast & _).
  split; [reflexivity |]. split; [reflexivity |]. split.
  - apply (Hfirst 3). reflexivity.
  - apply (Hlast 1). reflexivity.
Defined.

(** The loop over A, B and C enters its body on C and B. *)
Lemma loop_header_skips_last_witness :
  cursor_walk 3 abc_state (pick_first_task abc_state) = [3; 2].
Proof.
  refine (loop_header_skips_last abc_state 3 abc_state_nodup _).
  vm_compute. lia.
Defined.

Lemma delete_after_add_restores_witness :
  inorder (tasksadj (delete_from_adj_tree example_rb_erase
                       (add_2_adj_tree example_kernel abc_state 8) 8))
  = [3; 2; 1].
Proof.
  refine (delete_after_add_restores example_kernel
            example_rb_insert_color_inorder example_rb_erase
            example_rb_erase_inorder abc_state 8
            abc_state_descending abc_state_nodup _).
  change (inorder (tasksadj abc_state)) with [3; 2; 1].
  simpl. intros H; decompose [or] H; discriminate || contradiction.
Defined.

Lemma delete_keeps_descending_witness :
  adj_descending (delete_from_adj_tree example_rb_erase abc_state 2)
    (inorder (tasksadj (delete_from_adj_tree example_rb_erase abc_state 2)))
  /\ ~ In 2 (inorder (tasksadj
                        (delete_from_adj_tree example_rb_erase abc_state 2))).
Proof.
  assert (Hin : In 2 (inorder (tasksadj abc_state))).
  { change (inorder (tasksadj abc_state)) with [3; 2; 1].
    right. left. reflexivity. }
  destruct (delete_keeps_descending example_rb_erase
              example_rb_erase_inorder abc_state 2
              abc_state_descending abc_state_nodup Hin)
    as (H1 & H2 & _).
  split; assumption.
Defined.

Lemma abc_table_ascending :
  forall i j, (i <= j)%nat -> Z.of_nat j < lowmem_array_size abc_boot ->
    nth i (lowmem_adj abc_boot) 0 <= nth j (lowmem_adj abc_boot) 0.
Proof.
  intros i j Hij Hj.
  change (lowmem_array_size abc_boot) with 4 in Hj.
  destruct j as [| [| [| [| j]]]]; try lia;
    destruct i as [| [| [| [| i]]]]; try lia; simpl; lia.
Qed.

Lemma abc_table_bounded :
  forall i, Z.of_nat i < lowmem_array_size abc_boot ->
    nth i (lowmem_adj abc_boot) 0 <= OOM_SCORE_ADJ_MAX + 1.
Proof.
  intros i Hi.
  change (lowmem_array_size abc_boot) with 4 in Hi.
  unfold OOM_SCORE_ADJ_MAX.
  destruct i as [| [| [| [| i]]]]; try lia; simpl; lia.
Qed.

(** On the module's initial tables the floor for 1000 and 1000 pages is
    not above the floor for 5000 and 5000 pages. *)
Lemma lowmem_min_adj_monotone_witness :
  lowmem_min_adj abc_boot 1000 1000 <= lowmem_min_adj abc_boot 5000 5000.
Proof.
  apply (lowmem_min_adj_monotone abc_boot 5000 5000 1000 1000
           abc_table_ascending abc_table_bounded); lia.
Defined.

Lemma no_row_crossed_no_kill_witness :
  lowmem_other example_kernel roomy_state 0 = (20000, 3000)
  /\ no_kill (events (lowmem_shrink example_kernel roomy_state 1 0))
  /\ retval (lowmem_shrink example_kernel roomy_state 1 0) = 4000.
Proof.
  assert (Hno : forall j, Z.of_nat j < lowmem_array_size roomy_state ->
            ~ (fst (lowmem_other example_kernel roomy_state 0)
               < nth j (lowmem_minfree roomy_state) 0
               /\ snd (lowmem_other example_kernel roomy_state 0)
                  < nth j (lowmem_minfree roomy_state) 0)).
  { intros j Hj [H1 _].
    change (lowmem_array_size roomy_state) with 4 in Hj.
    change (fst (lowmem_other example_kernel roomy_state 0)) with 20000 in H1.
    destruct j as [| [| [| [| j]]]]; try lia; simpl in H1; lia. }
  destruct (no_row_crossed_no_kill example_kernel roomy_state 1 0 Hno)
    as [Hk Hrest].
  split; [reflexivity |]. split; [exact Hk |].
  apply (Hrest eq_refl). reflexivity.
Defined.

Lemma abc_kill :
  In (Ev_send_sig 9 3) (events (lowmem_shrink example_kernel abc_state 1 0)).
Proof. vm_compute. right. left. reflexivity. Qed.

(** The task killed on A, B and C is a candidate met on a walked node, of
    oom_adj 12 with the floor at 6, and the call returns 4000 - 10. *)
Lemma victim_is_candidate_witness :
  exists tsk size,
    In tsk (removelast (inorder (tasksadj abc_state)))
    /\ In 3 (each_thread abc_state tsk)
    /\ candidate example_kernel abc_state tsk 3 (adj_of abc_state 3) size
    /\ lowmem_floor example_kernel abc_state 0 <= adj_of abc_state 3
    /\ retval (lowmem_shrink example_kernel abc_state 1 0)
       = to_int (lowmem_rem abc_state - size).
Proof.
  exact (proj2 (victim_is_candidate example_kernel abc_state 1 0 9 3 abc_kill)).
Defined.

Lemma kill_effects_witness :
  events (lowmem_shrink example_kernel abc_state 1 0)
  = [Ev_mutex_lock; Ev_send_sig 9 3; Ev_set_tsk_thread_flag 3 18;
     Ev_msleep_interruptible 20; Ev_mutex_unlock]
  /\ lowmem_deathpending_timeout
       (final (lowmem_shrink example_kernel abc_state 1 0)) = 5100.
Proof.
  destruct (kill_effects example_kernel abc_state 1 0 9 3 abc_kill)
    as (_ & Hev & _ & Hdl).
  split; [exact Hev | exact Hdl].
Defined.

(** One registered task, the floor at 6 and the task at oom_adj 12:
    nobody is killed. *)
Lemma short_index_no_kill_witness :
  lowmem_floor example_kernel
    (register_all example_kernel abc_boot [3]) 0 = 6
  /\ adj_of abc_boot 3 = 12
  /\ no_kill (events (lowmem_shrink example_kernel
                        (register_all example_kernel abc_boot [3]) 1 0)).
Proof.
  split; [reflexivity |]. split; [reflexivity |].
  apply (short_index_no_kill example_kernel
           (register_all example_kernel abc_boot [3]) 1 0).
  vm_compute. lia.
Defined.

(** A call by a dying caller sends no signal: it sets [TIF_MEMDIE] on
    the caller and leaves every other task as it was. *)
Lemma lowmem_shrink_frame_witness :
  tasksadj (final (lowmem_shrink example_kernel dying_caller_state 1 0))
  = tasksadj dying_caller_state
  /\ forall q,
       tasks (final (lowmem_shrink example_kernel dying_caller_state 1 0)) q
       = tasks dying_caller_state q
       \/ (q = current dying_caller_state
           /\ tasks (final (lowmem_shrink example_kernel
                              dying_caller_state 1 0)) q
              = set_thread_flag (tasks dying_caller_state q)
                  (TIF_MEMDIE example_kernel)).
Proof.
  destruct (lowmem_shrink_frame example_kernel dying_caller_state 1 0)
    as (Hindex & _ & _ & _ & _ & _ & _ & _ & _ & Htasks).
  split; [exact Hindex |].
  apply Htasks. intros sig p H. vm_compute in H.
  decompose [or] H; discriminate || contradiction.
Defined.

(** Ten jiffies after task 5 was killed, a second call kills nobody and
    returns 0. *)
Lemma no_second_kill_back_to_back_witness :
  no_kill (events (lowmem_shrink example_kernel after_first_kill 1 0))
  /\ retval (lowmem_shrink example_kernel after_first_kill 1 0) = 0.
Proof.
  assert (Hkill : In (Ev_send_sig 9 5)
                     (events (lowmem_shrink example_kernel grace_state 1 0))).
  { vm_compute. right. left. reflexivity. }
  assert (Hflags : TIF_MEMDIE example_kernel <> TIF_MM_RELEASED example_kernel)
    by discriminate.
  assert (Hn : 0 < 1) by lia.
  destruct (no_second_kill_back_to_back example_kernel grace_state 1 0 9 5
              5010 1 Hkill Hflags eq_refl) as [H1 H2].
  split; [exact H1 | exact (H2 Hn)].
Defined.

(** Task 5 was killed; once the deadline has passed, the next call
    passes over it and kills task 6. *)
Lemma victim_not_signalled_again_witness :
  ~ In (Ev_send_sig 9 5)
       (events (lowmem_shrink example_kernel after_deadline 1 0))
  /\ events (lowmem_shrink example_kernel after_deadline 1 0)
     = [Ev_mutex_lock; Ev_send_sig 9 6; Ev_set_tsk_thread_flag 6 18;
        Ev_msleep_interruptible 20; Ev_mutex_unlock].
Proof.
  assert (Hkill : In (Ev_send_sig 9 5)
                     (events (lowmem_shrink example_kernel grace_state 1 0))).
  { vm_compute. right. left. reflexivity. }
  split.
  - exact (victim_not_signalled_again example_kernel grace_state 1 0 9 5
             5200 1 0 9 (fun t H => H) Hkill).
  - vm_compute. reflexivity.
Defined.

(** In [abc_state] the deadline (0) is long past at jiffies 5000. *)
Lemma no_throttle_after_deadline_witness :
  (exists p, In (Ev_send_sig (SIGKILL example_kernel) p)
                (events (lowmem_shrink example_kernel abc_state 1 0)))
  \/ (retval (lowmem_shrink example_kernel abc_state 1 0)
      = lowmem_rem abc_state
      /\ final (lowmem_shrink example_kernel abc_state 1 0) = abc_state
      /\ ~ In (Ev_msleep_interruptible 20)
              (events (lowmem_shrink example_kernel abc_state 1 0))).
Proof.
  exact (no_throttle_after_deadline example_kernel abc_state 1 0
           eq_refl eq_refl eq_refl).
Defined.

(** Tasks 1, 2 and 4 at oom_adj 6, then task 9 at oom_adj 0: task 2 is
    selected and the tasks behind task 9 do not matter. *)
Lemma scan_stops_below_tier_witness :
  scan_loop example_kernel tie_state 6 (mk_selection None 0 6)
    [1; 2; 4; 9; 2; 2]
  = Scan_done (mk_selection (Some 2) 500 6).
Proof.
  assert (Hfloor : 6 <= 6) by lia.
  refine (scan_stops_below_tier example_kernel tie_state 6 6
            [(1, 1, 200)] [(4, 4, 500)] 2 2 500 9 9 0 50 [2; 2] 6
            Hfloor _ _ _ _ _).
  - repeat constructor; simpl.
    + candidate_by_computation (mk_mm 0 200).
    + candidate_by_computation (mk_mm 0 500).
    + candidate_by_computation (mk_mm 0 500).
  - repeat constructor.
  - repeat constructor. simpl. lia.
  - candidate_by_computation (mk_mm 0 50).
  - lia.
Defined.

Lemma tune_lmk_zone_param_any_order_witness :
  tune_lmk_zone_param example_kernel [highmem_zone; normal_zone] 0
    3100 (Some 3500)
  = tune_lmk_zone_param example_kernel [normal_zone; highmem_zone] 0
      3100 (Some 3500).
Proof.
  refine (tune_lmk_zone_param_any_order example_kernel
            [highmem_zone; normal_zone] [normal_zone; highmem_zone] 0
            3100 (Some 3500) _ _ _).
  - vm_compute. split; discriminate.
  - intros f [= <-]. vm_compute. split; discriminate.
  - apply perm_swap.
Defined.

Lemma example_zones_sane :
  zone_counters_sane normal_zone /\ zone_counters_sane highmem_zone.
Proof.
  split; unfold zone_counters_sane; simpl; repeat split; intros; lia.
Qed.

Lemma tune_lmk_param_only_lowers_witness :
  fst (tune_lmk_param example_kernel (kswapd_state 1) 3100 3500 0) <= 3100
  /\ snd (tune_lmk_param example_kernel (kswapd_state 1) 3100 3500 0) <= 3500.
Proof.
  refine (tune_lmk_param_only_lowers example_kernel (kswapd_state 1)
            3100 3500 0 _ _ _ _ _ _).
  - vm_compute. split; discriminate.
  - vm_compute. split; discriminate.
  - repeat constructor; apply example_zones_sane.
  - apply example_zones_sane.
  - vm_compute. discriminate.
  - vm_compute. discriminate.
Defined.

Lemma tune_lmk_param_single_zone_witness :
  tune_lmk_param example_kernel abc_state 3000 3000 0 = (3000, 3000).
Proof.
  refine (tune_lmk_param_single_zone example_kernel abc_state 3000 3000 0
            _ _ eq_refl _).
  - vm_compute. split; discriminate.
  - vm_compute. split; discriminate.
  - repeat constructor.
Defined.

(** On A, B and C with the floor at 6 the task killed is one of oom_adj
    12, the largest oom_adj registered. *)
Lemma lowmem_shrink_kills_largest_of_top_tier_witness :
  exists victim,
    In victim [1; 2; 3]
    /\ events (lowmem_shrink example_kernel abc_state 1 0)
       = [Ev_mutex_lock; Ev_send_sig 9 victim;
          Ev_set_tsk_thread_flag victim 18;
          Ev_msleep_interruptible 20; Ev_mutex_unlock]
    /\ adj_of abc_state victim = 12.
Proof.
  assert (Hcand : forall t, In t [1; 2; 3] ->
            candidate example_kernel
              (register_all example_kernel abc_boot [1; 2; 3]) t t
              (adj_of (register_all example_kernel abc_boot [1; 2; 3]) t)
              (abc_size t)).
  { intros t [<- | [<- | [<- | []]]].
    - candidate_by_computation (mk_mm 0 200).
    - candidate_by_computation (mk_mm 0 500).
    - candidate_by_computation (mk_mm 0 10). }
  assert (Hfloor : exists t, In t [1; 2; 3]
            /\ lowmem_floor example_kernel
                 (register_all example_kernel abc_boot [1; 2; 3]) 0
               <= adj_of (register_all example_kernel abc_boot [1; 2; 3]) t).
  { exists 3. split; [simpl; auto |]. vm_compute. discriminate. }
  assert (Htiers : exists t t', In t [1; 2; 3] /\ In t' [1; 2; 3]
            /\ adj_of (register_all example_kernel abc_boot [1; 2; 3]) t
               < adj_of (register_all example_kernel abc_boot [1; 2; 3]) t').
  { exists 1, 3. repeat split; simpl; auto. }
  assert (Hne : lowmem_floor example_kernel
                  (register_all example_kernel abc_boot [1; 2; 3]) 0
                <> OOM_SCORE_ADJ_MAX + 1).
  { vm_compute. discriminate. }
  assert (Hn : 0 < 1) by lia.
  destruct (lowmem_shrink_kills_largest_of_top_tier example_kernel
              example_rb_insert_color_inorder abc_boot [1; 2; 3] abc_size 1 0
              eq_refl Hcand Hfloor Htiers Hne eq_refl Hn eq_refl)
    as (victim & Hin & Hev & _ & Htop & _).
  exists victim. split; [exact Hin |]. split; [exact Hev |].
  assert (H12 : adj_of abc_state 3 <= adj_of abc_state victim).
  { apply Htop. simpl. auto. }
  destruct Hin as [<- | [<- | [<- | []]]];
    try reflexivity; vm_compute in H12; exfalso; apply H12; reflexivity.
Defined.
